(** * Vantage: graph ingestion, query normalisation and action emission

    A shallow embedding of the Python sources of the Vantage research
    assistant (tools.py, seed.py, api.py, app.py, whiteboard_tools.py) and
    the properties of its specification that can be stated over it.

    Conventions.
    - A Python [str] is a [string]; the model covers ASCII text: case
      mapping and whitespace classification follow Python on code points
      below 128, and a character outside that range is a caseless,
      non-blank symbol.  A statement that would not hold of Python on
      cased characters outside ASCII carries the hypothesis that the
      text is ASCII.
    - The graph engine, the search tool and the language model are not part
      of the repository.  The engine is modelled by the documented meaning
      of the three Cypher statement shapes the code issues; the search tool
      and the language model are oracles supplied by an environment record.
    - Code that can raise is modelled with an explicit outcome type.
    - A value read from the store is a string or [None]; a row is the
      list of its columns, and a column that is missing raises.  The
      connection to the store and its answer to the text of a read
      statement are oracles too, as are the events of an agent run.
    - Output to the console ([print]) is not modelled.  A constant of the
      code with characters outside ASCII stands by its UTF-8 bytes. *)

From Stdlib Require Import String Ascii List Bool Arith Lia ZArith.
#[local] Hint Constructors Forall : core.
Set Warnings "-register-all".
Import ListNotations.
Open Scope list_scope.
Open Scope string_scope.

(* ================================================================== *)
(** * Python string operations *)
(* ================================================================== *)

Module PyStr.

Definition code (c : ascii) : nat := nat_of_ascii c.

Definition between (lo hi : nat) (c : ascii) : bool :=
  Nat.leb lo (code c) && Nat.leb (code c) hi.

Definition is_upper (c : ascii) : bool := between 65 90 c.
Definition is_lower (c : ascii) : bool := between 97 122 c.
Definition is_cased (c : ascii) : bool := is_upper c || is_lower c.

(** [str.isspace] on one character: TAB..CR, FS..US and SPACE. *)
Definition is_space (c : ascii) : bool :=
  between 9 13 c || between 28 32 c.

Definition lower_char (c : ascii) : ascii :=
  if is_upper c then ascii_of_nat (code c + 32) else c.

Definition upper_char (c : ascii) : ascii :=
  if is_lower c then ascii_of_nat (code c - 32) else c.

Fixpoint map_str (f : ascii -> ascii) (s : string) : string :=
  match s with
  | EmptyString => EmptyString
  | String c s' => String (f c) (map_str f s')
  end.

(** [s.lower()] and [s.upper()] on ASCII text: a character outside ASCII
    is left as it is, where Python maps the cased ones. *)
Definition lower : string -> string := map_str lower_char.
Definition upper : string -> string := map_str upper_char.

(** [s.startswith(p)]. *)
Fixpoint starts_with (p s : string) : bool :=
  match p, s with
  | EmptyString, _ => true
  | String a p', String b s' => Ascii.eqb a b && starts_with p' s'
  | String _ _, EmptyString => false
  end.

(** [sub in s]. *)
Fixpoint contains (sub s : string) : bool :=
  starts_with sub s ||
  match s with
  | EmptyString => false
  | String _ s' => contains sub s'
  end.

Fixpoint lstrip (s : string) : string :=
  match s with
  | EmptyString => EmptyString
  | String c s' => if is_space c then lstrip s' else s
  end.

Fixpoint rstrip (s : string) : string :=
  match s with
  | EmptyString => EmptyString
  | String c s' =>
      match rstrip s' with
      | EmptyString => if is_space c then EmptyString else String c EmptyString
      | r => String c r
      end
  end.

(** [s.strip()]. *)
Definition strip (s : string) : string := rstrip (lstrip s).

(** [s.title()] on ASCII text: a cased character is upper-cased when the
    character before it is not cased, lower-cased otherwise; a character
    outside ASCII counts as not cased. *)
Fixpoint title_from (previous_is_cased : bool) (s : string) : string :=
  match s with
  | EmptyString => EmptyString
  | String c s' =>
      String (if previous_is_cased then lower_char c else upper_char c)
             (title_from (is_cased c) s')
  end.

Definition title (s : string) : string := title_from false s.

(** [sep.join(l)]. *)
Fixpoint join (sep : string) (l : list string) : string :=
  match l with
  | [] => EmptyString
  | [x] => x
  | x :: rest => x ++ sep ++ join sep rest
  end.

(** [s.split(sep)] for a one-character separator: never the empty list. *)
Fixpoint split (sep : ascii) (s : string) : list string :=
  match s with
  | EmptyString => [EmptyString]
  | String c s' =>
      if Ascii.eqb c sep then EmptyString :: split sep s'
      else match split sep s' with
           | h :: t => String c h :: t
           | [] => [String c EmptyString]
           end
  end.

(** [s.replace(old, new)] for a non-empty [old]: occurrences are replaced
    from the left and never overlap; [skip] counts the characters of a
    matched occurrence still to be dropped. *)
Fixpoint replace_from (old new : string) (skip : nat) (s : string) : string :=
  match s with
  | EmptyString => EmptyString
  | String c s' =>
      match skip with
      | S k => replace_from old new k s'
      | O =>
          if starts_with old s
          then new ++ replace_from old new (String.length old - 1) s'
          else String c (replace_from old new 0 s')
      end
  end.

Definition replace (old new s : string) : string := replace_from old new 0 s.

(** [l[:n]]. *)
Definition take {A} (n : nat) (l : list A) : list A := firstn n l.

End PyStr.

(* ================================================================== *)
(** * The regular expressions of the entity extractor *)
(* ================================================================== *)

Module Re.
Import PyStr.

(** Every pattern the extractor uses is [^], a literal phrase, then
    [\s+].  [match_literal_ci] consumes the phrase at the start of the
    subject under [re.IGNORECASE]. *)
Fixpoint match_literal_ci (lit s : string) : option string :=
  match lit, s with
  | EmptyString, _ => Some s
  | String a lit', String b s' =>
      if Ascii.eqb (lower_char a) (lower_char b)
      then match_literal_ci lit' s' else None
  | String _ _, EmptyString => None
  end.

(** [re.sub("^" + lit + r"\s+", "", s, flags=re.IGNORECASE)]: the anchor
    allows one match, at position 0; [\s+] is greedy and needs one blank. *)
Definition sub_prefix (lit s : string) : string :=
  match match_literal_ci lit s with
  | Some (String c rest) => if is_space c then lstrip rest else s
  | _ => s
  end.

End Re.

(* ================================================================== *)
(** * api.py and app.py: [extract_entity_from_query] *)
(* ================================================================== *)

Module Extractor.
Import PyStr.

Definition known_entities : list string :=
  [ "OpenAI"; "Anthropic"; "Perplexity"; "Databricks";
    "Zepto"; "Swiggy"; "Zomato"; "Blinkit"; "Meesho";
    "Microsoft"; "NVIDIA"; "SoftBank"; "Google"; "Amazon" ].

(** The loop [for entity in known_entities: if entity.lower() in
    query_lower: return entity]. *)
Fixpoint first_known (entities : list string) (query_lower : string)
  : option string :=
  match entities with
  | [] => None
  | entity :: rest =>
      if contains (lower entity) query_lower then Some entity
      else first_known rest query_lower
  end.

(** The loop [for p in prefixes: clean_query = re.sub(...)]. *)
Definition strip_prefixes (prefixes : list string) (query : string) : string :=
  fold_left (fun clean_query p => Re.sub_prefix p clean_query) prefixes query.

Definition extract_with (prefixes : list string) (query : string) : string :=
  match query with
  | EmptyString => EmptyString
  | _ =>
      let query_lower := lower query in
      match first_known known_entities query_lower with
      | Some entity => entity
      | None => title (strip (strip_prefixes prefixes query))
      end
  end.

End Extractor.

Module Api.
(** The phrases of [prefixes] in api.py, each followed by [\s+]. *)
Definition prefixes : list string :=
  [ "research"; "analyze"; "write an investment memo for";
    "memo for"; "tell me about" ].

Definition extract_entity_from_query : string -> string :=
  Extractor.extract_with prefixes.
End Api.

Module App.
(** The phrases of [prefixes] in app.py, each followed by [\s+]. *)
Definition prefixes : list string :=
  [ "research"; "analyze"; "analyse";
    "investment memo for"; "memo for";
    "write an investment for"; "write a report on";
    "write an investment memo for";
    "tell me about"; "who is"; "what is" ].

Definition extract_entity_from_query : string -> string :=
  Extractor.extract_with prefixes.
End App.

(* ================================================================== *)
(** * [json.dumps] on the payloads of the action helpers *)
(* ================================================================== *)

Module Json.
Import PyStr.

(** The payloads of the helpers are dicts of strings, integers and nested
    dicts (the float [price] of [create_company_node] is left out); a dict
    keeps its insertion order. *)
Inductive value : Type :=
| Str (s : string)
| Int (z : Z)
| Obj (fields : list (string * value)).

Definition dq : string := String (ascii_of_nat 34) EmptyString.

Definition hex_digit (n : nat) : ascii :=
  nth n [ "0"; "1"; "2"; "3"; "4"; "5"; "6"; "7";
          "8"; "9"; "a"; "b"; "c"; "d"; "e"; "f" ]%char "0"%char.

(** One character under [ensure_ascii=True]: the double quote, the
    backslash and everything outside SPACE..TILDE are escaped. *)
Definition escape_char (c : ascii) : string :=
  let n := code c in
  if Nat.eqb n 34 then "\" ++ dq
  else if Nat.eqb n 92 then "\\"
  else if Nat.eqb n 10 then "\n"
  else if Nat.eqb n 13 then "\r"
  else if Nat.eqb n 9 then "\t"
  else if Nat.eqb n 8 then "\b"
  else if Nat.eqb n 12 then "\f"
  else if between 32 126 c then String c EmptyString
  else "\u00" ++ String (hex_digit (n / 16))
                   (String (hex_digit (n mod 16)) EmptyString).

Fixpoint escape_body (s : string) : string :=
  match s with
  | EmptyString => EmptyString
  | String c s' => escape_char c ++ escape_body s'
  end.

Definition encode_string (s : string) : string := dq ++ escape_body s ++ dq.

Fixpoint digits_of (d : Decimal.uint) : string :=
  match d with
  | Decimal.Nil => EmptyString
  | Decimal.D0 d' => String "0" (digits_of d')
  | Decimal.D1 d' => String "1" (digits_of d')
  | Decimal.D2 d' => String "2" (digits_of d')
  | Decimal.D3 d' => String "3" (digits_of d')
  | Decimal.D4 d' => String "4" (digits_of d')
  | Decimal.D5 d' => String "5" (digits_of d')
  | Decimal.D6 d' => String "6" (digits_of d')
  | Decimal.D7 d' => String "7" (digits_of d')
  | Decimal.D8 d' => String "8" (digits_of d')
  | Decimal.D9 d' => String "9" (digits_of d')
  end.

Definition encode_int (z : Z) : string :=
  match z with
  | Z0 => "0"
  | Zpos p => digits_of (Pos.to_uint p)
  | Zneg p => String "-" (digits_of (Pos.to_uint p))
  end.

(** [json.dumps(v)] with the default separators [", "] and [": "]. *)
Fixpoint dumps (v : value) : string :=
  match v with
  | Str s => encode_string s
  | Int z => encode_int z
  | Obj fields =>
      "{" ++ join ", "
               ((fix items (l : list (string * value)) : list string :=
                   match l with
                   | [] => []
                   | (k, x) :: l' =>
                       (encode_string k ++ ": " ++ dumps x) :: items l'
                   end) fields)
          ++ "}"
  end.

Fixpoint items (l : list (string * value)) : list string :=
  match l with
  | [] => []
  | (k, x) :: l' => (encode_string k ++ ": " ++ dumps x) :: items l'
  end.

(** Every string of a payload: keys and string values. *)
Fixpoint strings_of (v : value) : list string :=
  match v with
  | Str s => [s]
  | Int _ => []
  | Obj fields =>
      (fix go (l : list (string * value)) : list string :=
         match l with
         | [] => []
         | (k, x) :: l' => (k :: strings_of x) ++ go l'
         end)%list fields
  end.

End Json.

(* ================================================================== *)
(** * whiteboard_tools.py *)
(* ================================================================== *)

Module Whiteboard.
Import PyStr Json.

Definition nl : string := String (ascii_of_nat 10) EmptyString.

Definition CREATE_NODE : string := "create_node".
Definition CREATE_CHART : string := "create_chart".
Definition CREATE_METRIC : string := "create_metric".

Definition start_marker : string := "<<<ACTION:".
Definition end_marker : string := ":ACTION>>>".

Definition action (action_type : string) (data : value) : value :=
  Obj [ ("type", Str action_type); ("data", data) ].

Definition emit_action (action_type : string) (data : value) : string :=
  nl ++ start_marker ++ dumps (action action_type data) ++ end_marker ++ nl.

Definition create_text_node (title content : string) : string :=
  emit_action CREATE_NODE
    (Obj [ ("title", Str title);
           ("node_type", Str "text");
           ("data", Obj [ ("content", Str content) ]) ]).

Definition create_metric_node (label value_ ticker trend unit_ : string)
  : string :=
  emit_action CREATE_METRIC
    (Obj [ ("title", Str label);
           ("node_type", Str "metric");
           ("metric",
             Obj [ ("label", Str label);
                   ("value", Str value_);
                   ("ticker", Str (match ticker with
                                   | EmptyString => EmptyString
                                   | _ => upper ticker
                                   end));
                   ("trend", Str trend);
                   ("unit", Str unit_);
                   ("metricType", Str "custom") ]) ]).

(** The dict appended to [actions] by [analyze_portfolio]. *)
Definition chart_data (ticker : string) : value :=
  Obj [ ("title", Str (ticker ++ " Chart"));
        ("node_type", Str "chart");
        ("chart", Obj [ ("ticker", Str ticker);
                        ("chartType", Str "line");
                        ("timeframe", Str "1M") ]) ].

Definition analyze_portfolio (tickers : string) : string :=
  let ticker_list := map (fun t => upper (strip t)) (split "," tickers) in
  let actions :=
    fold_left (fun actions ticker =>
                 (actions ++ [action CREATE_CHART (chart_data ticker)])%list)
              (take 6 ticker_list) [] in
  let result :=
    fold_left (fun result a =>
                 result ++ (nl ++ start_marker ++ dumps a ++ end_marker ++ nl))
              actions EmptyString in
  result ++ (nl ++ "Created portfolio view for: " ++ join ", " ticker_list).

End Whiteboard.

(* ================================================================== *)
(** * Outcomes of code that can raise *)
(* ================================================================== *)

(** [Raise msg]: an exception whose [str(e)] is [msg]. *)
Inductive outcome (A : Type) : Type :=
| Ok (a : A)
| Raise (msg : string).
Arguments Ok {A} a.
Arguments Raise {A} msg.

(* ================================================================== *)
(** * The text of a Cypher statement, as the engine reads it *)
(* ================================================================== *)

Module Cypher.

(** A statement is read as a sequence of plain characters and string
    literals.  A literal opens with a single or a double quote and closes
    with the same one; inside it a backslash escapes the next character.
    Comments are not recognised. *)
Inductive token : Type :=
| Ch (c : ascii)
| Lit (s : string).

Inductive mode : Type :=
| Code
| InLit (q : ascii)
| InEsc (q : ascii).

Definition squote : ascii := "'"%char.
Definition dquote : ascii := ascii_of_nat 34.
Definition backslash : ascii := "\"%char.

Definition is_quote (c : ascii) : bool :=
  Ascii.eqb c squote || Ascii.eqb c dquote.

(** The character denoted by an escape sequence. *)
Definition unescape (c : ascii) : option ascii :=
  if Ascii.eqb c backslash then Some backslash
  else if Ascii.eqb c squote then Some squote
  else if Ascii.eqb c dquote then Some dquote
  else if Ascii.eqb c "t" then Some (ascii_of_nat 9)
  else if Ascii.eqb c "n" then Some (ascii_of_nat 10)
  else if Ascii.eqb c "r" then Some (ascii_of_nat 13)
  else if Ascii.eqb c "b" then Some (ascii_of_nat 8)
  else if Ascii.eqb c "f" then Some (ascii_of_nat 12)
  else None.

Definition snoc (s : string) (c : ascii) : string :=
  s ++ String c EmptyString.

(** [lit] holds the characters of the literal being read. *)
Fixpoint lex_from (m : mode) (lit : string) (s : string)
  : option (list token) :=
  match s with
  | EmptyString => match m with Code => Some [] | _ => None end
  | String c s' =>
      match m with
      | Code =>
          if is_quote c then lex_from (InLit c) EmptyString s'
          else option_map (cons (Ch c)) (lex_from Code EmptyString s')
      | InLit q =>
          if Ascii.eqb c q
          then option_map (cons (Lit lit)) (lex_from Code EmptyString s')
          else if Ascii.eqb c backslash then lex_from (InEsc q) lit s'
          else lex_from (InLit q) (snoc lit c) s'
      | InEsc q =>
          match unescape c with
          | Some d => lex_from (InLit q) (snoc lit d) s'
          | None => None
          end
      end
  end.

Definition lex (text : string) : option (list token) :=
  lex_from Code EmptyString text.

(** The structure of a statement: its tokens, literals emptied. *)
Definition shape (toks : list token) : list token :=
  map (fun t => match t with Lit _ => Lit EmptyString | Ch c => Ch c end) toks.

Fixpoint literals (toks : list token) : list string :=
  match toks with
  | [] => []
  | Lit s :: rest => s :: literals rest
  | Ch _ :: rest => literals rest
  end.

Definition token_eqb (a b : token) : bool :=
  match a, b with
  | Ch x, Ch y => Ascii.eqb x y
  | Lit x, Lit y => String.eqb x y
  | _, _ => false
  end.

Fixpoint tokens_eqb (a b : list token) : bool :=
  match a, b with
  | [], [] => true
  | x :: a', y :: b' => token_eqb x y && tokens_eqb a' b'
  | _, _ => false
  end.

(** A statement template: the pieces of text around its literals.  The
    engine runs the statement a template stands for on the literals it
    reads, when the text has the structure of the template. *)
Definition fill (pieces : list string) (values : list string) : string :=
  (fix go (ps vs : list string) : string :=
     match ps, vs with
     | [], _ => EmptyString
     | p :: ps', v :: vs' =>
         p ++ String squote (v ++ String squote (go ps' vs'))
     | p :: _, [] => p
     end) pieces values.

Definition read_as (pieces : list string) (text : string)
  : option (list string) :=
  match lex text, lex (fill pieces (map (fun _ => EmptyString) (tl pieces))) with
  | Some toks, Some expected =>
      if tokens_eqb (shape toks) (shape expected)
      then Some (literals toks) else None
  | _, _ => None
  end.

(** A relationship type or label written without backticks: a letter or
    an underscore, then letters, digits and underscores. *)
Definition name_start (c : ascii) : bool :=
  PyStr.is_upper c || PyStr.is_lower c || Ascii.eqb c "_".

Definition name_part (c : ascii) : bool :=
  name_start c || PyStr.between 48 57 c.

Definition is_symbolic_name (s : string) : bool :=
  match s with
  | EmptyString => false
  | String c rest =>
      name_start c
      && (fix all (r : string) : bool :=
            match r with
            | EmptyString => true
            | String d r' => name_part d && all r'
            end) rest
  end.

End Cypher.

(* ================================================================== *)
(** * The property graph and the statements issued against it *)
(* ================================================================== *)

Module Graph.

(** A node has an identity of its own ([node_key], never reused), a list
    of labels and a map of properties; [id] is one of the properties. *)
Record node : Type := mk_node {
  node_key : nat;
  labels : list string;
  props : list (string * string)
}.

Record edge : Type := mk_edge {
  edge_source : nat;
  edge_type : string;
  edge_target : nat
}.

Record graph : Type := mk_graph {
  nodes : list node;
  edges : list edge;
  next_key : nat
}.

Definition empty : graph := mk_graph [] [] 0.

Fixpoint lookup (k : string) (m : list (string * string)) : option string :=
  match m with
  | [] => None
  | (k', v) :: rest => if String.eqb k k' then Some v else lookup k rest
  end.

Fixpoint assign (k v : string) (m : list (string * string))
  : list (string * string) :=
  match m with
  | [] => [(k, v)]
  | (k', v') :: rest =>
      if String.eqb k k' then (k, v) :: rest else (k', v') :: assign k v rest
  end.

Definition has_label (l : string) (n : node) : bool :=
  existsb (String.eqb l) (labels n).

(** The pattern [{id: name}]. *)
Definition id_is (name : string) (n : node) : bool :=
  match lookup "id" (props n) with
  | Some v => String.eqb v name
  | None => false
  end.

(** The pattern [(:label {id: name})]. *)
Definition matches (label name : string) (n : node) : bool :=
  has_label label n && id_is name n.

Definition edge_eqb (a b : edge) : bool :=
  Nat.eqb (edge_source a) (edge_source b)
  && String.eqb (edge_type a) (edge_type b)
  && Nat.eqb (edge_target a) (edge_target b).

Definition has_edge (e : edge) (g : graph) : bool :=
  existsb (edge_eqb e) (edges g).


(** [MERGE (n:label {id: name})]: binds the nodes that carry the label
    and the id; creates one, with that label alone, when there is none. *)
Definition merge_node (label name : string) (g : graph) : graph :=
  if existsb (matches label name) (nodes g) then g
  else mk_graph
         (nodes g ++ [mk_node (next_key g) [label] [("id", name)]])
         (edges g)
         (S (next_key g)).

Definition add_label (label : string) (n : node) : node :=
  if has_label label n then n
  else mk_node (node_key n) (labels n ++ [label]) (props n).

(** [MATCH (n {id: name}) SET n:label]. *)
Definition set_label (name label : string) (g : graph) : graph :=
  mk_graph
    (map (fun n => if id_is name n then add_label label n else n) (nodes g))
    (edges g)
    (next_key g).

(** [MERGE (a)-[:type]->(b)] for bound [a] and [b]. *)
Definition merge_edge (e : edge) (g : graph) : graph :=
  if has_edge e g then g
  else mk_graph (nodes g) (edges g ++ [e]) (next_key g).

Definition link (type : string) (ab : node * node) (g : graph) : graph :=
  merge_edge (mk_edge (node_key (fst ab)) type (node_key (snd ab))) g.

(** [MATCH (a {id: source}), (b {id: target}) MERGE (a)-[:type]->(b)]:
    one row for each pair of matching nodes. *)
Definition merge_rel (type source target : string) (g : graph) : graph :=
  fold_left (fun g' ab => link type ab g')
            (list_prod (filter (id_is source) (nodes g))
                       (filter (id_is target) (nodes g)))
            g.

(** [MATCH (a:Organization {id: x}), (b:Organization {id: y})
     MERGE (a)-[:COMPETES_WITH]->(b) MERGE (b)-[:COMPETES_WITH]->(a)]. *)
Definition compete (x y : string) (g : graph) : graph :=
  fold_left (fun g' ab =>
               link "COMPETES_WITH" (snd ab, fst ab)
                 (link "COMPETES_WITH" ab g'))
            (list_prod (filter (matches "Organization" x) (nodes g))
                       (filter (matches "Organization" y) (nodes g)))
            g.

End Graph.

(* ================================================================== *)
(** * seed.py *)
(* ================================================================== *)

Module Seed.
Import PyStr.

Definition nl : string := String (ascii_of_nat 10) EmptyString.

(** [s.replace("'", "\\'")]. *)
Definition escape_quotes (s : string) : string := replace "'" "\'" s.

Record company_data : Type := {
  valuation : string;
  sector : string;
  status : string;
  description : string;
  founders : list string;
  investors : list string
}.

(** The text around the values of the three statements of
    [seed_company] and of the statement of [create_competition]. *)
Definition company_pieces : list string :=
  [ nl ++ "        MERGE (c:Organization {id: ";
    "})" ++ nl ++ "        SET c.valuation = ";
    "," ++ nl ++ "            c.sector = ";
    "," ++ nl ++ "            c.description = ";
    "," ++ nl ++ "            c.status = ";
    nl ++ "    " ].

Definition founder_pieces : list string :=
  [ nl ++ "            MERGE (p:Person {id: ";
    "})" ++ nl ++ "            MERGE (c:Organization {id: ";
    "})" ++ nl ++ "            MERGE (p)-[:LEADS]->(c)" ++ nl ++ "        " ].

Definition investor_pieces : list string :=
  [ nl ++ "            MERGE (i:Organization {id: ";
    "})" ++ nl ++ "            MERGE (c:Organization {id: ";
    "})" ++ nl ++ "            MERGE (i)-[:INVESTED_IN]->(c)" ++ nl
       ++ "        " ].

Definition competition_pieces : list string :=
  [ nl ++ "                MATCH (a:Organization {id: ";
    "})," ++ nl ++ "                      (b:Organization {id: ";
    "})" ++ nl ++ "                MERGE (a)-[:COMPETES_WITH]->(b)" ++ nl
       ++ "                MERGE (b)-[:COMPETES_WITH]->(a)" ++ nl
       ++ "            " ].

(** The texts that [seed_company name data] passes to [graph.query]. *)
Definition company_text (name : string) (data : company_data) : string :=
  let desc := escape_quotes (description data) in
  let val := escape_quotes (valuation data) in
  let sec := escape_quotes (sector data) in
  let stat := escape_quotes (status data) in
  Cypher.fill company_pieces [name; val; sec; desc; stat].

Definition founder_text (name founder : string) : string :=
  let founder := escape_quotes founder in
  Cypher.fill founder_pieces [founder; name].

Definition investor_text (name investor : string) : string :=
  let investor := escape_quotes investor in
  Cypher.fill investor_pieces [investor; name].

Definition seed_company_texts (name : string) (data : company_data)
  : list string :=
  (company_text name data
     :: map (founder_text name) (founders data)
     ++ map (investor_text name) (investors data))%list.

Definition competition_text (a b : string) : string :=
  Cypher.fill competition_pieces [a; b].

(** [graph.query] on the text of a competition statement. *)
Definition query_competition (text : string) (g : Graph.graph)
  : outcome Graph.graph :=
  match Cypher.read_as competition_pieces text with
  | Some [x; y] => Ok (Graph.compete x y g)
  | _ => Raise "Invalid input"
  end.

(** The loops of [create_competition]; an exception leaves them. *)
Fixpoint for_each {A : Type} (l : list A)
  (body : A -> Graph.graph -> outcome Graph.graph) (g : Graph.graph)
  : outcome Graph.graph :=
  match l with
  | [] => Ok g
  | x :: rest =>
      match body x g with
      | Ok g' => for_each rest body g'
      | Raise msg => Raise msg
      end
  end.

(** [range(lo, hi)]. *)
Definition range (lo hi : nat) : list nat := seq lo (hi - lo).

Definition item (companies : list string) (i : nat) : string :=
  nth i companies EmptyString.

Definition create_competition (companies : list string) (g : Graph.graph)
  : outcome Graph.graph :=
  for_each (range 0 (List.length companies)) (fun i =>
    for_each (range (i + 1) (List.length companies)) (fun j =>
      query_competition
        (competition_text (item companies i) (item companies j)))) g.

End Seed.

(* ================================================================== *)
(** * api.py: the statements of the /graph endpoint *)
(* ================================================================== *)

Module GraphEndpoint.
Import PyStr.

Definition center_pieces : list string :=
  [ "MATCH (n) WHERE toLower(n.id) = toLower(";
    ") RETURN n.id as id, labels(n)[0] as label LIMIT 1" ].

(** The first statement of [get_graph query], issued when the focus
    entity is not empty. *)
Definition center_text (query : string) : string :=
  let focus_entity := Api.extract_entity_from_query query in
  let safe_entity := replace "'" "\'" focus_entity in
  Cypher.fill center_pieces [safe_entity].

End GraphEndpoint.

(* ================================================================== *)
(** * tools.py *)
(* ================================================================== *)

Module Tools.
Import PyStr.

(** The three statements of [research_and_learn].  The names travel as
    query parameters; the label and the relationship type are written
    into the text. *)
Inductive stmt : Type :=
| MergeNode (label name : string)
    (* MERGE (n:label {id: $name}) *)
| SetInvestor (name : string)
    (* MATCH (n {id: $name}) SET n:Investor *)
| MergeRel (rel_type source target : string).
    (* MATCH (a {id: $source}), (b {id: $target}) MERGE (a)-[:rel_type]->(b) *)

Definition is_node_merge (st : stmt) : bool :=
  match st with MergeNode _ _ => true | _ => false end.

(** The text is the statement when what was written into it is a name. *)
Definition well_formed (st : stmt) : bool :=
  match st with
  | MergeNode label _ => Cypher.is_symbolic_name label
  | SetInvestor _ => true
  | MergeRel rel_type _ _ => Cypher.is_symbolic_name rel_type
  end.

Definition apply (st : stmt) (g : Graph.graph) : Graph.graph :=
  match st with
  | MergeNode label name => Graph.merge_node label name g
  | SetInvestor name => Graph.set_label name "Investor" g
  | MergeRel rel_type source target =>
      Graph.merge_rel rel_type source target g
  end.

(** [graph.query(st)] on an engine that answers. *)
Definition exec (st : stmt) (g : Graph.graph) : outcome Graph.graph :=
  if well_formed st then Ok (apply st g) else Raise "Invalid input".

(** The decoded answer of the language model, when it is a JSON object
    of the shape the prompt prescribes; a missing list is empty. *)
Record relationship : Type := {
  source : string;
  target : string;
  type : string
}.

Record extraction : Type := {
  companies : list string;
  people : list string;
  sectors : list string;
  locations : list string;
  relationships : list relationship
}.

(** What is outside the repository: the search tool, the language model
    (its client built, then asked with the extraction prompt built around
    the text found), the JSON decoder, the question-answering chain (the
    construction of its client and of the chain, [chain_from_llm], and
    its call, [chain_invoke]), and the availability of the store
    ([store_fault n] is the error, if any, that the store answers after
    [n] statements applied). *)
Record env : Type := {
  SEARCH_AVAILABLE : bool;
  search_invoke : string -> outcome string;
  llm_invoke : string -> outcome string;
  json_loads : string -> outcome extraction;
  chain_from_llm : outcome unit;
  chain_invoke : string -> Graph.graph -> outcome string;
  store_fault : nat -> option string
}.

(** The store and the statements applied to it so far. *)
Record world : Type := {
  db : Graph.graph;
  applied : list stmt
}.

Definition M (A : Type) : Type := world -> outcome A * world.

Definition ret {A : Type} (a : A) : M A := fun w => (Ok a, w).

Definition bind {A B : Type} (m : M A) (k : A -> M B) : M B :=
  fun w => match m w with
           | (Ok a, w') => k a w'
           | (Raise msg, w') => (Raise msg, w')
           end.

Definition lift {A : Type} (o : outcome A) : M A := fun w => (o, w).

(** [try: body except Exception as e: handler(str(e))]. *)
Definition try_except {A : Type} (body : M A) (handler : string -> M A)
  : M A :=
  fun w => match body w with
           | (Ok a, w') => (Ok a, w')
           | (Raise msg, w') => handler msg w'
           end.

Notation "x <- m ;; k" := (bind m (fun x => k))
  (at level 100, m at next level, right associativity).
Notation "m ;;; k" := (bind m (fun _ => k))
  (at level 100, right associativity).

Fixpoint for_each {A : Type} (l : list A) (body : A -> M unit) : M unit :=
  match l with
  | [] => ret tt
  | x :: rest => body x ;;; for_each rest body
  end.

Section WithEnv.
Variable e : env.

(** [graph.query(st, params=...)]. *)
Definition query (st : stmt) : M unit :=
  fun w =>
    match store_fault e (List.length (applied w)) with
    | Some msg => (Raise msg, w)
    | None =>
        match exec st (db w) with
        | Ok g => (Ok tt, {| db := g; applied := applied w ++ [st] |})
        | Raise msg => (Raise msg, w)
        end
    end.

Definition label_of (key : string) : string :=
  if String.eqb key "companies" then "Organization"
  else if String.eqb key "people" then "Person"
  else if String.eqb key "sectors" then "Sector"
  else "Location".

(** [data.get(key, [])]. *)
Definition get (key : string) (data : extraction) : list string :=
  if String.eqb key "companies" then companies data
  else if String.eqb key "people" then people data
  else if String.eqb key "sectors" then sectors data
  else if String.eqb key "locations" then locations data
  else [].

Definition summary_of (data : extraction) : string :=
  let summary :=
    "I have updated the database. Found: "
    ++ join ", " (take 3 (companies data)) ++ ". " in
  match people data with
  | [] => summary
  | _ => summary ++ "Key People: " ++ join ", " (people data) ++ "."
  end.

(** Lines 91 to 113: the writes and the summary. *)
Definition ingest (data : extraction) : M string :=
  for_each ["companies"; "people"; "sectors"; "locations"] (fun key =>
    let label := label_of key in
    for_each (get key data) (fun item =>
      query (MergeNode label item))) ;;;
  for_each (relationships data) (fun rel =>
    let rel_type := upper (type rel) in
    (if String.eqb rel_type "INVESTED_IN"
     then query (SetInvestor (source rel))
     else ret tt) ;;;
    query (MergeRel rel_type (source rel) (target rel))) ;;;
  ret (summary_of data).

Definition search_query (topic : string) : string :=
  if negb (contains "investor" (lower topic))
     && negb (contains "ceo" (lower topic))
  then topic ++ " investors CEO founders details"
  else topic.

Definition clean_json (content : string) : string :=
  strip (replace "```" "" (replace "```json" "" content)).

Definition research_and_learn (topic : string) : M string :=
  if SEARCH_AVAILABLE e then
    match search_invoke e (search_query topic) with
    | Raise msg => ret ("Search failed: " ++ msg)
    | Ok raw_text =>
        response <- lift (llm_invoke e raw_text) ;;
        try_except
          (data <- lift (json_loads e (clean_json response)) ;;
           ingest data)
          (fun msg => ret ("Error: " ++ msg))
    end
  else ret "Search tool not available.".

(** The client and the chain are built before the [try]; the call of
    the chain is inside it. *)
Definition query_graph_database (question : string) : M string :=
  lift (chain_from_llm e) ;;;
  try_except
    (fun w => (chain_invoke e question (db w), w))
    (fun _ => ret "No info in graph.").

End WithEnv.

End Tools.

(* ================================================================== *)
(** * Vocabulary of the statements about text *)
(* ================================================================== *)

(** The records of a stream, one after the other. *)
Definition records_text (records : list string) : string :=
  fold_right append EmptyString records.

(** [mentions c p]: the character [c] occurs in [p]. *)
Fixpoint mentions (c : ascii) (p : string) : bool :=
  match p with
  | EmptyString => false
  | String x p' => Ascii.eqb c x || mentions c p'
  end.

(** [avoids p w]: no character of [w] occurs in [p]. *)
Fixpoint avoids (p w : string) : bool :=
  match w with
  | EmptyString => true
  | String c w' => negb (mentions c p) && avoids p w'
  end.

(** [within w u]: every character of [w] occurs in [u]. *)
Fixpoint within (w u : string) : bool :=
  match w with
  | EmptyString => true
  | String c w' => mentions c u && within w' u
  end.

(** [all_chars f w]: [f] holds of every character of [w]. *)
Fixpoint all_chars (f : ascii -> bool) (w : string) : bool :=
  match w with
  | EmptyString => true
  | String c w' => f c && all_chars f w'
  end.

(** Index of the first occurrence of [p] in [t], as [t.find(p)] computes it. *)
Fixpoint find (p t : string) : option nat :=
  if PyStr.starts_with p t then Some 0
  else match t with
       | EmptyString => None
       | String _ t' => option_map S (find p t')
       end.

(** Characters that [json.dumps] writes for an escape sequence. *)
Definition escape_alphabet : string := "\nrtbfu0123456789abcdef" ++ Json.dq.

(** Characters that [json.dumps] writes around and between values. *)
Definition layout_alphabet : string := "{}, -0123456789" ++ Json.dq.

(** A character is written as itself inside a JSON string. *)
Definition verbatim (c : ascii) : bool :=
  PyStr.between 32 126 c && negb (mentions c ("\" ++ Json.dq)).

Section ValueInduction.
Import Json.
Variable P : value -> Prop.
Hypothesis HStr : forall s, P (Str s).
Hypothesis HInt : forall z, P (Int z).
Hypothesis HObj :
  forall fields, Forall (fun kv => P (snd kv)) fields -> P (Obj fields).

Fixpoint value_nested_ind (v : value) : P v :=
  match v with
  | Str s => HStr s
  | Int z => HInt z
  | Obj fields =>
      HObj fields
        ((fix go (l : list (string * value))
            : Forall (fun kv => P (snd kv)) l :=
            match l with
            | [] => Forall_nil _
            | kv :: l' => Forall_cons kv (value_nested_ind (snd kv)) (go l')
            end) fields)
  end.
End ValueInduction.

(** A character that stands for itself inside a single-quoted literal. *)
Definition plain_char (c : ascii) : bool :=
  negb (Ascii.eqb c Cypher.squote || Ascii.eqb c Cypher.backslash).

(** A value free of quotes and backslashes. *)
Definition plain (s : string) : bool := all_chars plain_char s.

(** A piece of statement text that opens no literal. *)
Definition quote_free (s : string) : bool :=
  all_chars (fun c => negb (Cypher.is_quote c)) s.

(** The tokens of a template filled with values, as intended. *)
Fixpoint interleave (pieces values : list string) : list Cypher.token :=
  match pieces, values with
  | [], _ => []
  | p :: ps, v :: vs =>
      (map Cypher.Ch (list_ascii_of_string p)
         ++ Cypher.Lit v :: interleave ps vs)%list
  | p :: _, [] => map Cypher.Ch (list_ascii_of_string p)
  end.

(** [reads e v]: between single quotes, the text [e] is read as the
    literal [v]. *)
Definition reads (e v : string) : Prop :=
  forall lit rest,
    Cypher.lex_from (Cypher.InLit Cypher.squote) lit
                    (e ++ String Cypher.squote rest)
    = option_map (cons (Cypher.Lit (lit ++ v)))
                 (Cypher.lex_from Cypher.Code EmptyString rest).

(** [extends g g']: [g'] has the nodes of [g] and at least its edges. *)
Definition extends (g g' : Graph.graph) : Prop :=
  Graph.nodes g' = Graph.nodes g /\
  Graph.next_key g' = Graph.next_key g /\
  forall e, Graph.has_edge e g = true -> Graph.has_edge e g' = true.

(** The edge from [a] to [b] of the given type. *)
Definition edge_between (a : Graph.node) (type : string) (b : Graph.node)
  : Graph.edge :=
  Graph.mk_edge (Graph.node_key a) type (Graph.node_key b).

(** The graph after the two loops of [create_competition]. *)
Definition competition_row (companies : list string) (g : Graph.graph)
  (i : nat) : Graph.graph :=
  fold_left (fun g' j =>
               Graph.compete (Seed.item companies i) (Seed.item companies j) g')
            (Seed.range (i + 1) (List.length companies)) g.

(* ================================================================== *)
(** * Vocabulary of the statements about ingestion *)
(* ================================================================== *)

Definition list_keys : list string :=
  [ "companies"; "people"; "sectors"; "locations" ].


(** The node upserts of an extraction result, list by list. *)
Definition node_plan (data : Tools.extraction) : list Tools.stmt :=
  flat_map (fun key =>
              map (Tools.MergeNode (Tools.label_of key)) (Tools.get key data))
           list_keys.

(** The statements of one relationship triple. *)
Definition rel_stmts (rel : Tools.relationship) : list Tools.stmt :=
  ((if String.eqb (PyStr.upper (Tools.type rel)) "INVESTED_IN"
    then [Tools.SetInvestor (Tools.source rel)] else [])
   ++ [Tools.MergeRel (PyStr.upper (Tools.type rel))
         (Tools.source rel) (Tools.target rel)])%list.

Definition rel_plan (data : Tools.extraction) : list Tools.stmt :=
  flat_map rel_stmts (Tools.relationships data).

Definition plan (data : Tools.extraction) : list Tools.stmt :=
  (node_plan data ++ rel_plan data)%list.

(** The effect of a sequence of statements on the store. *)
Definition replay (l : list Tools.stmt) (g : Graph.graph) : Graph.graph :=
  fold_left (fun g' st => Tools.apply st g') l g.

(** [grown n n']: [n'] is the node [n], with at least its labels. *)
Definition grown (n n' : Graph.node) : Prop :=
  Graph.node_key n' = Graph.node_key n /\
  Graph.props n' = Graph.props n /\
  incl (Graph.labels n) (Graph.labels n').

(** [persists g g']: the nodes of [g'] are those of [g], grown, followed by
    new ones. *)
Definition persists (g g' : Graph.graph) : Prop :=
  exists old new,
    Graph.nodes g' = (old ++ new)%list /\ Forall2 grown (Graph.nodes g) old.

(** [relabelled g g']: the nodes of [g'] are those of [g], grown. *)
Definition relabelled (g g' : Graph.graph) : Prop :=
  Forall2 grown (Graph.nodes g) (Graph.nodes g').




(** An environment in which nothing fails and nothing is found. *)
Definition quiet : Tools.env :=
  {| Tools.SEARCH_AVAILABLE := true;
     Tools.search_invoke := fun _ => Ok EmptyString;
     Tools.llm_invoke := fun _ => Ok "{}";
     Tools.json_loads := fun _ => Ok (Tools.Build_extraction [] [] [] [] []);
     Tools.chain_from_llm := Ok tt;
     Tools.chain_invoke := fun _ _ => Ok EmptyString;
     Tools.store_fault := fun _ => None |}.

Definition fresh_world : Tools.world :=
  {| Tools.db := Graph.empty; Tools.applied := [] |}.

(** In a sequence of statements, the merge of an INVESTED_IN edge comes
    right after the promotion of its source. *)
Definition promoted_first (l : list Tools.stmt) : Prop :=
  forall pre s t post,
    l = (pre ++ Tools.MergeRel "INVESTED_IN" s t :: post)%list ->
    exists pre', pre = (pre' ++ [Tools.SetInvestor s])%list.

(** An environment whose search tool raises with the given message. *)
Definition search_down (msg : string) : Tools.env :=
  {| Tools.SEARCH_AVAILABLE := true;
     Tools.search_invoke := fun _ => Raise msg;
     Tools.llm_invoke := Tools.llm_invoke quiet;
     Tools.json_loads := Tools.json_loads quiet;
     Tools.chain_from_llm := Ok tt;
     Tools.chain_invoke := Tools.chain_invoke quiet;
     Tools.store_fault := Tools.store_fault quiet |}.

(** An environment whose language model raises with the given message. *)
Definition model_down (msg : string) : Tools.env :=
  {| Tools.SEARCH_AVAILABLE := true;
     Tools.search_invoke := Tools.search_invoke quiet;
     Tools.llm_invoke := fun _ => Raise msg;
     Tools.json_loads := Tools.json_loads quiet;
     Tools.chain_from_llm := Ok tt;
     Tools.chain_invoke := Tools.chain_invoke quiet;
     Tools.store_fault := Tools.store_fault quiet |}.

(** An environment whose chain raises with the given message when it
    is called, and one in which the client of the chain cannot be built. *)
Definition chain_down (msg : string) : Tools.env :=
  {| Tools.SEARCH_AVAILABLE := true;
     Tools.search_invoke := Tools.search_invoke quiet;
     Tools.llm_invoke := Tools.llm_invoke quiet;
     Tools.json_loads := Tools.json_loads quiet;
     Tools.chain_from_llm := Ok tt;
     Tools.chain_invoke := fun _ _ => Raise msg;
     Tools.store_fault := Tools.store_fault quiet |}.

Definition chain_unbuilt (msg : string) : Tools.env :=
  {| Tools.SEARCH_AVAILABLE := true;
     Tools.search_invoke := Tools.search_invoke quiet;
     Tools.llm_invoke := Tools.llm_invoke quiet;
     Tools.json_loads := Tools.json_loads quiet;
     Tools.chain_from_llm := Raise msg;
     Tools.chain_invoke := Tools.chain_invoke quiet;
     Tools.store_fault := Tools.store_fault quiet |}.

(** A store in which A is an Organization and B is a Person. *)
Definition organization_and_person : Graph.graph :=
  Graph.merge_node "Person" "B"
    (Graph.merge_node "Organization" "A" Graph.empty).

(** A store with an organization, its founder and the edge between
    them; and an environment whose model finds that organization, an
    investor and the founder, with three relationships, the last one from
    a fund that is in none of the lists. *)
Definition acme_world : Tools.world :=
  {| Tools.db :=
       Graph.merge_rel "FOUNDED_BY" "Acme Corp" "Jane Doe"
         (Graph.merge_node "Person" "Jane Doe"
            (Graph.merge_node "Organization" "Acme Corp" Graph.empty));
     Tools.applied := [] |}.

Definition acme_found : Tools.env :=
  {| Tools.SEARCH_AVAILABLE := true;
     Tools.search_invoke := Tools.search_invoke quiet;
     Tools.llm_invoke := Tools.llm_invoke quiet;
     Tools.json_loads := fun _ =>
       Ok (Tools.Build_extraction ["Acme Corp"; "Acorn Ventures"] ["Jane Doe"]
             [] []
             [ Tools.Build_relationship "Jane Doe" "Acme Corp" "leads";
               Tools.Build_relationship "Acorn Ventures" "Acme Corp"
                 "INVESTED_IN";
               Tools.Build_relationship "Ghost Fund" "Acme Corp"
                 "INVESTED_IN" ]);
     Tools.chain_from_llm := Ok tt;
     Tools.chain_invoke := Tools.chain_invoke quiet;
     Tools.store_fault := Tools.store_fault quiet |}.

(** A value without backslash. *)
Definition backslash_free (s : string) : bool :=
  all_chars (fun c => negb (Ascii.eqb c Cypher.backslash)) s.


(* ================================================================== *)
(** * Vocabulary of the statements about queries and answers *)
(* ================================================================== *)

(** A text of ASCII characters: on such a text the case mapping, the
    title-casing and the trimming of this file are those of Python. *)
Definition ascii_text (s : string) : bool :=
  all_chars (PyStr.between 0 127) s.

(** A text made of blanks only (the empty text included). *)
Definition blank (s : string) : bool := all_chars PyStr.is_space s.

(** A phrase whose first character, lower-cased, is not a blank. *)
Definition head_not_blank (p : string) : bool :=
  match PyStr.lower p with
  | EmptyString => false
  | String a _ => negb (PyStr.is_space a)
  end.

(** A text without backtick. *)
Definition tick_free (s : string) : bool :=
  all_chars (fun c => negb (Ascii.eqb c "`")) s.

(** A character of the printable ASCII range. *)
Definition printable (c : ascii) : bool := PyStr.between 32 126 c.

(** Number of occurrences of a character. *)
Fixpoint count_char (c : ascii) (s : string) : nat :=
  match s with
  | EmptyString => 0
  | String x s' => (if Ascii.eqb x c then 1 else 0) + count_char c s'
  end.

(** Every edge joins two nodes of the graph. *)
Definition edges_closed (g : Graph.graph) : Prop :=
  forall e, In e (Graph.edges g) ->
    (exists a, In a (Graph.nodes g) /\ Graph.node_key a = Graph.edge_source e) /\
    (exists b, In b (Graph.nodes g) /\ Graph.node_key b = Graph.edge_target e).


(** The node carries the label and the id of a mention of the lists. *)
Definition mentioned (data : Tools.extraction) (n : Graph.node) : Prop :=
  exists key item,
    In key list_keys /\ In item (Tools.get key data) /\
    Graph.matches (Tools.label_of key) item n = true.

(** The store never fails. *)
Definition store_up (e : Tools.env) : Prop :=
  forall n, Tools.store_fault e n = None.

(** Every relationship type, upper-cased, is a name. *)
Definition types_named (data : Tools.extraction) : Prop :=
  forall rel, In rel (Tools.relationships data) ->
    Cypher.is_symbolic_name (PyStr.upper (Tools.type rel)) = true.

(** The store answers the first [k] statements sent after those already
    applied, and fails on the next one with the given message. *)
Definition store_fails_after (e : Tools.env) (w : Tools.world) (k : nat)
  (msg : string) : Prop :=
  (forall i, i < k ->
     Tools.store_fault e (List.length (Tools.applied w) + i) = None) /\
  Tools.store_fault e (List.length (Tools.applied w) + k) = Some msg.

(** An environment whose store fails once [k] statements are applied. *)
Definition store_down_after (k : nat) (msg : string) : Tools.env :=
  {| Tools.SEARCH_AVAILABLE := true;
     Tools.search_invoke := Tools.search_invoke quiet;
     Tools.llm_invoke := Tools.llm_invoke quiet;
     Tools.json_loads := fun _ =>
       Ok (Tools.Build_extraction ["Acme Corp"; "Acorn Ventures"] ["Jane Doe"]
             [] [] []);
     Tools.chain_from_llm := Ok tt;
     Tools.chain_invoke := Tools.chain_invoke quiet;
     Tools.store_fault := fun n => if Nat.eqb n k then Some msg else None |}.

(* ================================================================== *)
(** * seed.py: the effect of [seed_company] *)
(* ================================================================== *)

Module SeedRun.
Import Graph.

(** [SET c.k = v, ...] on the nodes bound to [c] by
    [MERGE (c:label {id: name})]. *)
Definition assign_all (kvs : list (string * string))
  (m : list (string * string)) : list (string * string) :=
  fold_left (fun m' kv => assign (fst kv) (snd kv) m') kvs m.

Definition set_props (label name : string) (kvs : list (string * string))
  (g : graph) : graph :=
  mk_graph
    (map (fun n => if matches label name n
                   then mk_node (node_key n) (labels n)
                          (assign_all kvs (props n))
                   else n)
         (nodes g))
    (edges g)
    (next_key g).

(** The first statement of [seed_company]. *)
Definition upsert_company (name val sec desc stat : string) (g : graph)
  : graph :=
  set_props "Organization" name
    [ ("valuation", val); ("sector", sec);
      ("description", desc); ("status", stat) ]
    (merge_node "Organization" name g).

(** [MERGE (x:la {id: a}) MERGE (y:lb {id: b}) MERGE (x)-[:type]->(y)]:
    the rows of the first merge, then for each of them the rows of the
    second, then the edge of each row. *)
Definition attach (la a lb b type : string) (g : graph) : graph :=
  let g1 := merge_node la a g in
  let g2 := merge_node lb b g1 in
  fold_left (fun g' xy => link type xy g')
            (list_prod (filter (matches la a) (nodes g1))
                       (filter (matches lb b) (nodes g2)))
            g2.

(** [graph.query] on the texts of [seed_company]. *)
Definition query_company (text : string) (g : graph) : outcome graph :=
  match Cypher.read_as Seed.company_pieces text with
  | Some [name; val; sec; desc; stat] =>
      Ok (upsert_company name val sec desc stat g)
  | _ => Raise "Invalid input"
  end.

Definition query_founder (text : string) (g : graph) : outcome graph :=
  match Cypher.read_as Seed.founder_pieces text with
  | Some [founder; name] =>
      Ok (attach "Person" founder "Organization" name "LEADS" g)
  | _ => Raise "Invalid input"
  end.

Definition query_investor (text : string) (g : graph) : outcome graph :=
  match Cypher.read_as Seed.investor_pieces text with
  | Some [investor; name] =>
      Ok (attach "Organization" investor "Organization" name "INVESTED_IN" g)
  | _ => Raise "Invalid input"
  end.

Definition seed_company (name : string) (data : Seed.company_data)
  (g : graph) : outcome graph :=
  match query_company (Seed.company_text name data) g with
  | Raise msg => Raise msg
  | Ok g1 =>
      match Seed.for_each (Seed.founders data)
              (fun founder => query_founder (Seed.founder_text name founder))
              g1 with
      | Raise msg => Raise msg
      | Ok g2 =>
          Seed.for_each (Seed.investors data)
            (fun investor =>
               query_investor (Seed.investor_text name investor))
            g2
      end
  end.

End SeedRun.

(** The values of a company are safe to write between quotes as
    [seed_company] does: a name without quote or backslash, other values
    without backslash. *)
Definition seed_safe (name : string) (data : Seed.company_data) : Prop :=
  plain name = true /\
  backslash_free (Seed.valuation data) = true /\
  backslash_free (Seed.sector data) = true /\
  backslash_free (Seed.status data) = true /\
  backslash_free (Seed.description data) = true /\
  Forall (fun f => backslash_free f = true) (Seed.founders data) /\
  Forall (fun i => backslash_free i = true) (Seed.investors data).

(** The entry of OpenAI in the dataset of seed.py. *)
Definition openai_data : Seed.company_data :=
  {| Seed.valuation := "$157 Billion";
     Seed.sector := "Artificial Intelligence";
     Seed.status := "Private";
     Seed.description := "Creator of ChatGPT and GPT-4.";
     Seed.founders := ["Sam Altman"; "Greg Brockman"; "Ilya Sutskever"];
     Seed.investors :=
       ["Microsoft"; "Thrive Capital"; "Khosla Ventures"; "Fidelity"] |}.

(** The four properties that [seed_company] sets are those of the data. *)
Definition props_of (data : Seed.company_data) (n : Graph.node) : Prop :=
  Graph.lookup "valuation" (Graph.props n) = Some (Seed.valuation data) /\
  Graph.lookup "sector" (Graph.props n) = Some (Seed.sector data) /\
  Graph.lookup "description" (Graph.props n) = Some (Seed.description data) /\
  Graph.lookup "status" (Graph.props n) = Some (Seed.status data).

(** Some node matches each of two patterns, and every node that matches
    the first has an edge of the given type to every node that matches
    the second. *)
Definition all_linked (la a lb b type : string) (g : Graph.graph) : Prop :=
  (exists p, In p (Graph.nodes g) /\ Graph.matches la a p = true) /\
  (exists c, In c (Graph.nodes g) /\ Graph.matches lb b c = true) /\
  forall p c,
    In p (Graph.nodes g) -> In c (Graph.nodes g) ->
    Graph.matches la a p = true -> Graph.matches lb b c = true ->
    Graph.has_edge (edge_between p type c) g = true.

(** Some node matches the pattern and every node that does has the
    properties of the data. *)
Definition company_set (name : string) (data : Seed.company_data)
  (g : Graph.graph) : Prop :=
  (exists c, In c (Graph.nodes g) /\ Graph.matches "Organization" name c = true) /\
  forall c, In c (Graph.nodes g) ->
    Graph.matches "Organization" name c = true -> props_of data c.

(** The graph after the three loops of [seed_company]. *)
Definition seeded (name : string) (data : Seed.company_data)
  (g : Graph.graph) : Graph.graph :=
  fold_left (fun g' investor =>
               SeedRun.attach "Organization" investor "Organization" name
                 "INVESTED_IN" g')
    (Seed.investors data)
    (fold_left (fun g' founder =>
                  SeedRun.attach "Person" founder "Organization" name
                    "LEADS" g')
       (Seed.founders data)
       (SeedRun.upsert_company name (Seed.valuation data) (Seed.sector data)
          (Seed.description data) (Seed.status data) g)).

(* ================================================================== *)
(** * Python values: rows of a query result, dicts in insertion order *)
(* ================================================================== *)

(** The rest of a block runs when what precedes did not raise. *)
Definition and_then {A B : Type} (o : outcome A) (k : A -> outcome B)
  : outcome B :=
  match o with
  | Ok a => k a
  | Raise msg => Raise msg
  end.

(** A [for] loop over [l] that updates its variables [s]; an exception
    leaves it. *)
Fixpoint loop {A S : Type} (l : list A) (body : S -> A -> outcome S) (s : S)
  : outcome S :=
  match l with
  | [] => Ok s
  | x :: rest => and_then (body s x) (loop rest body)
  end.

Module PyVal.

(** A value read from the store or passed by a caller: a string, or
    [None]. *)
Definition value : Type := option string.

(** [a == b] *)
Definition eqb (a b : value) : bool :=
  match a, b with
  | Some x, Some y => String.eqb x y
  | None, None => true
  | _, _ => false
  end.

(** [v == "lit"] *)
Definition equals (lit : string) (v : value) : bool := eqb v (Some lit).

(** [f"{v}"] *)
Definition str (v : value) : string :=
  match v with
  | Some s => s
  | None => "None"
  end.

(** The truth value of [v]: [None] and the empty string are false. *)
Definition truthy (v : value) : bool :=
  match v with
  | Some (String _ _) => true
  | _ => false
  end.

(** [a or b] *)
Definition or_else (a b : value) : value := if truthy a then a else b.

(** A row of a result: the value of each column. *)
Definition record : Type := list (string * value).

(** [row[key]]; a missing key raises [KeyError]. *)
Definition item (key : string) (row : record) : outcome value :=
  match List.find (fun kv => String.eqb (fst kv) key) row with
  | Some kv => Ok (snd kv)
  | None =>
      Raise (String Cypher.squote (key ++ String Cypher.squote EmptyString))
  end.

End PyVal.

Module PyDict.

(** A dict as the list of its items, in the order in which the keys were
    first inserted. *)
Definition dict (K V : Type) : Type := list (K * V).

Section Dict.
Context {K V : Type} (eqb : K -> K -> bool).

(** [k in d] *)
Fixpoint contains (k : K) (d : dict K V) : bool :=
  match d with
  | [] => false
  | (k', _) :: d' => eqb k k' || contains k d'
  end.

(** [d.get(k)] *)
Fixpoint get (k : K) (d : dict K V) : option V :=
  match d with
  | [] => None
  | (k', v) :: d' => if eqb k k' then Some v else get k d'
  end.

(** [d[k] = v]: the value of a key of the dict is replaced where the key
    stands, a new key goes last. *)
Fixpoint set (k : K) (v : V) (d : dict K V) : dict K V :=
  match d with
  | [] => [(k, v)]
  | (k', v') :: d' =>
      if eqb k k' then (k', v) :: d' else (k', v') :: set k v d'
  end.

End Dict.

(** [list(d.keys())] and [list(d.values())] *)
Definition keys {K V : Type} (d : dict K V) : list K := map fst d.
Definition values {K V : Type} (d : dict K V) : list V := map snd d.

End PyDict.

(* ================================================================== *)
(** * api.py: the answer of the /graph endpoint *)
(* ================================================================== *)

Module GraphView.
Import PyVal.

(** The dicts of the answer, a field for each key. *)
Record node : Type := {
  id : value;
  label : value;
  color : string;
  size : nat;
  group : value
}.

Record edge : Type := {
  source : value;
  target : value;
  edge_color : string
}.

Record response : Type := {
  nodes : list node;
  edges : list edge;
  focus_entity : string
}.

(** What is outside the repository: the connection to the store
    ([Neo4jGraph(...)]) and the rows it answers to the text of a
    statement ([graph.query]). *)
Record env : Type := {
  connect : outcome unit;
  query : string -> outcome (list record)
}.

Definition empty (focus : string) : response :=
  {| nodes := []; edges := []; focus_entity := focus |}.

Definition center_text (safe_entity : string) : string :=
  Cypher.fill GraphEndpoint.center_pieces [safe_entity].

Definition data_pieces : list string :=
  [ Whiteboard.nl ++ "            MATCH (n {id: ";
    "})-[r]-(m)" ++ Whiteboard.nl
    ++ "            RETURN n.id as source, type(r) as type, m.id as target, labels(m)[0] as target_label LIMIT 20"
    ++ Whiteboard.nl ++ "            " ].

Definition data_text (real_id : value) : string :=
  Cypher.fill data_pieces [str real_id].

Definition center_node (real_id : value) : node :=
  {| id := real_id; label := real_id; color := "#FF4B4B"; size := 40;
     group := Some "Center" |}.

Definition row_color (t_label rel_type : value) : string :=
  if equals "Investor" t_label || equals "INVESTED_IN" rel_type
  then "#00CC96"
  else if equals "COMPETES_WITH" rel_type then "#FFA15A"
  else if equals "Person" t_label then "#636EFA"
  else "#AB63FA".

(** The body of [for row in data]. *)
Definition add_row (st : PyDict.dict value node * list edge) (row : record)
  : outcome (PyDict.dict value node * list edge) :=
  and_then (item "target" row) (fun target =>
  and_then (item "target_label" row) (fun t_label =>
  and_then (item "type" row) (fun rel_type =>
  let color := row_color t_label rel_type in
  let nodes :=
    PyDict.set eqb target
      {| id := target; label := target; color := color; size := 20;
         group := t_label |}
      (fst st) in
  and_then (item "source" row) (fun source =>
  Ok (nodes,
      (snd st ++ [ {| source := source; target := target;
                      edge_color := "#555" |} ])%list))))).

(** Lines 380 to 394: the dict of the nodes and the list of the edges. *)
Definition build (real_id : value) (data : list record)
  : outcome (PyDict.dict value node * list edge) :=
  loop data add_row ([(real_id, center_node real_id)], []).

Definition get_graph (e : env) (query_ : string) : response :=
  let focus_entity := Api.extract_entity_from_query query_ in
  match connect e with
  | Raise _ => empty focus_entity
  | Ok _ =>
      match focus_entity with
      | EmptyString => empty EmptyString
      | _ =>
          let safe_entity :=
            PyStr.replace "'" "\'" focus_entity in
          let answer :=
            and_then (query e (center_text safe_entity)) (fun center_res =>
            match center_res with
            | [] => Ok (empty focus_entity)
            | first :: _ =>
                and_then (item "id" first) (fun real_id =>
                and_then (query e (data_text real_id)) (fun data =>
                and_then (build real_id data) (fun st =>
                Ok {| nodes := PyDict.values (fst st);
                      edges := snd st;
                      focus_entity := focus_entity |})))
            end) in
          match answer with
          | Ok r => r
          | Raise _ => empty EmptyString
          end
      end
  end.

End GraphView.

(** Some node of the list carries the marking of the centre. *)
Definition marked (ns : list GraphView.node) : bool :=
  existsb (fun n => Nat.eqb (GraphView.size n) 40) ns.

(** Some row leads to a node that has the id of the centre. *)
Definition leads_back (real_id : PyVal.value) (data : list PyVal.record)
  : bool :=
  existsb (fun row => match PyVal.item "target" row with
                      | Ok t => PyVal.eqb t real_id
                      | Raise _ => false
                      end) data.

(** Two rows around Google; the second leads back to its id. *)
Definition google_rows : list PyVal.record :=
  [ [ ("source", Some "Google"); ("type", Some "INVESTED_IN");
      ("target", Some "Anthropic"); ("target_label", Some "Organization") ];
    [ ("source", Some "Google"); ("type", Some "COMPETES_WITH");
      ("target", Some "Google"); ("target_label", Some "Person") ] ].

(** What the loop of [get_graph] keeps: the keys of the dict are the ids
    of its nodes, no key stands twice, the centre has a node, and every
    edge leads to a key. *)
Definition view_ok (real_id : PyVal.value)
  (st : PyDict.dict PyVal.value GraphView.node * list GraphView.edge)
  : Prop :=
  Forall (fun kv => GraphView.id (snd kv) = fst kv) (fst st) /\
  NoDup (PyDict.keys (fst st)) /\
  In real_id (PyDict.keys (fst st)) /\
  forall ed, In ed (snd st) ->
    In (GraphView.target ed) (PyDict.keys (fst st)).

(** The state of the loop after some rows: only the node of the centre
    can carry the marking, and it does when none of the rows read so far
    ([seen]) led back to the id of the centre. *)
Definition centre_state (real_id : PyVal.value) (seen : bool)
  (st : PyDict.dict PyVal.value GraphView.node * list GraphView.edge)
  : Prop :=
  NoDup (PyDict.keys (fst st)) /\
  (forall kv, In kv (fst st) -> GraphView.size (snd kv) = 40 ->
     fst kv = real_id /\ seen = false) /\
  (seen = false ->
   exists n, PyDict.get PyVal.eqb real_id (fst st) = Some n /\
             GraphView.size n = 40).

(* ================================================================== *)
(** * app.py: [get_graph_data] *)
(* ================================================================== *)

Module AppGraph.
Import PyVal.

(** [Node(id, label, size, color, font)] and
    [Edge(source, target, color, strokeWidth)] of streamlit_agraph, a
    field for each argument. *)
Record Font : Type := {
  font_color : string;
  font_size : nat
}.

Record Node : Type := {
  id : value;
  label : value;
  size : nat;
  color : string;
  font : Font
}.

Record Edge : Type := {
  source : value;
  target : value;
  edge_color : string;
  strokeWidth : nat
}.

(** What is outside the repository: the connection to the store and the
    rows it answers to the text of a statement. *)
Record env : Type := {
  connect : outcome unit;
  query : string -> outcome (list record)
}.

Definition nl : string := Whiteboard.nl.

Definition center_text (safe_entity : string) : string :=
  Cypher.fill
    [ nl ++ "            MATCH (n)" ++ nl
      ++ "            WHERE toLower(n.id) = toLower(";
      ")" ++ nl
      ++ "            RETURN n.id AS id, labels(n)[0] AS label" ++ nl
      ++ "            LIMIT 1" ++ nl ++ "        " ]
    [safe_entity].

Definition investors_text (real_id : value) : string :=
  Cypher.fill
    [ nl ++ "            MATCH (o:Organization)-[:INVESTED_IN]->(c {id: ";
      "})" ++ nl
      ++ "            RETURN o.id AS source, c.id AS target, 'Investor' AS label"
      ++ nl ++ "            LIMIT 10" ++ nl ++ "        " ]
    [str real_id].

Definition team_text (real_id : value) : string :=
  Cypher.fill
    [ nl ++ "            MATCH (p:Person)-[:LEADS|FOUNDED_BY]->(c {id: ";
      "})" ++ nl
      ++ "            RETURN p.id AS source, c.id AS target, 'Person' AS label"
      ++ nl ++ "            LIMIT 5" ++ nl ++ "        " ]
    [str real_id].

Definition all_text : string :=
  nl ++ "            MATCH (n)-[r]->(m)" ++ nl
  ++ "            RETURN n.id AS source, m.id AS target, labels(n)[0] AS label"
  ++ nl ++ "            LIMIT 20" ++ nl ++ "        ".

Definition add_node (nodes : PyDict.dict value Node) (node_id label_ : value)
  (center : bool) : PyDict.dict value Node :=
  if PyDict.contains eqb node_id nodes then nodes
  else
    let color_size :=
      if center then ("#FF4B4B", 40)
      else if equals "Investor" label_ then ("#00CC96", 25)
      else if equals "Person" label_ then ("#636EFA", 20)
      else ("#AB63FA", 15) in
    PyDict.set eqb node_id
      {| id := node_id; label := node_id;
         size := snd color_size; color := fst color_size;
         font := {| font_color := "white"; font_size := 14 |} |}
      nodes.

(** The body of [for r in rows]. *)
Definition add_row (center_data : value)
  (st : PyDict.dict value Node * list Edge) (r : record)
  : outcome (PyDict.dict value Node * list Edge) :=
  and_then (item "source" r) (fun source_ =>
  and_then (item "label" r) (fun label_ =>
  let nodes1 := add_node (fst st) source_ label_ false in
  and_then (item "target" r) (fun target_ =>
  let nodes2 :=
    add_node nodes1 target_
      (if eqb target_ center_data then Some "Center"
       else Some "Organization")
      false in
  Ok (nodes2,
      (snd st ++ [ {| source := source_; target := target_;
                      edge_color := "#555"; strokeWidth := 2 |} ])%list)))).

(** Lines 135 to 173: the dict of the nodes and the list of the edges. *)
Definition build (center_data : value) (rows : list record)
  : outcome (PyDict.dict value Node * list Edge) :=
  let nodes :=
    if truthy center_data
    then add_node [] center_data (Some "Center") true
    else [] in
  loop rows (add_row center_data) (nodes, []).

(** Lines 98 to 133: the rows and the centre, or [None] where the
    function returns two empty lists. *)
Definition fetch (e : env) (focus_entity : value)
  : outcome (option (list record * value)) :=
  if truthy focus_entity
     && truthy (Some (PyStr.strip (str focus_entity)))
  then
    let safe_entity :=
      PyStr.replace "'" "\'" (PyStr.strip (str focus_entity)) in
    and_then (query e (center_text safe_entity)) (fun center =>
    match center with
    | [] => Ok None
    | first :: _ =>
        and_then (item "id" first) (fun real_id =>
        and_then (query e (investors_text real_id)) (fun investors =>
        and_then (query e (team_text real_id)) (fun team =>
        Ok (Some ((investors ++ team)%list, real_id)))))
    end)
  else
    and_then (query e all_text) (fun rows => Ok (Some (rows, None))).

Definition get_graph_data (e : env) (focus_entity : value)
  : outcome (list Node * list Edge) :=
  match connect e with
  | Raise _ => Ok ([], [])
  | Ok _ =>
      and_then (fetch e focus_entity) (fun found =>
      match found with
      | None => Ok ([], [])
      | Some (rows, center_data) =>
          and_then (build center_data rows) (fun st =>
          Ok (PyDict.values (fst st), snd st))
      end)
  end.

End AppGraph.

(** What the loop of [get_graph_data] keeps: the keys of the dict are the
    ids of its nodes, no key stands twice, and both ends of every edge
    are keys. *)
Definition app_view_ok
  (st : PyDict.dict PyVal.value AppGraph.Node * list AppGraph.Edge) : Prop :=
  Forall (fun kv => AppGraph.id (snd kv) = fst kv) (fst st) /\
  NoDup (PyDict.keys (fst st)) /\
  forall ed, In ed (snd st) ->
    In (AppGraph.source ed) (PyDict.keys (fst st)) /\
    In (AppGraph.target ed) (PyDict.keys (fst st)).

(** The node that [add_node] draws for the centre. *)
Definition app_center_node (center_data : PyVal.value) : AppGraph.Node :=
  {| AppGraph.id := center_data; AppGraph.label := center_data;
     AppGraph.size := 40; AppGraph.color := "#FF4B4B";
     AppGraph.font := {| AppGraph.font_color := "white";
                         AppGraph.font_size := 14 |} |}.

(** The node is not drawn as a centre. *)
Definition plain_node (n : AppGraph.Node) : Prop :=
  AppGraph.size n < 40 /\ AppGraph.color n <> "#FF4B4B".

(** The nodes of the picture: the centre first and no other drawn like
    it, when there is a centre; none drawn like a centre otherwise. *)
Definition centre_first (center_data : PyVal.value)
  (ns : list AppGraph.Node) : Prop :=
  if PyVal.truthy center_data
  then exists rest, ns = app_center_node center_data :: rest /\
                    Forall plain_node rest
  else Forall plain_node ns.

(** A store that holds Microsoft and Thrive Capital as investors of
    OpenAI, and Sam Altman as its leader. *)
Definition openai_store : AppGraph.env :=
  {| AppGraph.connect := Ok tt;
     AppGraph.query := fun text =>
       if String.eqb text (AppGraph.center_text "OpenAI")
       then Ok [ [ ("id", Some "OpenAI"); ("label", Some "Organization") ] ]
       else if String.eqb text (AppGraph.investors_text (Some "OpenAI"))
       then Ok [ [ ("source", Some "Microsoft"); ("target", Some "OpenAI");
                   ("label", Some "Investor") ];
                 [ ("source", Some "Thrive Capital");
                   ("target", Some "OpenAI"); ("label", Some "Investor") ] ]
       else if String.eqb text (AppGraph.team_text (Some "OpenAI"))
       then Ok [ [ ("source", Some "Sam Altman"); ("target", Some "OpenAI");
                   ("label", Some "Person") ] ]
       else Ok [] |}.

(** Two rows towards Google, as [get_graph_data] reads them; the second
    comes from a node that has the id of the centre. *)
Definition google_team : list PyVal.record :=
  [ [ ("source", Some "Sundar Pichai"); ("target", Some "Google");
      ("label", Some "Person") ];
    [ ("source", Some "Google"); ("target", Some "Google");
      ("label", Some "Investor") ] ].

(* ================================================================== *)
(** * api.py: the language models and the cache of the agents *)
(* ================================================================== *)

Module Agents.
Import PyVal.

(** The two chat clients, built with [temperature=0, streaming=True]. *)
Inductive client : Type :=
| ChatOpenAI
| ChatGroq.

Record llm : Type := {
  chat : client;
  model : string
}.

(** The agent that [create_react_agent] builds around a model bound to
    the tools; the prompt is the constant [SYSTEM_PROMPT]. *)
Record agent : Type := {
  agent_llm : llm;
  tools : list string
}.

(** What the functions return or raise. *)
Inductive raised (A : Type) : Type :=
| Returned (a : A)
| HTTPException (status_code : nat) (detail : string)
| KeyError (key : string).
Arguments Returned {A} a.
Arguments HTTPException {A} status_code detail.
Arguments KeyError {A} key.

(** The process environment and the outcome of the optional import. *)
Record environ : Type := {
  OPENAI_AVAILABLE : bool;
  getenv : string -> value
}.




Definition get_llm (e : environ) (provider model_ : value) : raised llm :=
  if equals "openai" provider then
    if negb (OPENAI_AVAILABLE e) then
      HTTPException 400
        "OpenAI not installed. Run: pip install langchain-openai"
    else if negb (truthy (getenv e "OPENAI_API_KEY")) then
      HTTPException 500 "OPENAI_API_KEY is not set"
    else
      let model_id := or_else model_ (Some "gpt-4o-mini") in
      Returned {| chat := ChatOpenAI; model := str model_id |}
  else
    if negb (truthy (getenv e "GROQ_API_KEY")) then
      HTTPException 500 "GROQ_API_KEY is not set"
    else
      let model_id :=
        or_else (or_else model_ (getenv e "GROQ_MODEL"))
                (Some "moonshotai/kimi-k2-instruct-0905") in
      Returned {| chat := ChatGroq; model := str model_id |}.


(** [_agent_cache] *)
Definition cache : Type := PyDict.dict string agent.



Definition clear_agent_cache (_agent_cache : cache) : cache := [].

End Agents.



(* ================================================================== *)
(** * api.py: [generate_stream] *)
(* ================================================================== *)

Module Stream.
Import PyVal.

(** The output of a tool, as [on_tool_end] carries it: a string, an
    object with a [content] (a tool message), or another object, given
    by its [str]. *)
Inductive raw_output : Type :=
| Text (s : string)
| Message (content : value)
| Object (repr : string).

(** An event of [astream_events], with what [generate_stream] reads of
    it: [event["event"]], [event.get("name")], and in [event["data"]]
    the content of the chunk if there is a chunk, the output (the empty
    string if there is none) and the input (empty if there is none).
    Characters outside ASCII stand by their UTF-8 bytes. *)
Record event : Type := {
  kind : string;
  name : value;
  chunk : option value;
  output : raw_output;
  input : record
}.

(** [tool_input.get(key, default)] *)
Definition get (key default : string) (tool_input : record) : value :=
  match List.find (fun kv => String.eqb (fst kv) key) tool_input with
  | Some kv => snd kv
  | None => Some default
  end.

Definition nl : string := Whiteboard.nl.

Definition clear_status : string := nl ++ "<<<STATUS::STATUS>>>" ++ nl.

Definition output_str (raw : raw_output) : string :=
  match raw with
  | Text s => s
  | Message content => if truthy content then str content else EmptyString
  | Object repr => repr
  end.

Definition status_msg (tool_name : string) (tool_input : record) : string :=
  if String.eqb tool_name "research_and_learn" then
    "üïµÔ∏è‚Äç‚ôÇÔ∏è Researching: "
    ++ str (get "topic" "topic" tool_input)
  else if String.eqb tool_name "create_chart_node" then
    "üìà Creating Chart: "
    ++ str (get "ticker" EmptyString tool_input)
  else if String.eqb tool_name "create_company_node" then
    "üè¢ Fetching Data: "
    ++ str (get "ticker" EmptyString tool_input)
  else if String.eqb tool_name "generate_knowledge_map" then
    "üß† Generating Map: "
    ++ str (get "topic" EmptyString tool_input)
  else "Using " ++ tool_name ++ "...".

(** What the body of the loop yields for one event. *)
Definition on_event (ev : event) : list string :=
  if String.eqb (kind ev) "on_chat_model_stream" then
    match chunk ev with
    | Some content => if truthy content then [str content] else []
    | None => []
    end
  else if String.eqb (kind ev) "on_tool_end" then
    let output_str := output_str (output ev) in
    ((if truthy (Some output_str)
         && PyStr.contains "<<<ACTION:" output_str
      then [output_str] else [])
     ++ [clear_status])%list
  else if String.eqb (kind ev) "on_tool_start" then
    let tool_name :=
      match name ev with
      | Some n => n
      | None => "unknown"
      end in
    [nl ++ "<<<STATUS:" ++ status_msg tool_name (input ev)
        ++ ":STATUS>>>" ++ nl]
  else [].

Definition research_instruction : string :=
  nl ++ nl ++ "[INSTRUCTION]: I am in RESEARCH MODE. Please gather comprehensive information first, then provide a single detailed summary. Do not create partial nodes.".

Definition augmented_query (query_ : string) (mode : value) : string :=
  if equals "research" mode then query_ ++ research_instruction
  else query_.

(** [executor]: what [get_agent_executor] gives, an agent whose
    [astream_events] on a query delivers some events and then ends or
    raises, or an exception.  The result is the list of the chunks that
    the generator yields. *)
Definition generate_stream
  (executor : outcome (string -> list event * option string))
  (query_ : string) (mode : value) : list string :=
  match executor with
  | Raise msg => ["Error: " ++ msg]
  | Ok astream_events =>
      let run := astream_events (augmented_query query_ mode) in
      (flat_map on_event (fst run)
       ++ match snd run with
          | Some msg => [("Error: " ++ msg)%string]
          | None => []
          end)%list
  end.

End Stream.

(** The text that a tool of [WHITEBOARD_TOOLS] returns: the result of
    [emit_action], or that of [analyze_portfolio]. *)
Definition whiteboard_text (text : string) : Prop :=
  (exists action_type data, text = Whiteboard.emit_action action_type data)
  \/ (exists tickers, text = Whiteboard.analyze_portfolio tickers).

(** A run in which the agent calls [create_text_node] and then fails. *)
Definition note_start : Stream.event :=
  {| Stream.kind := "on_tool_start";
     Stream.name := Some "create_text_node";
     Stream.chunk := None;
     Stream.output := Stream.Text EmptyString;
     Stream.input := [ ("title", Some "Note"); ("content", Some "Buy") ] |}.

Definition note_end : Stream.event :=
  {| Stream.kind := "on_tool_end";
     Stream.name := Some "create_text_node";
     Stream.chunk := None;
     Stream.output :=
       Stream.Message (Some (Whiteboard.create_text_node "Note" "Buy"));
     Stream.input := [] |}.

Definition note_run (augmented_query : string)
  : list Stream.event * option string :=
  ([note_start; note_end], Some "Connection lost").

(* ================================================================== *)
(** * api.py: the /models endpoint *)
(* ================================================================== *)

Module Models.
Import PyVal.

Record model_info : Type := {
  id : string;
  name : string;
  provider : string;
  description : string
}.

Definition GROQ_MODELS : list model_info :=
  [ {| id := "qwen/qwen3-32b";
       name := "Qwen 3 32B (Recommended)";
       provider := "groq";
       description := "Best reasoning & function calling" |};
    {| id := "meta-llama/llama-4-scout-17b-16e-instruct";
       name := "Llama 4 Scout";
       provider := "groq";
       description := "Meta's latest - fast, great for tool use" |};
    {| id := "moonshotai/kimi-k2-instruct-0905";
       name := "Kimi K2";
       provider := "groq";
       description :=
         "Moonshot 262K context - excellent function calling" |};
    {| id := "openai/gpt-oss-120b";
       name := "GPT OSS 120B";
       provider := "groq";
       description :=
         "OpenAI's flagship 120B - reasoning, tool use, browser search" |};
    {| id := "openai/gpt-oss-20b";
       name := "GPT OSS 20B";
       provider := "groq";
       description :=
         "Fast 20B model - reasoning, tool use, code execution" |};
    {| id := "meta-llama/llama-4-maverick-17b-128e-instruct";
       name := "Llama 4 Maverick";
       provider := "groq";
       description := "Meta's powerful 17B with 128 experts" |};
    {| id := "llama-3.3-70b-versatile";
       name := "Llama 3.3 70B";
       provider := "groq";
       description := "Production stable - versatile & reliable" |};
    {| id := "llama-3.1-8b-instant";
       name := "Llama 3.1 8B";
       provider := "groq";
       description := "Ultra fast - good for simple tasks" |} ].

Definition OPENAI_MODELS : list model_info :=
  [ {| id := "gpt-4o";
       name := "GPT-4o";
       provider := "openai";
       description := "Most capable OpenAI model" |};
    {| id := "gpt-4o-mini";
       name := "GPT-4o Mini";
       provider := "openai";
       description := "Fast and cost-effective" |};
    {| id := "gpt-3.5-turbo";
       name := "GPT-3.5 Turbo";
       provider := "openai";
       description := "Legacy fast model" |} ].

(** The dict [models], a field for each of its two keys, and the answer
    of the endpoint. *)
Record models_by_provider : Type := {
  groq : list model_info;
  openai : list model_info
}.

Record answer : Type := {
  models : models_by_provider;
  default_provider : value;
  default_model : string
}.

Definition list_models (e : Agents.environ) : answer :=
  {| models :=
       {| groq :=
            if truthy (Agents.getenv e "GROQ_API_KEY")
            then GROQ_MODELS else [];
          openai :=
            if Agents.OPENAI_AVAILABLE e
               && truthy (Agents.getenv e "OPENAI_API_KEY")
            then OPENAI_MODELS else [] |};
     default_provider :=
       if truthy (Agents.getenv e "GROQ_API_KEY") then Some "groq"
       else if truthy (Agents.getenv e "OPENAI_API_KEY") then Some "openai"
       else None;
     default_model :=
       str (or_else (Agents.getenv e "GROQ_MODEL")
                    (Some "moonshotai/kimi-k2-instruct-0905")) |}.

End Models.

(** The ids of the models that an answer lists under a provider. *)
Definition listed (provider : string) (r : Models.answer) : list string :=
  map Models.id
    (if String.eqb provider "groq" then Models.groq (Models.models r)
     else if String.eqb provider "openai"
          then Models.openai (Models.models r)
          else []).

(** An environment with an OpenAI key and the OpenAI client, and
    nothing else. *)
Definition openai_only : Agents.environ :=
  {| Agents.OPENAI_AVAILABLE := true;
     Agents.getenv := fun name =>
       if String.eqb name "OPENAI_API_KEY" then Some "sk-test" else None |}.

(* ================================================================== *)
(** * Properties of the entity extractor *)
(* ================================================================== *)

Section ExtractorFacts.
Import PyStr Extractor.

Lemma first_known_first (entities : list string) (ql : string) :
  (exists e, In e entities /\ contains (lower e) ql = true) ->
  exists e' pre post,
    first_known entities ql = Some e' /\
    entities = (pre ++ e' :: post)%list /\
    contains (lower e') ql = true /\
    Forall (fun x => contains (lower x) ql = false) pre.
Proof.
  induction entities as [|x rest IH]; intros [e [Hin Hc]].
  - destruct Hin.
  - simpl. destruct (contains (lower x) ql) eqn:Hx.
    + exists x, [], rest. repeat split; auto.
    + destruct Hin as [-> | Hin]; [congruence|].
      destruct IH as (e' & pre & post & Hf & Hs & Hc' & Hall); [eauto|].
      exists e', (x :: pre), post.
      repeat split; auto. rewrite Hs. reflexivity.
Qed.

Lemma known_not_in_empty (e : string) :
  In e known_entities -> contains (lower e) EmptyString = false.
Proof.
  unfold known_entities. simpl.
  intros H. repeat (destruct H as [<- | H]; [reflexivity|]). destruct H.
Qed.

Lemma extract_with_known (prefixes : list string) (q e : string) :
  first_known known_entities (lower q) = Some e ->
  q <> EmptyString ->
  extract_with prefixes q = e.
Proof.
  intros Hf Hq. unfold extract_with. destruct q; [congruence|].
  rewrite Hf. reflexivity.
Qed.

End ExtractorFacts.

(** C9.  A query that contains, after lower-casing, the lower-cased name of
    one of the fourteen known entities is mapped, by both copies of
    [extract_entity_from_query], to the first entity of the hard-coded list
    that it contains, spelled as in the list; the prefix phrases and the
    title-casing play no part. *)
Theorem known_entity_first_match (q e : string) :
  In e Extractor.known_entities ->
  PyStr.contains (PyStr.lower e) (PyStr.lower q) = true ->
  List.length Extractor.known_entities = 14 /\
  exists e' pre post,
    Extractor.known_entities = (pre ++ e' :: post)%list /\
    PyStr.contains (PyStr.lower e') (PyStr.lower q) = true /\
    Forall (fun x => PyStr.contains (PyStr.lower x) (PyStr.lower q) = false) pre /\
    Api.extract_entity_from_query q = e' /\
    App.extract_entity_from_query q = e' /\
    forall prefixes, Extractor.extract_with prefixes q = e'.
Proof.
  intros Hin Hc. split; [reflexivity|].
  assert (Hq : q <> EmptyString).
  { intros ->. change (PyStr.lower EmptyString) with EmptyString in Hc.
    rewrite (known_not_in_empty e Hin) in Hc. discriminate. }
  destruct (first_known_first Extractor.known_entities (PyStr.lower q))
    as (e' & pre & post & Hf & Hs & Hc' & Hall); [eauto|].
  exists e', pre, post. repeat split; auto;
    try intros prefixes; apply extract_with_known; assumption.
Qed.

Lemma known_entity_first_match_witness :
  In "Amazon" Extractor.known_entities /\
  PyStr.contains (PyStr.lower "Amazon")
                 (PyStr.lower "tell me about amazon and google") = true /\
  exists e' pre post,
    Extractor.known_entities = (pre ++ e' :: post)%list /\
    Api.extract_entity_from_query "tell me about amazon and google" = e'.
Proof.
  assert (Hin : In "Amazon" Extractor.known_entities)
    by (unfold Extractor.known_entities; simpl; tauto).
  assert (Hc : PyStr.contains (PyStr.lower "Amazon")
                 (PyStr.lower "tell me about amazon and google") = true)
    by reflexivity.
  split; [exact Hin | split; [exact Hc |]].
  destruct (known_entity_first_match "tell me about amazon and google" "Amazon"
              Hin Hc) as (_ & e' & pre & post & Hs & _ & _ & Ha & _).
  exists e', pre, post. split; assumption.
Defined.

(** C8 (as stated, refuted).  The mention ["  openai research  "] is not
    mapped to ["Openai Research"]: it contains the known entity OpenAI. *)
Lemma openai_research_is_known_entity :
  Api.extract_entity_from_query "  openai research  " <> "Openai Research" /\
  App.extract_entity_from_query "  openai research  " <> "Openai Research".
Proof. split; vm_compute; discriminate. Qed.

(** C8 (amended).  Both copies of the extractor map
    ["  openai research  "] to the known entity ["OpenAI"]; trimming and
    naive title-casing alone give ["Openai Research"], and that is how a
    mention without a known entity name is mapped:
    ["  acme research  "] becomes ["Acme Research"]. *)
Theorem normalizer_title_case_example :
  Api.extract_entity_from_query "  openai research  " = "OpenAI" /\
  App.extract_entity_from_query "  openai research  " = "OpenAI" /\
  PyStr.title (PyStr.strip "  openai research  ") = "Openai Research" /\
  Api.extract_entity_from_query "  acme research  " = "Acme Research" /\
  App.extract_entity_from_query "  acme research  " = "Acme Research".
Proof. repeat split; reflexivity. Qed.

(* ================================================================== *)
(** * Facts about strings *)
(* ================================================================== *)

Section StringFacts.

Lemma sapp_assoc (a b c : string) : (a ++ b) ++ c = a ++ (b ++ c).
Proof. induction a as [|x a IH]; simpl; [reflexivity | now rewrite IH]. Qed.

Lemma sapp_nil_r (a : string) : a ++ EmptyString = a.
Proof. induction a as [|x a IH]; simpl; [reflexivity | now rewrite IH]. Qed.

End StringFacts.

(* ================================================================== *)
(** * Properties of [analyze_portfolio] *)
(* ================================================================== *)

Section PortfolioFacts.
Import PyStr Json Whiteboard.

Lemma collect_actions (f : string -> value) (l : list string) (init : list value) :
  fold_left (fun actions t => (actions ++ [f t])%list) l init
  = (init ++ map f l)%list.
Proof.
  revert init. induction l as [|t l IH]; intros init; simpl.
  - now rewrite app_nil_r.
  - rewrite IH, <- app_assoc. reflexivity.
Qed.

Lemma collect_result (g : value -> string) (l : list value) (init : string) :
  fold_left (fun result a => result ++ g a) l init
  = init ++ records_text (map g l).
Proof.
  revert init. induction l as [|a l IH]; intros init; simpl.
  - now rewrite sapp_nil_r.
  - rewrite IH, sapp_assoc. reflexivity.
Qed.

End PortfolioFacts.

(** C10.  [analyze_portfolio] returns the chart records of the first six
    tickers, each ticker trimmed and upper-cased and each record delimited
    by the action markers as [emit_action] does, followed by the
    confirmation sentence, which joins all the tickers supplied: at most
    six records, whatever the number of tickers. *)
Theorem analyze_portfolio_records (tickers : string) :
  let ticker_list :=
    map (fun t => PyStr.upper (PyStr.strip t)) (PyStr.split "," tickers) in
  let records :=
    map (fun t => Whiteboard.emit_action Whiteboard.CREATE_CHART
                    (Whiteboard.chart_data t))
        (firstn 6 ticker_list) in
  Whiteboard.analyze_portfolio tickers
  = records_text records
    ++ Whiteboard.nl ++ "Created portfolio view for: "
    ++ PyStr.join ", " ticker_list /\
  List.length records = Nat.min 6 (List.length ticker_list) /\
  List.length records <= 6 /\
  1 <= List.length ticker_list.
Proof.
  intros ticker_list records. repeat split.
  - unfold Whiteboard.analyze_portfolio, PyStr.take.
    fold ticker_list.
    rewrite (collect_actions
               (fun t => Whiteboard.action Whiteboard.CREATE_CHART
                           (Whiteboard.chart_data t))).
    rewrite collect_result. simpl app. rewrite map_map.
    reflexivity.
  - unfold records. rewrite length_map, length_firstn. reflexivity.
  - unfold records. rewrite length_map, length_firstn. lia.
  - unfold ticker_list. rewrite length_map.
    destruct tickers as [|c s]; simpl; [lia|].
    destruct (Ascii.eqb c ","); simpl; [lia|].
    destruct (PyStr.split "," s); simpl; lia.
Qed.

(* ================================================================== *)
(** * Where a marker can occur in a JSON encoding *)
(* ================================================================== *)

Section CutFacts.
Import PyStr.

Lemma starts_with_cut (p a b : string) (c : ascii) :
  mentions c p = false ->
  starts_with p (a ++ String c b) = starts_with p a.
Proof.
  revert a. induction p as [|x p IH]; intros a Hc; [reflexivity|].
  simpl in Hc. apply orb_false_elim in Hc as [Hx Hp].
  destruct a as [|y a]; simpl.
  - rewrite Ascii.eqb_sym, Hx. reflexivity.
  - rewrite IH by assumption. reflexivity.
Qed.

Lemma contains_cut (p a b : string) (c : ascii) :
  mentions c p = false ->
  contains p (a ++ String c b) = contains p a || contains p b.
Proof.
  intros Hc. induction a as [|y a IH].
  - simpl append.
    change (contains p (String c b))
      with (starts_with p (EmptyString ++ String c b) || contains p b).
    rewrite starts_with_cut by assumption.
    simpl. now rewrite orb_false_r.
  - change (contains p (String y a ++ String c b))
      with (starts_with p (String y a ++ String c b)
            || contains p (a ++ String c b)).
    rewrite starts_with_cut, IH by assumption.
    change (contains p (String y a))
      with (starts_with p (String y a) || contains p a).
    now rewrite orb_assoc.
Qed.

Lemma contains_empty (p : string) :
  p <> EmptyString -> contains p EmptyString = false.
Proof. destruct p; [congruence | reflexivity]. Qed.

Lemma contains_cut_head (p b : string) (c : ascii) :
  p <> EmptyString -> mentions c p = false ->
  contains p (String c b) = contains p b.
Proof.
  intros Hp Hc.
  change (String c b) with (EmptyString ++ String c b).
  rewrite contains_cut, contains_empty by assumption. reflexivity.
Qed.

Lemma contains_cut_word (p a w b : string) :
  p <> EmptyString -> avoids p w = true -> w <> EmptyString ->
  contains p (a ++ w ++ b) = contains p a || contains p b.
Proof.
  intros Hp Hw Hne. destruct w as [|c w]; [congruence|]. clear Hne.
  simpl in Hw. apply andb_true_iff in Hw as [Hc Hw].
  apply negb_true_iff in Hc.
  simpl append. rewrite contains_cut by assumption. f_equal.
  clear Hc. induction w as [|d w IH]; [reflexivity|].
  simpl in Hw. apply andb_true_iff in Hw as [Hd Hw].
  apply negb_true_iff in Hd.
  simpl append. rewrite contains_cut_head by assumption. auto.
Qed.

Lemma contains_avoiding (p w : string) :
  p <> EmptyString -> avoids p w = true -> contains p w = false.
Proof.
  intros Hp Hw. destruct w as [|c w]; [now apply contains_empty|].
  rewrite <- (sapp_nil_r (String c w)).
  change (String c w ++ EmptyString)
    with (EmptyString ++ String c w ++ EmptyString).
  rewrite contains_cut_word, contains_empty by (assumption || discriminate).
  reflexivity.
Qed.

Lemma find_unfold (p t : string) :
  find p t = if starts_with p t then Some 0
             else match t with
                  | EmptyString => None
                  | String _ t' => option_map S (find p t')
                  end.
Proof. destruct t; reflexivity. Qed.

Lemma starts_with_self (p t : string) : starts_with p (p ++ t) = true.
Proof.
  induction p as [|x p IH]; simpl; [reflexivity|].
  now rewrite Ascii.eqb_refl, IH.
Qed.

End CutFacts.

Section MarkerFacts.
Import PyStr Json.

(** A marker made of characters that [json.dumps] writes only as the
    image of the same character of a payload string, the colon apart. *)
Variable marker : string.
Hypothesis marker_long : 2 <= String.length marker.
Hypothesis marker_not_escape : avoids marker escape_alphabet = true.
Hypothesis marker_not_layout : avoids marker layout_alphabet = true.
Hypothesis marker_verbatim : all_chars verbatim marker = true.

Let marker_nonempty : marker <> EmptyString.
Proof. intros E. rewrite E in marker_long. simpl in marker_long. lia. Qed.

Lemma avoids_mentions (w : string) (c : ascii) :
  avoids marker w = true -> mentions c w = true -> mentions c marker = false.
Proof.
  induction w as [|x w IH]; simpl; [discriminate|].
  intros Hw Hc. apply andb_true_iff in Hw as [Hx Hw].
  apply negb_true_iff in Hx.
  destruct (Ascii.eqb_spec c x) as [-> | _]; auto.
Qed.

Lemma avoids_within (w u : string) :
  avoids marker u = true -> within w u = true -> avoids marker w = true.
Proof.
  intros Hu. induction w as [|x w IH]; simpl; [reflexivity|].
  intros H. apply andb_true_iff in H as [Hx Hw].
  rewrite (avoids_mentions u x Hu Hx), IH by assumption. reflexivity.
Qed.

(** An escaped character is written with the escape alphabet only. *)
Lemma escape_char_check (c : ascii) :
  (verbatim c && String.eqb (escape_char c) (String c EmptyString))
  || (negb (verbatim c)
      && negb (String.eqb (escape_char c) EmptyString)
      && within (escape_char c) escape_alphabet) = true.
Proof. destruct c as [[] [] [] [] [] [] [] []]; reflexivity. Qed.

Lemma escape_char_cases (c : ascii) :
  (verbatim c = true /\ escape_char c = String c EmptyString) \/
  (verbatim c = false /\ escape_char c <> EmptyString /\
   avoids marker (escape_char c) = true).
Proof.
  pose proof (escape_char_check c) as H.
  apply orb_true_iff in H as [H | H].
  - apply andb_true_iff in H as [Hv He]. left. split; [assumption|].
    now apply String.eqb_eq.
  - apply andb_true_iff in H as [H Hw]. apply andb_true_iff in H as [Hv He].
    right. split; [now apply negb_true_iff|]. split.
    + apply negb_true_iff in He. now apply String.eqb_neq.
    + now apply (avoids_within _ escape_alphabet).
Qed.

Lemma all_chars_mentions (f : ascii -> bool) (w : string) (c : ascii) :
  all_chars f w = true -> mentions c w = true -> f c = true.
Proof.
  induction w as [|x w IH]; simpl; [discriminate|].
  intros H Hc. apply andb_true_iff in H as [Hx Hw].
  destruct (Ascii.eqb_spec c x) as [-> | _]; auto.
Qed.

Lemma within_mentions (w u : string) (c : ascii) :
  within w u = true -> mentions c w = true -> mentions c u = true.
Proof.
  induction w as [|x w IH]; simpl; [discriminate|].
  intros H Hc. apply andb_true_iff in H as [Hx Hw].
  destruct (Ascii.eqb_spec c x) as [-> | _]; auto.
Qed.

Lemma in_marker_not_escaped (p c : ascii) :
  mentions p marker = true -> verbatim c = false -> Ascii.eqb p c = false.
Proof.
  intros Hp Hc. destruct (Ascii.eqb_spec p c) as [-> | _]; [|reflexivity].
  rewrite (all_chars_mentions verbatim marker c marker_verbatim Hp) in Hc.
  discriminate.
Qed.

Lemma in_marker_not_avoided (p n : ascii) (w : string) :
  mentions p marker = true -> avoids marker (String n w) = true ->
  Ascii.eqb p n = false.
Proof.
  intros Hp Hw. simpl in Hw. apply andb_true_iff in Hw as [Hn _].
  apply negb_true_iff in Hn.
  destruct (Ascii.eqb_spec p n) as [-> | _]; [congruence | reflexivity].
Qed.

Lemma starts_with_escape_body (p s : string) :
  within p marker = true ->
  starts_with p (escape_body s) = starts_with p s.
Proof.
  revert p. induction s as [|c s IH]; intros p Hp; [reflexivity|].
  destruct p as [|x p]; [reflexivity|].
  simpl in Hp. apply andb_true_iff in Hp as [Hx Hp].
  destruct (escape_char_cases c) as [[Hv He] | (Hv & Hne & Ha)].
  - simpl escape_body. rewrite He. simpl. now rewrite IH.
  - simpl escape_body. destruct (escape_char c) as [|n w]; [congruence|].
    simpl. rewrite (in_marker_not_avoided x n w Hx Ha).
    rewrite (in_marker_not_escaped x c Hx Hv). reflexivity.
Qed.

Lemma within_refl (w : string) : within w w = true.
Proof.
  assert (H : forall u, (forall c, mentions c u = true -> mentions c w = true)
                        -> within u w = true).
  { induction u as [|x u IH]; intros Hu; [reflexivity|]. simpl.
    rewrite Hu by (simpl; now rewrite Ascii.eqb_refl).
    apply IH. intros c Hc. apply Hu. simpl. rewrite Hc. apply orb_true_r. }
  apply H. auto.
Qed.

Lemma starts_with_escaped (p : string) (c : ascii) (s : string) :
  p <> EmptyString -> within p marker = true -> verbatim c = false ->
  starts_with p (String c s) = false.
Proof.
  intros Hne Hp Hv. destruct p as [|x p]; [congruence|].
  simpl in Hp. apply andb_true_iff in Hp as [Hx _].
  simpl. now rewrite (in_marker_not_escaped x c Hx Hv).
Qed.

Lemma contains_escape_body (s : string) :
  contains marker (escape_body s) = contains marker s.
Proof.
  induction s as [|c s IH]; [reflexivity|].
  change (contains marker (String c s))
    with (starts_with marker (String c s) || contains marker s).
  destruct (escape_char_cases c) as [[Hv He] | (Hv & Hne & Ha)].
  - rewrite <- (starts_with_escape_body marker (String c s) (within_refl _)).
    simpl escape_body. rewrite He. simpl append.
    change (contains marker (String c (escape_body s)))
      with (starts_with marker (String c (escape_body s))
            || contains marker (escape_body s)).
    now rewrite IH.
  - simpl escape_body.
    change (escape_char c ++ escape_body s)
      with (EmptyString ++ escape_char c ++ escape_body s).
    rewrite contains_cut_word, contains_empty, IH by assumption.
    rewrite (starts_with_escaped marker c s) by
      (assumption || apply within_refl).
    reflexivity.
Qed.

Let quote : ascii := ascii_of_nat 34.

Lemma quote_not_in_marker : mentions quote marker = false.
Proof.
  apply (avoids_mentions layout_alphabet); [assumption | reflexivity].
Qed.

Lemma layout_not_in_marker (c : ascii) :
  mentions c layout_alphabet = true -> mentions c marker = false.
Proof. apply avoids_mentions. assumption. Qed.

Lemma encode_string_app (s rest : string) :
  encode_string s ++ rest = String quote (escape_body s ++ String quote rest).
Proof.
  unfold encode_string, dq. fold quote. simpl. f_equal.
  now rewrite sapp_assoc.
Qed.

Lemma contains_encode_string_app (s rest : string) :
  contains marker (encode_string s ++ rest)
  = contains marker s || contains marker rest.
Proof.
  rewrite encode_string_app.
  rewrite contains_cut_head by (assumption || apply quote_not_in_marker).
  rewrite contains_cut by apply quote_not_in_marker.
  now rewrite contains_escape_body.
Qed.

Lemma contains_colon : contains marker ":" = false.
Proof.
  clear - marker_long.
  destruct marker as [|a [|b m]]; simpl in *; try lia.
  all: destruct (Ascii.eqb a ":"); reflexivity.
Qed.

Lemma contains_item (k : string) (d : string) :
  contains marker (encode_string k ++ ": " ++ d)
  = contains marker k || contains marker d.
Proof.
  rewrite contains_encode_string_app. f_equal.
  change (": " ++ d) with (":" ++ String " " d).
  rewrite contains_cut by (now apply layout_not_in_marker).
  now rewrite contains_colon.
Qed.

Lemma contains_join (x : string) (l : list string) :
  contains marker (join ", " (x :: l))
  = contains marker x || contains marker (join ", " l).
Proof.
  destruct l as [|y l].
  - change (join ", " [x]) with x.
    change (join ", " []) with EmptyString.
    rewrite contains_empty by assumption. now rewrite orb_false_r.
  - change (join ", " (x :: y :: l)) with (x ++ ", " ++ join ", " (y :: l)).
    apply contains_cut_word; [assumption | | discriminate].
    apply (avoids_within _ layout_alphabet); [assumption | reflexivity].
Qed.

Lemma digits_within (d : Decimal.uint) :
  within (digits_of d) layout_alphabet = true.
Proof. induction d; simpl; auto. Qed.

Lemma contains_encode_int (z : Z) : contains marker (encode_int z) = false.
Proof.
  apply contains_avoiding; [assumption|].
  apply (avoids_within _ layout_alphabet); [assumption|].
  destruct z; simpl; auto using digits_within.
Qed.

Lemma dumps_obj (fields : list (string * value)) :
  dumps (Obj fields) = "{" ++ join ", " (items fields) ++ "}".
Proof. reflexivity. Qed.

Lemma strings_of_obj (k : string) (x : value) (l : list (string * value)) :
  strings_of (Obj ((k, x) :: l))
  = (k :: strings_of x ++ strings_of (Obj l))%list.
Proof. reflexivity. Qed.

(** The marker occurs in an encoding exactly when it occurs in one of the
    strings of the payload. *)
Lemma contains_dumps (v : value) :
  contains marker (dumps v) = existsb (contains marker) (strings_of v).
Proof.
  induction v as [s | z | fields IH] using value_nested_ind.
  - simpl dumps. rewrite <- (sapp_nil_r (encode_string s)).
    rewrite contains_encode_string_app, contains_empty by assumption.
    reflexivity.
  - apply contains_encode_int.
  - rewrite dumps_obj.
    change ("{" ++ join ", " (items fields) ++ "}")
      with (String "{" (join ", " (items fields) ++ String "}" EmptyString)).
    rewrite contains_cut_head
      by (assumption || now apply layout_not_in_marker).
    rewrite contains_cut by (now apply layout_not_in_marker).
    rewrite contains_empty, orb_false_r by assumption.
    induction IH as [|[k x] l Hx _ IHl].
    + simpl. now apply contains_empty.
    + rewrite strings_of_obj. simpl existsb. rewrite existsb_app.
      change (items ((k, x) :: l))
        with ((encode_string k ++ ": " ++ dumps x) :: items l).
      rewrite contains_join, contains_item.
      simpl in Hx. rewrite Hx, IHl. now rewrite orb_assoc.
Qed.

(** When no string of the payload holds the marker, the marker that
    follows an encoded dict is the first one in the text. *)
Lemma find_after_prefix (a rest : string) (c : ascii) :
  contains marker a = false -> mentions c marker = false ->
  find marker (a ++ String c (marker ++ rest))
  = Some (String.length a + 1).
Proof.
  intros Ha Hc. induction a as [|y a IH].
  - simpl append. rewrite find_unfold.
    change (String c (marker ++ rest))
      with (EmptyString ++ String c (marker ++ rest)) at 1.
    rewrite starts_with_cut by assumption.
    assert (E : starts_with marker EmptyString = false).
    { clear - marker_long. destruct marker; simpl in *; [lia | reflexivity]. }
    rewrite E. simpl append.
    rewrite find_unfold, starts_with_self. reflexivity.
  - change (contains marker (String y a))
      with (starts_with marker (String y a) || contains marker a) in Ha.
    apply orb_false_elim in Ha as [Hs Ha].
    simpl append. rewrite find_unfold.
    change (String y (a ++ String c (marker ++ rest)))
      with (String y a ++ String c (marker ++ rest)) at 1.
    rewrite starts_with_cut, Hs, IH by assumption. reflexivity.
Qed.

End MarkerFacts.


(* ================================================================== *)
(** * Properties of [emit_action] *)
(* ================================================================== *)

Section EmitActionFacts.
Import PyStr Json Whiteboard.

Lemma marker_in_action (m ty : string) (data : value) :
  2 <= String.length m ->
  avoids m escape_alphabet = true ->
  avoids m layout_alphabet = true ->
  all_chars verbatim m = true ->
  contains m "type" = false -> contains m "data" = false ->
  contains m (dumps (action ty data))
  = existsb (contains m) (ty :: strings_of data).
Proof.
  intros H1 H2 H3 H4 Ht Hd.
  rewrite (contains_dumps m H1 H2 H3 H4). unfold action.
  change (strings_of (Obj [("type", Str ty); ("data", data)]))
    with ("type" :: ty :: "data" :: strings_of data ++ [])%list.
  cbn [existsb]. rewrite existsb_app, Ht, Hd. cbn [existsb orb].
  now rewrite orb_false_r.
Qed.

Lemma slength_app (a b : string) :
  String.length (a ++ b) = String.length a + String.length b.
Proof. induction a as [|x a IH]; simpl; [reflexivity | now rewrite IH]. Qed.

Lemma terminator_is_first (m ty : string) (data : value) (rest : string) :
  2 <= String.length m ->
  avoids m escape_alphabet = true ->
  avoids m layout_alphabet = true ->
  all_chars verbatim m = true ->
  contains m (dumps (action ty data)) = false ->
  find m (dumps (action ty data) ++ m ++ rest)
  = Some (String.length (dumps (action ty data))).
Proof.
  intros H1 H2 H3 H4 Hc.
  assert (Hb : mentions "}" m = false)
    by (apply (avoids_mentions m layout_alphabet); auto).
  unfold action in *. rewrite dumps_obj in *.
  set (body := join ", " _) in *.
  assert (E : "{" ++ body ++ "}" = ("{" ++ body) ++ String "}" EmptyString)
    by now rewrite sapp_assoc.
  rewrite E in *. rewrite contains_cut in Hc by assumption.
  apply orb_false_elim in Hc as [Hc _].
  rewrite sapp_assoc. simpl (String "}" EmptyString ++ _).
  rewrite (find_after_prefix m H1) by assumption.
  rewrite !slength_app. reflexivity.
Qed.

End EmitActionFacts.

(** C6 (as stated, refuted).  The record of a text note whose content holds
    the end marker has that marker, character for character, inside its
    JSON encoding, and the first end marker of the record is not the one
    that closes it. *)
Lemma end_marker_inside_payload :
  let json :=
    Json.dumps
      (Whiteboard.action Whiteboard.CREATE_NODE
         (Json.Obj [ ("title", Json.Str "note");
                     ("node_type", Json.Str "text");
                     ("data", Json.Obj [ ("content", Json.Str "x:ACTION>>>y") ]) ])) in
  Whiteboard.create_text_node "note" "x:ACTION>>>y"
  = Whiteboard.nl ++ Whiteboard.start_marker ++ json
    ++ Whiteboard.end_marker ++ Whiteboard.nl /\
  PyStr.contains Whiteboard.end_marker json = true /\
  find Whiteboard.end_marker (json ++ Whiteboard.end_marker ++ Whiteboard.nl)
  <> Some (String.length json).
Proof. repeat split; vm_compute; discriminate. Qed.

(** C6 (amended).  [emit_action] writes the JSON encoding of the action
    between the start marker and the end marker.  The encoding escapes the
    double quote, the backslash and every character outside the printable
    ASCII range, and nothing else, so each marker occurs in the encoding
    exactly when it occurs in a string of the payload (the action type, a
    key or a string value); when the end marker occurs in none of them,
    the first end marker after the encoding starts is the one that closes
    the record. *)
Theorem emit_action_markers (action_type : string) (data : Json.value) :
  let json := Json.dumps (Whiteboard.action action_type data) in
  let strings := action_type :: Json.strings_of data in
  Whiteboard.emit_action action_type data
  = Whiteboard.nl ++ Whiteboard.start_marker ++ json
    ++ Whiteboard.end_marker ++ Whiteboard.nl /\
  PyStr.contains Whiteboard.end_marker json
  = existsb (PyStr.contains Whiteboard.end_marker) strings /\
  PyStr.contains Whiteboard.start_marker json
  = existsb (PyStr.contains Whiteboard.start_marker) strings /\
  (existsb (PyStr.contains Whiteboard.end_marker) strings = false ->
   find Whiteboard.end_marker (json ++ Whiteboard.end_marker ++ Whiteboard.nl)
   = Some (String.length json)).
Proof.
  intros json strings. subst json strings.
  set (json := Json.dumps (Whiteboard.action action_type data)).
  set (strings := (action_type :: Json.strings_of data)%list).
  assert (He : PyStr.contains Whiteboard.end_marker json
               = existsb (PyStr.contains Whiteboard.end_marker) strings).
  { apply marker_in_action; solve [reflexivity | simpl; lia]. }
  repeat split.
  - exact He.
  - apply marker_in_action; solve [reflexivity | simpl; lia].
  - intros Hno. apply terminator_is_first;
      solve [reflexivity | simpl; lia | fold json; now rewrite He].
Qed.

Lemma emit_action_markers_witness :
  existsb (PyStr.contains Whiteboard.end_marker)
          [ "create_metric"; "title"; "P/E Ratio" ] = false /\
  find Whiteboard.end_marker
       (Json.dumps (Whiteboard.action "create_metric"
                      (Json.Obj [ ("title", Json.Str "P/E Ratio") ]))
        ++ Whiteboard.end_marker ++ Whiteboard.nl)
  = Some (String.length
            (Json.dumps (Whiteboard.action "create_metric"
                           (Json.Obj [ ("title", Json.Str "P/E Ratio") ])))).
Proof.
  split; [reflexivity |].
  apply (emit_action_markers "create_metric"
           (Json.Obj [ ("title", Json.Str "P/E Ratio") ])).
  reflexivity.
Defined.

(* ================================================================== *)
(** * Reading the text of a statement *)
(* ================================================================== *)

Section LexFacts.
Import Cypher.

Lemma lex_code_piece (p rest : string) :
  quote_free p = true ->
  lex_from Code EmptyString (p ++ rest)
  = option_map (app (map Ch (list_ascii_of_string p)))
               (lex_from Code EmptyString rest).
Proof.
  induction p as [|c p IH]; simpl; intros H.
  - destruct (lex_from Code EmptyString rest); reflexivity.
  - apply andb_true_iff in H as [Hc Hp]. apply negb_true_iff in Hc.
    rewrite Hc, IH by assumption.
    destruct (lex_from Code EmptyString rest); reflexivity.
Qed.

Lemma reads_plain (v : string) : plain v = true -> reads v v.
Proof.
  unfold reads. induction v as [|c v IH]; intros H lit rest.
  - simpl. rewrite sapp_nil_r. reflexivity.
  - simpl in H. apply andb_true_iff in H as [Hc Hv].
    unfold plain_char in Hc. apply negb_true_iff in Hc.
    apply orb_false_elim in Hc as [Hq Hb].
    simpl. rewrite Hq, Hb, (IH Hv). unfold snoc.
    rewrite sapp_assoc. reflexivity.
Qed.

Lemma lex_fill (pieces : list string) :
  Forall (fun p => quote_free p = true) pieces ->
  forall es vs, Forall2 reads es vs ->
  lex (fill pieces es) = Some (interleave pieces vs).
Proof.
  unfold lex, fill.
  induction 1 as [|p ps Hp _ IH]; intros es vs Hr; [reflexivity|].
  destruct Hr as [|e v es vs He Hr].
  - rewrite <- (sapp_nil_r p) at 1. rewrite lex_code_piece by assumption.
    simpl. now rewrite app_nil_r.
  - rewrite lex_code_piece by assumption.
    simpl lex_from. rewrite (He EmptyString). simpl append.
    rewrite (IH es vs Hr). reflexivity.
Qed.

Lemma token_eqb_refl (t : token) : token_eqb t t = true.
Proof. destruct t; simpl; [apply Ascii.eqb_refl | apply String.eqb_refl]. Qed.

Lemma tokens_eqb_refl (l : list token) : tokens_eqb l l = true.
Proof.
  induction l as [|t l IH]; simpl; [reflexivity|].
  now rewrite token_eqb_refl, IH.
Qed.

Lemma shape_app (a b : list token) : shape (a ++ b) = (shape a ++ shape b)%list.
Proof. apply map_app. Qed.

Lemma shape_interleave (pieces : list string) :
  forall vs ws, List.length vs = List.length ws ->
  shape (interleave pieces vs) = shape (interleave pieces ws).
Proof.
  induction pieces as [|p ps IH]; intros vs ws Hl; [reflexivity|].
  destruct vs as [|v vs], ws as [|w ws]; try discriminate; [reflexivity|].
  simpl. rewrite !shape_app. simpl. f_equal. f_equal. apply IH.
  simpl in Hl. congruence.
Qed.

Lemma literals_chars (l : list ascii) (rest : list token) :
  literals (map Ch l ++ rest) = literals rest.
Proof. induction l as [|c l IH]; simpl; auto. Qed.

Lemma literals_interleave (pieces : list string) :
  forall vs, List.length vs = List.length (tl pieces) ->
  literals (interleave pieces vs) = vs.
Proof.
  induction pieces as [|p ps IH]; intros vs Hl.
  - destruct vs; [reflexivity | discriminate].
  - destruct vs as [|v vs]; simpl.
    + rewrite <- (app_nil_r (map Ch _)). now rewrite literals_chars.
    + rewrite literals_chars. simpl. f_equal.
      destruct ps as [|q ps]; [discriminate|].
      destruct vs as [|v' vs].
      * simpl. rewrite <- (app_nil_r (map Ch _)). now rewrite literals_chars.
      * apply IH. simpl in *. congruence.
Qed.

Lemma Forall2_blank (vs : list string) :
  Forall2 reads (map (fun _ => EmptyString) vs) (map (fun _ => EmptyString) vs).
Proof.
  induction vs; simpl; constructor; auto. now apply reads_plain.
Qed.

(** A template filled with texts that read as the values [vs] is read
    back as the statement of the template on [vs]. *)
Lemma read_as_fill (pieces es vs : list string) :
  Forall (fun p => quote_free p = true) pieces ->
  Forall2 reads es vs ->
  List.length vs = List.length (tl pieces) ->
  read_as pieces (fill pieces es) = Some vs.
Proof.
  intros Hp Hr Hl. unfold read_as.
  rewrite (lex_fill pieces Hp es vs Hr).
  rewrite (lex_fill pieces Hp _ _ (Forall2_blank (tl pieces))).
  rewrite (shape_interleave pieces vs (map (fun _ => EmptyString) (tl pieces)))
    by now rewrite length_map.
  rewrite tokens_eqb_refl. now rewrite literals_interleave.
Qed.

End LexFacts.

(* ================================================================== *)
(** * Facts about edges *)
(* ================================================================== *)

Section EdgeFacts.
Import Graph.

Lemma edge_eqb_refl (e : edge) : edge_eqb e e = true.
Proof.
  unfold edge_eqb. now rewrite !Nat.eqb_refl, String.eqb_refl.
Qed.

Lemma edge_eqb_eq (a b : edge) : edge_eqb a b = true <-> a = b.
Proof.
  unfold edge_eqb. destruct a as [s t d], b as [s' t' d']; simpl. split.
  - intros H. apply andb_true_iff in H as [H Hd].
    apply andb_true_iff in H as [Hs Ht].
    apply Nat.eqb_eq in Hs, Hd. apply String.eqb_eq in Ht. congruence.
  - intros [= -> -> ->]. now rewrite !Nat.eqb_refl, String.eqb_refl.
Qed.

Lemma has_edge_In (e : edge) (g : graph) :
  has_edge e g = true <-> In e (edges g).
Proof.
  unfold has_edge. rewrite existsb_exists. split.
  - intros [x [Hin Hx]]. apply edge_eqb_eq in Hx. now subst.
  - intros Hin. exists e. split; [assumption | apply edge_eqb_refl].
Qed.

Lemma extends_refl (g : graph) : extends g g.
Proof. repeat split; auto. Qed.

Lemma extends_trans (g1 g2 g3 : graph) :
  extends g1 g2 -> extends g2 g3 -> extends g1 g3.
Proof.
  intros (N1 & K1 & E1) (N2 & K2 & E2). repeat split; try congruence; auto.
Qed.

Lemma extends_merge_edge (e : edge) (g : graph) : extends g (merge_edge e g).
Proof.
  unfold merge_edge. destruct (has_edge e g) eqn:He; [apply extends_refl|].
  repeat split; simpl; auto. intros e' H.
  apply has_edge_In. apply has_edge_In in H. simpl.
  apply in_or_app. now left.
Qed.

Lemma has_edge_merge_edge (e : edge) (g : graph) :
  has_edge e (merge_edge e g) = true.
Proof.
  unfold merge_edge. destruct (has_edge e g) eqn:He; [assumption|].
  apply has_edge_In. simpl. apply in_or_app. right. now left.
Qed.

Lemma extends_link (type : string) (ab : node * node) (g : graph) :
  extends g (link type ab g).
Proof. apply extends_merge_edge. Qed.

Section Folds.
Context {A : Type} (step : graph -> A -> graph).
Hypothesis step_extends : forall g x, extends g (step g x).

Lemma fold_extends (l : list A) (g : graph) : extends g (fold_left step l g).
Proof.
  revert g. induction l as [|x l IH]; intros g; simpl.
  - apply extends_refl.
  - eapply extends_trans; [apply step_extends | apply IH].
Qed.

Lemma fold_reaches (l : list A) (x : A) (g : graph) :
  In x l ->
  exists g1, extends g g1 /\ extends (step g1 x) (fold_left step l g).
Proof.
  revert g. induction l as [|y l IH]; intros g Hin; [destruct Hin|].
  destruct Hin as [-> | Hin].
  - exists g. split; [apply extends_refl | simpl; apply fold_extends].
  - destruct (IH (step g y) Hin) as (g1 & H1 & H2).
    exists g1. split; [|exact H2].
    eapply extends_trans; [apply step_extends | exact H1].
Qed.
End Folds.

Lemma extends_merge_rel (type source target : string) (g : graph) :
  extends g (merge_rel type source target g).
Proof.
  unfold merge_rel. apply fold_extends. intros g' ab. apply extends_link.
Qed.

Lemma extends_compete (x y : string) (g : graph) : extends g (compete x y g).
Proof.
  unfold compete. apply fold_extends. intros g' ab.
  eapply extends_trans; apply extends_link.
Qed.

Lemma compete_links (x y : string) (g : graph) (a b : node) :
  In a (nodes g) -> In b (nodes g) ->
  matches "Organization" x a = true -> matches "Organization" y b = true ->
  has_edge (edge_between a "COMPETES_WITH" b) (compete x y g) = true /\
  has_edge (edge_between b "COMPETES_WITH" a) (compete x y g) = true.
Proof.
  intros Ha Hb Hx Hy. unfold compete.
  set (step := fun g' ab =>
                 link "COMPETES_WITH" (snd ab, fst ab)
                   (link "COMPETES_WITH" ab g')).
  assert (Hstep : forall g' ab, extends g' (step g' ab)).
  { intros g' ab. eapply extends_trans; apply extends_link. }
  destruct (fold_reaches step Hstep
              (list_prod (filter (matches "Organization" x) (nodes g))
                         (filter (matches "Organization" y) (nodes g)))
              (a, b) g) as (g1 & _ & (_ & _ & Hfin)).
  { apply in_prod; apply filter_In; auto. }
  split; apply Hfin; unfold step, link; simpl.
  - apply extends_merge_edge. apply has_edge_merge_edge.
  - apply has_edge_merge_edge.
Qed.

End EdgeFacts.

(* ================================================================== *)
(** * Properties of [create_competition] *)
(* ================================================================== *)

Section CompetitionFacts.
Import Graph Seed.

Lemma competition_pieces_quote_free :
  Forall (fun p => quote_free p = true) competition_pieces.
Proof. repeat constructor. Qed.

Lemma query_competition_plain (x y : string) (g : graph) :
  plain x = true -> plain y = true ->
  query_competition (competition_text x y) g = Ok (compete x y g).
Proof.
  intros Hx Hy. unfold query_competition, competition_text.
  rewrite (read_as_fill competition_pieces [x; y] [x; y]).
  - reflexivity.
  - apply competition_pieces_quote_free.
  - repeat constructor; now apply reads_plain.
  - reflexivity.
Qed.

Lemma for_each_total {A : Type} (l : list A)
  (body : A -> graph -> outcome graph) (step : graph -> A -> graph) :
  (forall x g, In x l -> body x g = Ok (step g x)) ->
  forall g, for_each l body g = Ok (fold_left step l g).
Proof.
  induction l as [|x l IH]; intros Hb g; simpl; [reflexivity|].
  rewrite Hb by now left. apply IH. intros y g' Hy. apply Hb. now right.
Qed.

Lemma item_plain (companies : list string) (i : nat) :
  Forall (fun c => plain c = true) companies -> plain (item companies i) = true.
Proof.
  intros H. unfold item. revert i.
  induction H as [|c l Hc _ IH]; intros [|i]; simpl; auto.
Qed.

Lemma create_competition_plain (companies : list string) (g : graph) :
  Forall (fun c => plain c = true) companies ->
  create_competition companies g
  = Ok (fold_left (competition_row companies)
                  (range 0 (List.length companies)) g).
Proof.
  intros Hp. unfold create_competition.
  apply for_each_total. intros i g' _.
  unfold competition_row. apply for_each_total. intros j g'' _.
  apply query_competition_plain; now apply item_plain.
Qed.

Lemma extends_row (companies : list string) (g : graph) (i : nat) :
  extends g (competition_row companies g i).
Proof.
  unfold competition_row. apply fold_extends.
  intros g' j. apply extends_compete.
Qed.

Lemma competition_pair (companies : list string) (g : graph) (i j : nat)
  (a b : node) :
  i < j -> j < List.length companies ->
  In a (nodes g) -> In b (nodes g) ->
  matches "Organization" (item companies i) a = true ->
  matches "Organization" (item companies j) b = true ->
  let g' := fold_left (competition_row companies)
                      (range 0 (List.length companies)) g in
  has_edge (edge_between a "COMPETES_WITH" b) g' = true /\
  has_edge (edge_between b "COMPETES_WITH" a) g' = true.
Proof.
  intros Hij Hj Ha Hb Hma Hmb g'.
  destruct (fold_reaches (competition_row companies) (extends_row companies)
              (range 0 (List.length companies)) i g)
    as (g1 & (N1 & _) & (_ & _ & Hout)).
  { unfold range. apply in_seq. lia. }
  destruct (fold_reaches
              (fun g' j => compete (item companies i) (item companies j) g')
              (fun g' j => extends_compete _ _ g')
              (range (i + 1) (List.length companies)) j g1)
    as (g2 & (N2 & _) & (_ & _ & Hin)).
  { unfold range. apply in_seq. lia. }
  destruct (compete_links (item companies i) (item companies j) g2 a b)
    as [Hab Hba]; try assumption; try (rewrite N2, N1; assumption).
  split; apply Hout; apply Hin; assumption.
Qed.

(** Where the edges of a graph come from, after a loop whose steps keep
    the nodes. *)
Lemma fold_origin {A : Type} (N : list node) (step : graph -> A -> graph)
  (Q : A -> edge -> Prop) (l : list A) :
  (forall g x, nodes (step g x) = nodes g) ->
  (forall g x e, nodes g = N -> In x l -> In e (edges (step g x)) ->
                 In e (edges g) \/ Q x e) ->
  forall g e, nodes g = N -> In e (edges (fold_left step l g)) ->
              In e (edges g) \/ exists x, In x l /\ Q x e.
Proof.
  intros Hn. induction l as [|x l IH]; intros Hs g e Hg Hin; [now left|].
  simpl in Hin. apply IH in Hin.
  - destruct Hin as [Hin | (y & Hy & Hq)].
    + apply Hs in Hin; [| assumption | now left].
      destruct Hin as [Hin | Hq]; [now left | right].
      exists x. split; [now left | assumption].
    + right. exists y. split; [now right | assumption].
  - intros g' y e' Hg' Hy. apply Hs; [assumption | now right].
  - now rewrite Hn.
Qed.

Lemma link_edges (type : string) (ab : node * node) (g : graph) (e : edge) :
  In e (edges (link type ab g)) ->
  In e (edges g) \/ e = edge_between (fst ab) type (snd ab).
Proof.
  unfold link, merge_edge. destruct (has_edge _ g); [now left|].
  simpl. intros H. apply in_app_or in H as [H | [<- | []]];
    [now left | now right].
Qed.

Lemma link_nodes (type : string) (ab : node * node) (g : graph) :
  nodes (link type ab g) = nodes g.
Proof. unfold link, merge_edge. now destruct (has_edge _ g). Qed.

(** The edges that the statement of [create_competition] adds join two
    Organization nodes that carry the two names. *)
Lemma compete_edges (x y : string) (g : graph) (e : edge) :
  In e (edges (compete x y g)) ->
  In e (edges g) \/
  exists a b,
    In a (nodes g) /\ In b (nodes g) /\
    matches "Organization" x a = true /\
    matches "Organization" y b = true /\
    (e = edge_between a "COMPETES_WITH" b \/
     e = edge_between b "COMPETES_WITH" a).
Proof.
  unfold compete. intros H.
  apply (fold_origin (nodes g)
           (fun g' ab => link "COMPETES_WITH" (snd ab, fst ab)
                           (link "COMPETES_WITH" ab g'))
           (fun ab e => e = edge_between (fst ab) "COMPETES_WITH" (snd ab) \/
                        e = edge_between (snd ab) "COMPETES_WITH" (fst ab)))
    in H.
  - destruct H as [H | ([a b] & Hin & Hq)]; [now left | right].
    apply in_prod_iff in Hin as [Ha Hb].
    apply filter_In in Ha as [Ha Hma]. apply filter_In in Hb as [Hb Hmb].
    exists a, b. auto 6.
  - intros g' ab. now rewrite !link_nodes.
  - intros g' ab e' _ _ Hin.
    apply link_edges in Hin as [Hin | ->]; [| right; now right].
    apply link_edges in Hin as [Hin | ->]; [now left | right; now left].
  - reflexivity.
Qed.

Lemma competition_origin (companies : list string) (g : graph) (e : edge) :
  In e (edges (fold_left (competition_row companies)
                         (range 0 (List.length companies)) g)) ->
  In e (edges g) \/
  exists i j a b,
    i < j /\ j < List.length companies /\
    In a (nodes g) /\ In b (nodes g) /\
    matches "Organization" (item companies i) a = true /\
    matches "Organization" (item companies j) b = true /\
    (e = edge_between a "COMPETES_WITH" b \/
     e = edge_between b "COMPETES_WITH" a).
Proof.
  intros H.
  apply (fold_origin (nodes g) (competition_row companies)
           (fun i e =>
              exists j a b,
                i < j /\ j < List.length companies /\
                In a (nodes g) /\ In b (nodes g) /\
                matches "Organization" (item companies i) a = true /\
                matches "Organization" (item companies j) b = true /\
                (e = edge_between a "COMPETES_WITH" b \/
                 e = edge_between b "COMPETES_WITH" a))) in H.
  - destruct H as [H | (i & _ & j & a & b & Hq)]; [now left | right].
    now exists i, j, a, b.
  - intros g' i. apply (extends_row companies g' i).
  - intros g' i e' Hg' _ Hin. unfold competition_row in Hin.
    apply (fold_origin (nodes g)
             (fun g'' j => compete (item companies i) (item companies j) g'')
             (fun j e =>
                exists a b,
                  i < j /\ j < List.length companies /\
                  In a (nodes g) /\ In b (nodes g) /\
                  matches "Organization" (item companies i) a = true /\
                  matches "Organization" (item companies j) b = true /\
                  (e = edge_between a "COMPETES_WITH" b \/
                   e = edge_between b "COMPETES_WITH" a))) in Hin.
    + destruct Hin as [Hin | (j & _ & a & b & Hq)]; [now left | right].
      now exists j, a, b.
    + intros g'' j. apply (extends_compete _ _ g'').
    + intros g'' j e'' Hg'' Hj Hin'.
      apply compete_edges in Hin' as [Hin' | (a & b & Ha & Hb & Hq)];
        [now left | right].
      unfold range in Hj. apply in_seq in Hj.
      rewrite Hg'' in Ha, Hb. exists a, b.
      split; [lia | split; [lia | auto]].
    + exact Hg'.
  - reflexivity.
Qed.

End CompetitionFacts.

(** C4 (as stated, refuted).  The statement of [create_competition]
    matches its two Organization nodes before it merges the edges: a name
    that has no Organization node gets no edge and no node.  On the empty
    store, and on a store where A is an Organization and B is a Person
    only, [create_competition ["A"; "B"]] runs to its end and leaves the
    store as it is, without any edge. *)
Lemma competition_needs_both_organizations :
  Seed.create_competition ["A"; "B"] Graph.empty = Ok Graph.empty /\
  Seed.create_competition ["A"; "B"] organization_and_person
  = Ok organization_and_person /\
  Graph.edges organization_and_person = [] /\
  List.length (Graph.nodes organization_and_person) = 2.
Proof. repeat split. Qed.

(** C4 (amended).  For a list of company names free of quotes and
    backslashes (the names are written between quotes in the statement),
    [create_competition] runs to its end, creates no node, and leaves a
    COMPETES_WITH edge in each direction between every two Organization
    nodes of the graph whose ids stand at two different places of the
    list; it adds no other edge, so a name without Organization node gets
    none. *)
Theorem create_competition_both_directions
  (companies : list string) (g : Graph.graph) :
  Forall (fun c => plain c = true) companies ->
  exists g',
    Seed.create_competition companies g = Ok g' /\
    Graph.nodes g' = Graph.nodes g /\
    (forall i j a b,
       i < List.length companies -> j < List.length companies -> i <> j ->
       In a (Graph.nodes g) -> In b (Graph.nodes g) ->
       Graph.matches "Organization" (Seed.item companies i) a = true ->
       Graph.matches "Organization" (Seed.item companies j) b = true ->
       Graph.has_edge (edge_between a "COMPETES_WITH" b) g' = true /\
       Graph.has_edge (edge_between b "COMPETES_WITH" a) g' = true) /\
    (forall ed,
       In ed (Graph.edges g') ->
       In ed (Graph.edges g) \/
       exists i j a b,
         i < List.length companies /\ j < List.length companies /\
         i <> j /\
         In a (Graph.nodes g) /\ In b (Graph.nodes g) /\
         Graph.matches "Organization" (Seed.item companies i) a = true /\
         Graph.matches "Organization" (Seed.item companies j) b = true /\
         ed = edge_between a "COMPETES_WITH" b).
Proof.
  intros Hp. eexists. split; [now apply create_competition_plain|].
  split; [| split].
  - apply (fold_extends (competition_row companies) (extends_row companies)).
  - intros i j a b Hi Hj Hne Ha Hb Hma Hmb.
    destruct (Nat.lt_ge_cases i j) as [Hlt | Hge].
    + now apply competition_pair with (i := i) (j := j).
    + apply and_comm. apply competition_pair with (i := j) (j := i);
        try assumption. lia.
  - intros ed Hin.
    apply competition_origin
      in Hin as [Hin | (i & j & a & b & Hij & Hj & Ha & Hb & Hma & Hmb & Hq)];
      [now left | right].
    destruct Hq as [-> | ->].
    + exists i, j, a, b. repeat split; (assumption || lia).
    + exists j, i, b, a. repeat split; (assumption || lia).
Qed.

Lemma create_competition_both_directions_witness :
  let a := Graph.mk_node 0 ["Organization"] [("id", "A")] in
  let b := Graph.mk_node 1 ["Organization"] [("id", "B")] in
  let g := Graph.merge_node "Organization" "B"
             (Graph.merge_node "Organization" "A" Graph.empty) in
  Forall (fun c => plain c = true) ["A"; "B"] /\
  exists g',
    Seed.create_competition ["A"; "B"] g = Ok g' /\
    Graph.has_edge (edge_between a "COMPETES_WITH" b) g' = true /\
    Graph.has_edge (edge_between b "COMPETES_WITH" a) g' = true.
Proof.
  intros a b g.
  assert (Hp : Forall (fun c => plain c = true) ["A"; "B"])
    by (repeat constructor).
  split; [exact Hp|].
  destruct (create_competition_both_directions ["A"; "B"] g Hp)
    as (g' & Hrun & _ & Hedges & _).
  exists g'. split; [exact Hrun|].
  apply (Hedges 0 1 a b); simpl; auto; lia.
Defined.

(* ================================================================== *)
(** * The ingestion as a sequence of statements *)
(* ================================================================== *)

Section IngestionFacts.
Import Tools.
Variable e : env.

Lemma bind_assoc {A B C : Type} (m : M A) (k : A -> M B) (h : B -> M C)
  (w : world) :
  bind (bind m k) h w = bind m (fun a => bind (k a) h) w.
Proof. unfold bind. destruct (m w) as [[a | msg] w']; reflexivity. Qed.

Lemma bind_ext {A B : Type} (m m' : M A) (k k' : A -> M B) (w : world) :
  m w = m' w -> (forall a w', k a w' = k' a w') -> bind m k w = bind m' k' w.
Proof.
  intros Hm Hk. unfold bind. rewrite Hm.
  destruct (m' w) as [[a | msg] w']; auto.
Qed.

Lemma for_each_ext {A : Type} (l : list A) (body body' : A -> M unit) :
  (forall x w, body x w = body' x w) ->
  forall w, for_each l body w = for_each l body' w.
Proof.
  intros Hb. induction l as [|x l IH]; intros w; [reflexivity|].
  simpl. apply bind_ext; auto.
Qed.

Lemma for_each_app {A : Type} (l1 l2 : list A) (body : A -> M unit)
  (w : world) :
  for_each (l1 ++ l2) body w
  = bind (for_each l1 body) (fun _ => for_each l2 body) w.
Proof.
  revert w. induction l1 as [|x l1 IH]; intros w; [reflexivity|].
  simpl. rewrite bind_assoc. apply bind_ext; auto.
Qed.

Lemma for_each_map {A B : Type} (f : A -> B) (l : list A)
  (body : B -> M unit) (w : world) :
  for_each l (fun x => body (f x)) w = for_each (map f l) body w.
Proof.
  revert w. induction l as [|x l IH]; intros w; [reflexivity|].
  simpl. apply bind_ext; auto.
Qed.

Lemma for_each_flat {A B : Type} (f : A -> list B) (l : list A)
  (body : B -> M unit) (w : world) :
  for_each l (fun x => for_each (f x) body) w
  = for_each (flat_map f l) body w.
Proof.
  revert w. induction l as [|x l IH]; intros w; [reflexivity|].
  simpl. rewrite for_each_app. apply bind_ext; auto.
Qed.

Lemma bind_ret_tt (m : M unit) (w : world) :
  bind m (fun _ => ret tt) w = m w.
Proof.
  unfold bind, ret. destruct (m w) as [[[] | msg] w']; reflexivity.
Qed.

Lemma rel_body_stmts (rel : relationship) (w : world) :
  bind (if String.eqb (PyStr.upper (type rel)) "INVESTED_IN"
        then query e (SetInvestor (source rel)) else ret tt)
       (fun _ => query e (MergeRel (PyStr.upper (type rel))
                            (source rel) (target rel))) w
  = for_each (rel_stmts rel) (query e) w.
Proof.
  unfold rel_stmts.
  destruct (String.eqb (PyStr.upper (type rel)) "INVESTED_IN"); simpl.
  - apply bind_ext; [reflexivity|]. intros _ w'. now rewrite bind_ret_tt.
  - now rewrite bind_ret_tt.
Qed.

(** The two loops issue the statements of [plan], in that order. *)
Lemma ingest_as_plan (data : extraction) (w : world) :
  ingest e data w
  = bind (for_each (plan data) (query e)) (fun _ => ret (summary_of data)) w.
Proof.
  unfold ingest, plan.
  transitivity
    (bind (bind (for_each (node_plan data) (query e))
                (fun _ => for_each (rel_plan data) (query e)))
          (fun _ => ret (summary_of data)) w);
    [| apply bind_ext; [now rewrite for_each_app | reflexivity]].
  rewrite bind_assoc. apply bind_ext.
  - unfold node_plan. rewrite <- for_each_flat.
    apply for_each_ext. intros key w'. apply for_each_map.
  - intros _ w'. apply bind_ext; [|reflexivity].
    unfold rel_plan. rewrite <- for_each_flat.
    apply for_each_ext. intros rel w''. apply rel_body_stmts.
Qed.

Lemma query_cases (st : stmt) (w : world) :
  (exists msg, query e st w = (Raise msg, w)) \/
  query e st w
  = (Ok tt, {| db := apply st (db w); applied := applied w ++ [st] |}).
Proof.
  unfold query, exec.
  destruct (store_fault e (List.length (applied w))) as [msg|]; [eauto|].
  destruct (well_formed st); eauto.
Qed.

(** A run of statements applies a prefix of them: all of them when it
    returns, a strict prefix when a statement raises. *)
Lemma run_trace (l : list stmt) (w : world) :
  exists k,
    k <= List.length l /\
    applied (snd (for_each l (query e) w)) = (applied w ++ firstn k l)%list /\
    db (snd (for_each l (query e) w)) = replay (firstn k l) (db w) /\
    (forall u, fst (for_each l (query e) w) = Ok u -> k = List.length l) /\
    (forall msg, fst (for_each l (query e) w) = Raise msg ->
                 k < List.length l).
Proof.
  revert w. induction l as [|st l IH]; intros w.
  - exists 0. simpl. rewrite app_nil_r. repeat split; auto; discriminate.
  - simpl for_each. unfold bind.
    destruct (query_cases st w) as [[msg H] | H]; rewrite H.
    { exists 0. simpl. rewrite app_nil_r.
      repeat split; auto; try lia; try discriminate. }
    destruct (IH {| db := apply st (db w); applied := applied w ++ [st] |})
      as (k & Hk & Ha & Hd & Hok & Hraise).
    exists (S k). simpl in *. rewrite Ha, Hd, <- app_assoc.
    repeat split; auto; try lia.
    + intros u Hu. rewrite (Hok u Hu). reflexivity.
    + intros msg Hm. specialize (Hraise msg Hm). lia.
Qed.

Lemma ingest_trace (data : extraction) (w : world) :
  exists k,
    k <= List.length (plan data) /\
    applied (snd (ingest e data w))
    = (applied w ++ firstn k (plan data))%list /\
    db (snd (ingest e data w)) = replay (firstn k (plan data)) (db w) /\
    (forall s, fst (ingest e data w) = Ok s ->
               k = List.length (plan data) /\ s = summary_of data) /\
    (forall msg, fst (ingest e data w) = Raise msg ->
                 k < List.length (plan data)).
Proof.
  destruct (run_trace (plan data) w) as (k & Hk & Ha & Hd & Hok & Hraise).
  exists k. rewrite ingest_as_plan. unfold bind.
  destruct (for_each (plan data) (query e) w) as [[u | msg] w']; simpl in *.
  - split; [assumption|]. split; [assumption|]. split; [assumption|]. split.
    + intros s0 [= <-]. split; [now apply (Hok u) | reflexivity].
    + intros msg [=].
  - split; [assumption|]. split; [assumption|]. split; [assumption|]. split.
    + intros s0 [=].
    + intros msg' _. now apply (Hraise msg).
Qed.

End IngestionFacts.

(* ================================================================== *)
(** * The order of the writes *)
(* ================================================================== *)

Section OrderFacts.
Import Tools.

Lemma node_plan_merges (data : extraction) :
  Forall (fun st => is_node_merge st = true) (node_plan data).
Proof.
  unfold node_plan. apply Forall_flat_map. apply Forall_forall.
  intros key _. apply Forall_map. apply Forall_forall. reflexivity.
Qed.

Lemma rel_stmts_no_merge (rel : relationship) :
  Forall (fun st => is_node_merge st = false) (rel_stmts rel).
Proof.
  unfold rel_stmts.
  destruct (String.eqb (PyStr.upper (type rel)) "INVESTED_IN");
    repeat constructor.
Qed.

Lemma rel_plan_no_merge (data : extraction) :
  Forall (fun st => is_node_merge st = false) (rel_plan data).
Proof.
  unfold rel_plan. apply Forall_flat_map. apply Forall_forall.
  intros rel _. apply rel_stmts_no_merge.
Qed.

Lemma Forall_prefix {A : Type} (P : A -> Prop) (k : nat) (l : list A) :
  Forall P l -> Forall P (firstn k l).
Proof.
  intros H. rewrite <- (firstn_skipn k l) in H.
  now apply Forall_app in H as [H _].
Qed.

Lemma promoted_first_rels (rels : list relationship) :
  promoted_first (flat_map rel_stmts rels).
Proof.
  induction rels as [|rel rels IH]; intros pre s t post H.
  - destruct pre; discriminate.
  - simpl in H. unfold rel_stmts in H.
    destruct (String.eqb (PyStr.upper (type rel)) "INVESTED_IN") eqn:Ht;
      simpl in H.
    + destruct pre as [|a [|b pre]]; simpl in H.
      * discriminate.
      * inversion H; subst. exists []. reflexivity.
      * inversion H as [[Ea Eb E]]. destruct (IH _ _ _ _ E) as [pre' ->].
        eexists (_ :: _ :: pre'). reflexivity.
    + destruct pre as [|a pre]; simpl in H.
      * inversion H as [[Hty Es Et E]]. rewrite Hty in Ht. discriminate.
      * inversion H as [[Ea E]]. destruct (IH _ _ _ _ E) as [pre' ->].
        eexists (_ :: pre'). reflexivity.
Qed.

Lemma promoted_first_prefix (k : nat) (l : list stmt) :
  promoted_first l -> promoted_first (firstn k l).
Proof.
  intros H pre s t post E. apply (H pre s t (post ++ skipn k l)%list).
  rewrite <- (firstn_skipn k l) at 1. rewrite E, <- app_assoc. reflexivity.
Qed.

Lemma has_label_add (l l' : string) (n : Graph.node) :
  Graph.has_label l' (Graph.add_label l n)
  = Graph.has_label l' n || (String.eqb l' l).
Proof.
  unfold Graph.add_label. destruct (Graph.has_label l n) eqn:H.
  - destruct (String.eqb_spec l' l) as [-> | _];
      [now rewrite H | now rewrite orb_false_r].
  - unfold Graph.has_label. simpl. rewrite existsb_app. simpl.
    now rewrite orb_false_r.
Qed.

Lemma grown_add_label (l : string) (n : Graph.node) :
  grown n (Graph.add_label l n).
Proof.
  unfold grown, Graph.add_label.
  destruct (Graph.has_label l n); simpl; repeat split;
    auto using incl_refl, incl_appl.
Qed.

Lemma grown_refl (n : Graph.node) : grown n n.
Proof. repeat split; apply incl_refl. Qed.

Lemma id_is_props (x : string) (n n' : Graph.node) :
  Graph.props n' = Graph.props n -> Graph.id_is x n' = Graph.id_is x n.
Proof. unfold Graph.id_is. now intros ->. Qed.

Lemma relabelled_set_label (name l : string) (g : Graph.graph) :
  relabelled g (Graph.set_label name l g).
Proof.
  unfold relabelled, Graph.set_label. simpl.
  induction (Graph.nodes g) as [|n ns IH]; simpl; constructor; auto.
  destruct (Graph.id_is name n);
    [apply grown_add_label | apply grown_refl].
Qed.

Lemma set_label_labels (name l : string) (g : Graph.graph) (n' : Graph.node) :
  In n' (Graph.nodes (Graph.set_label name l g)) ->
  Graph.id_is name n' = true -> Graph.has_label l n' = true.
Proof.
  unfold Graph.set_label. simpl. intros Hin Hid.
  apply in_map_iff in Hin as (n & <- & _).
  destruct (Graph.id_is name n) eqn:Hn.
  - rewrite has_label_add, String.eqb_refl. apply orb_true_r.
  - congruence.
Qed.

End OrderFacts.

(** C5.  Whatever the extraction result and whether or not the store
    fails on the way, the statements that [research_and_learn] has applied
    are node upserts followed by statements that upsert no node; among the
    latter, the merge of an INVESTED_IN edge comes right after the statement
    that adds the Investor label to its source; that statement keeps
    every node, its properties and its labels.  When the ingestion returns,
    every mention has had its upsert and every triple its merge. *)
Theorem ingestion_order (e : Tools.env) (data : Tools.extraction)
  (w : Tools.world) :
  let r := Tools.ingest e data w in
  exists node_writes rel_writes,
    Tools.applied (snd r)
    = (Tools.applied w ++ node_writes ++ rel_writes)%list /\
    Tools.db (snd r) = replay (node_writes ++ rel_writes) (Tools.db w) /\
    Forall (fun st => Tools.is_node_merge st = true) node_writes /\
    Forall (fun st => Tools.is_node_merge st = false) rel_writes /\
    (forall pre s t post,
       rel_writes = (pre ++ Tools.MergeRel "INVESTED_IN" s t :: post)%list ->
       exists pre', pre = (pre' ++ [Tools.SetInvestor s])%list) /\
    (forall name g,
       relabelled g (Tools.apply (Tools.SetInvestor name) g) /\
       forall n', In n' (Graph.nodes (Tools.apply (Tools.SetInvestor name) g)) ->
                  Graph.id_is name n' = true ->
                  Graph.has_label "Investor" n' = true) /\
    (forall summary, fst r = Ok summary ->
       node_writes = node_plan data /\ rel_writes = rel_plan data /\
       (forall key item,
          In key list_keys -> In item (Tools.get key data) ->
          In (Tools.MergeNode (Tools.label_of key) item) node_writes) /\
       (forall rel,
          In rel (Tools.relationships data) ->
          In (Tools.MergeRel (PyStr.upper (Tools.type rel))
                (Tools.source rel) (Tools.target rel)) rel_writes)).
Proof.
  intros r. subst r.
  destruct (ingest_trace e data w) as (k & Hk & Ha & Hd & Hok & _).
  exists (firstn k (node_plan data)),
         (firstn (k - List.length (node_plan data)) (rel_plan data)).
  unfold plan in *. rewrite firstn_app in Ha, Hd.
  split; [exact Ha|]. split; [exact Hd|].
  split; [apply Forall_prefix, node_plan_merges|].
  split; [apply Forall_prefix, rel_plan_no_merge|].
  split; [apply promoted_first_prefix, promoted_first_rels|].
  split.
  - intros name g. split.
    + apply relabelled_set_label.
    + apply set_label_labels.
  - intros summary Hs. destruct (Hok summary Hs) as [-> _].
    rewrite List.length_app.
    rewrite firstn_all2 by lia.
    replace (_ + _ - _) with (List.length (rel_plan data)) by lia.
    rewrite firstn_all. split; [reflexivity|]. split; [reflexivity|]. split.
    + intros key item Hkey Hitem. unfold node_plan.
      apply in_flat_map. exists key. split; [assumption|].
      now apply in_map.
    + intros rel Hrel. unfold rel_plan.
      apply in_flat_map. exists rel. split; [assumption|].
      unfold rel_stmts. apply in_or_app. right. now left.
Qed.

(* ================================================================== *)
(** * Idempotence of the edge merge *)
(* ================================================================== *)

Section EdgeMergeFacts.
Import Graph.




Lemma fold_link_settled (type : string) (l : list (node * node)) (g : graph) :
  (forall ab, In ab l ->
              has_edge (edge_between (fst ab) type (snd ab)) g = true) ->
  fold_left (fun g' ab => link type ab g') l g = g.
Proof.
  induction l as [|ab l IH]; intros H; simpl; [reflexivity|].
  assert (E : link type ab g = g).
  { unfold link, merge_edge. unfold edge_between in H.
    now rewrite (H ab (or_introl eq_refl)). }
  rewrite E. apply IH. intros ab' Hin. apply H. now right.
Qed.

Lemma merge_rel_links (type source target : string) (g : graph) (a b : node) :
  In a (nodes g) -> In b (nodes g) ->
  id_is source a = true -> id_is target b = true ->
  has_edge (edge_between a type b) (merge_rel type source target g) = true.
Proof.
  intros Ha Hb Hs Ht. unfold merge_rel.
  destruct (fold_reaches (fun g' ab => link type ab g')
              (fun g' ab => extends_link type ab g')
              (list_prod (filter (id_is source) (nodes g))
                         (filter (id_is target) (nodes g)))
              (a, b) g) as (g1 & _ & (_ & _ & Hfin)).
  { apply in_prod; apply filter_In; auto. }
  apply Hfin. apply has_edge_merge_edge.
Qed.


End EdgeMergeFacts.



(* ================================================================== *)
(** * Failures inside the tools *)
(* ================================================================== *)

(** The writes of [research_and_learn] are those of [ingest] on the decoded
    answer; a tool that fails before the decoding succeeds writes nothing. *)
Lemma research_and_learn_writes (e : Tools.env) (w : Tools.world)
  (topic raw_text response : string) (data : Tools.extraction) :
  Tools.SEARCH_AVAILABLE e = true ->
  Tools.search_invoke e (Tools.search_query topic) = Ok raw_text ->
  Tools.llm_invoke e raw_text = Ok response ->
  Tools.json_loads e (Tools.clean_json response) = Ok data ->
  snd (Tools.research_and_learn e topic w) = snd (Tools.ingest e data w).
Proof.
  intros Ha Hs Hl Hj.
  unfold Tools.research_and_learn, Tools.try_except, Tools.bind, Tools.lift,
    Tools.ret.
  rewrite Ha, Hs, Hl, Hj.
  destruct (Tools.ingest e data w) as [[s | msg] w']; reflexivity.
Qed.

(** The call of the language model is outside every [try]: its failure
    leaves [research_and_learn] as an exception. *)
Lemma model_failure_escapes :
  fst (Tools.research_and_learn (model_down "rate limit") "acme" fresh_world)
  = Raise "rate limit".
Proof. reflexivity. Qed.

(** In [query_graph_database] the client and the chain are built before
    the [try]: a failure there leaves the tool as an exception, with
    nothing answered. *)
Lemma chain_construction_failure_escapes (msg question : string)
  (w : Tools.world) :
  Tools.query_graph_database (chain_unbuilt msg) question w = (Raise msg, w).
Proof. reflexivity. Qed.

(** C7 (as stated, refuted).  The string that [research_and_learn] returns
    when the search fails carries the message of the exception: two
    failures that differ by their message give two different answers, each
    with the message in it.  A failure of the language model is not
    answered by a string at all. *)
Lemma search_failure_payload_returned :
  Tools.research_and_learn
    (search_down "HTTPSConnectionPool(host=duckduckgo.com): Max retries exceeded")
    "acme" fresh_world
  = (Ok "Search failed: HTTPSConnectionPool(host=duckduckgo.com): Max retries exceeded",
     fresh_world) /\
  Tools.research_and_learn (search_down "RatelimitException: 202") "acme"
    fresh_world
  = (Ok "Search failed: RatelimitException: 202", fresh_world) /\
  fst (Tools.research_and_learn
         (search_down "HTTPSConnectionPool(host=duckduckgo.com): Max retries exceeded")
         "acme" fresh_world)
  <> fst (Tools.research_and_learn (search_down "RatelimitException: 202")
            "acme" fresh_world) /\
  fst (Tools.research_and_learn (model_down "rate limit") "acme" fresh_world)
  = Raise "rate limit".
Proof. repeat split. vm_compute. discriminate. Qed.

(** C7 (amended).  In [research_and_learn], a failed search is answered by
    ["Search failed: "] and the message of the exception, with nothing
    written; when the language model has answered, an answer that cannot
    be decoded and a statement that the store refuses are answered by
    ["Error: "] and the message of the exception; otherwise the summary is
    returned.  In [query_graph_database], once the client and the chain
    are built (they are built before the [try]), any failure of the call
    of the chain is answered by the sentence ["No info in graph."].  In
    all these cases the tool returns a string. *)
Theorem tools_catch_failures (e : Tools.env) (w : Tools.world)
  (topic question : string) :
  (Tools.SEARCH_AVAILABLE e = false ->
   Tools.research_and_learn e topic w = (Ok "Search tool not available.", w)) /\
  (forall msg,
     Tools.SEARCH_AVAILABLE e = true ->
     Tools.search_invoke e (Tools.search_query topic) = Raise msg ->
     Tools.research_and_learn e topic w = (Ok ("Search failed: " ++ msg), w)) /\
  (forall raw_text response,
     Tools.SEARCH_AVAILABLE e = true ->
     Tools.search_invoke e (Tools.search_query topic) = Ok raw_text ->
     Tools.llm_invoke e raw_text = Ok response ->
     (exists s, fst (Tools.research_and_learn e topic w) = Ok s) /\
     (forall msg,
        Tools.json_loads e (Tools.clean_json response) = Raise msg ->
        Tools.research_and_learn e topic w = (Ok ("Error: " ++ msg), w)) /\
     (forall data,
        Tools.json_loads e (Tools.clean_json response) = Ok data ->
        (forall msg,
           fst (Tools.ingest e data w) = Raise msg ->
           fst (Tools.research_and_learn e topic w) = Ok ("Error: " ++ msg)) /\
        (forall s,
           fst (Tools.ingest e data w) = Ok s ->
           fst (Tools.research_and_learn e topic w) = Ok s))) /\
  (Tools.chain_from_llm e = Ok tt ->
   exists s,
     Tools.query_graph_database e question w = (Ok s, w) /\
     forall msg,
       Tools.chain_invoke e question (Tools.db w) = Raise msg ->
       s = "No info in graph.").
Proof.
  unfold Tools.research_and_learn, Tools.query_graph_database,
    Tools.try_except, Tools.bind, Tools.lift, Tools.ret.
  split; [intros ->; reflexivity|].
  split; [intros msg -> ->; reflexivity|].
  split.
  - intros raw_text response -> -> ->.
    split; [| split].
    + destruct (Tools.json_loads e (Tools.clean_json response)) as [data | msg];
        simpl; [| eauto].
      destruct (Tools.ingest e data w) as [[s | msg] w']; simpl; eauto.
    + intros msg ->. reflexivity.
    + intros data ->. split.
      * intros msg H. destruct (Tools.ingest e data w) as [[s | m] w'];
          simpl in *; congruence.
      * intros s H. destruct (Tools.ingest e data w) as [[s' | m] w'];
          simpl in *; congruence.
  - intros ->.
    destruct (Tools.chain_invoke e question (Tools.db w)) as [s | msg].
    + exists s. split; [reflexivity | discriminate].
    + eexists. split; [reflexivity | auto].
Qed.

Lemma tools_catch_failures_witness :
  Tools.SEARCH_AVAILABLE (search_down "timed out") = true /\
  Tools.search_invoke (search_down "timed out") (Tools.search_query "acme")
  = Raise "timed out" /\
  Tools.research_and_learn (search_down "timed out") "acme" fresh_world
  = (Ok "Search failed: timed out", fresh_world) /\
  Tools.chain_from_llm (chain_down "timed out") = Ok tt /\
  Tools.query_graph_database (chain_down "timed out") "who leads acme"
    fresh_world
  = (Ok "No info in graph.", fresh_world).
Proof.
  split; [reflexivity | split; [reflexivity |]]. split.
  - apply (tools_catch_failures (search_down "timed out") fresh_world
             "acme" "who leads acme"); reflexivity.
  - split; [reflexivity|].
    destruct (tools_catch_failures (chain_down "timed out") fresh_world
                "acme" "who leads acme") as (_ & _ & _ & H).
    destruct (H eq_refl) as (s & Hq & Hs).
    rewrite Hq, (Hs "timed out" eq_refl). reflexivity.
Defined.

(* ================================================================== *)
(** * What the node merges keep *)
(* ================================================================== *)

Section NodeFacts.
Import Graph.

Lemma has_label_In (l : string) (n : node) :
  has_label l n = true <-> In l (labels n).
Proof.
  unfold has_label. rewrite existsb_exists. split.
  - intros [x [Hin Hx]]. apply String.eqb_eq in Hx. now subst.
  - intros Hin. exists l. split; [assumption | apply String.eqb_refl].
Qed.

Lemma grown_matches (l x : string) (n n' : node) :
  grown n n' -> matches l x n = true -> matches l x n' = true.
Proof.
  intros (_ & Hp & Hl) H. unfold matches in *.
  apply andb_true_iff in H as [H1 H2]. apply andb_true_iff. split.
  - apply has_label_In. apply Hl. now apply has_label_In.
  - now rewrite (id_is_props x n n' Hp).
Qed.

Lemma grown_trans (a b c : node) : grown a b -> grown b c -> grown a c.
Proof.
  intros (K1 & P1 & L1) (K2 & P2 & L2). repeat split; try congruence.
  eapply incl_tran; eassumption.
Qed.

Lemma Forall2_grown_refl (l : list node) : Forall2 grown l l.
Proof. induction l; constructor; auto using grown_refl. Qed.

Lemma Forall2_grown_trans (a b c : list node) :
  Forall2 grown a b -> Forall2 grown b c -> Forall2 grown a c.
Proof.
  intros H. revert c. induction H as [|x y a b Hxy _ IH]; intros c Hc.
  - inversion Hc. constructor.
  - inversion Hc as [|? z ? c' Hyz Hbc]; subst. constructor.
    + eapply grown_trans; eassumption.
    + now apply IH.
Qed.

Lemma Forall2_in_l {A B} (R : A -> B -> Prop) (a : list A) (b : list B) x :
  Forall2 R a b -> In x a -> exists y, In y b /\ R x y.
Proof.
  induction 1 as [|u v a b Huv _ IH]; intros Hin; [destruct Hin|].
  destruct Hin as [-> | Hin].
  - exists v. split; [now left | assumption].
  - destruct (IH Hin) as (y & Hy & Hr). exists y. split; [now right | assumption].
Qed.

Lemma Forall2_in_r {A B} (R : A -> B -> Prop) (a : list A) (b : list B) y :
  Forall2 R a b -> In y b -> exists x, In x a /\ R x y.
Proof.
  induction 1 as [|u v a b Huv _ IH]; intros Hin; [destruct Hin|].
  destruct Hin as [-> | Hin].
  - exists u. split; [now left | assumption].
  - destruct (IH Hin) as (x & Hx & Hr). exists x. split; [now right | assumption].
Qed.

Lemma persists_refl (g : graph) : persists g g.
Proof.
  exists (nodes g), []. rewrite app_nil_r. split; [reflexivity|].
  apply Forall2_grown_refl.
Qed.

Lemma relabelled_persists (g g' : graph) : relabelled g g' -> persists g g'.
Proof.
  intros H. exists (nodes g'), []. now rewrite app_nil_r.
Qed.

Lemma persists_trans (g1 g2 g3 : graph) :
  persists g1 g2 -> persists g2 g3 -> persists g1 g3.
Proof.
  intros (o1 & n1 & E1 & F1) (o2 & n2 & E2 & F2).
  rewrite E1 in F2. apply Forall2_app_inv_l in F2 as (o2a & o2b & Fa & Fb & ->).
  exists o2a, (o2b ++ n2)%list. split.
  - now rewrite E2, app_assoc.
  - eapply Forall2_grown_trans; eassumption.
Qed.

Lemma persists_matches (l x : string) (g g' : graph) :
  persists g g' ->
  (exists n, In n (nodes g) /\ matches l x n = true) ->
  exists n', In n' (nodes g') /\ matches l x n' = true.
Proof.
  intros (old & new & E & F) (n & Hin & Hm).
  destruct (Forall2_in_l _ _ _ n F Hin) as (n' & Hin' & Hg).
  exists n'. split.
  - rewrite E. apply in_or_app. now left.
  - eapply grown_matches; eassumption.
Qed.

Lemma relabelled_refl (g : graph) : relabelled g g.
Proof. apply Forall2_grown_refl. Qed.

Lemma relabelled_trans (g1 g2 g3 : graph) :
  relabelled g1 g2 -> relabelled g2 g3 -> relabelled g1 g3.
Proof. apply Forall2_grown_trans. Qed.

Lemma relabelled_extends (g g' : graph) : extends g g' -> relabelled g g'.
Proof. intros (N & _). unfold relabelled. rewrite N. apply Forall2_grown_refl. Qed.


(** A statement that upserts no node relabels the nodes it finds. *)
Lemma apply_relabels (st : Tools.stmt) (g : graph) :
  Tools.is_node_merge st = false ->
  relabelled g (Tools.apply st g) /\ next_key (Tools.apply st g) = next_key g.
Proof.
  destruct st as [l x | x | t a b]; simpl; intros H; [discriminate | |].
  - split; [apply relabelled_set_label | reflexivity].
  - split; [apply relabelled_extends |]; apply extends_merge_rel.
Qed.

Lemma merge_node_cases (l x : string) (g : graph) :
  (existsb (matches l x) (nodes g) = true /\ merge_node l x g = g) \/
  (existsb (matches l x) (nodes g) = false /\
   nodes (merge_node l x g)
   = (nodes g ++ [mk_node (next_key g) [l] [("id", x)]])%list /\
   next_key (merge_node l x g) = S (next_key g)).
Proof.
  unfold merge_node. destruct (existsb (matches l x) (nodes g)); auto.
Qed.

Lemma merge_node_found (l x : string) (g : graph) :
  exists n, In n (nodes (merge_node l x g)) /\ matches l x n = true.
Proof.
  destruct (merge_node_cases l x g) as [[H ->] | (H & -> & _)].
  - apply existsb_exists in H. exact H.
  - eexists. split; [apply in_or_app; right; now left|].
    unfold matches, has_label, id_is. simpl. now rewrite !String.eqb_refl.
Qed.

Lemma persists_merge_node (l x : string) (g : graph) :
  persists g (merge_node l x g).
Proof.
  destruct (merge_node_cases l x g) as [[_ ->] | (_ & E & _)].
  - apply persists_refl.
  - exists (nodes g), [mk_node (next_key g) [l] [("id", x)]].
    split; [assumption | apply Forall2_grown_refl].
Qed.

Lemma persists_apply (st : Tools.stmt) (g : graph) :
  persists g (Tools.apply st g).
Proof.
  destruct st as [l x | x | t a b].
  - apply persists_merge_node.
  - apply relabelled_persists, apply_relabels. reflexivity.
  - apply relabelled_persists, apply_relabels. reflexivity.
Qed.



End NodeFacts.

Section KeyedFacts.
Import Graph.


Lemma matches_new_node (l x l' x' : string) (k : nat) :
  matches l x (mk_node k [l'] [("id", x')]) = true -> l = l' /\ x = x'.
Proof.
  unfold matches, has_label, id_is. simpl. rewrite orb_false_r.
  intros H. apply andb_true_iff in H as [H1 H2].
  apply String.eqb_eq in H1, H2. auto.
Qed.





Lemma replay_app (l1 l2 : list Tools.stmt) (g : graph) :
  replay (l1 ++ l2) g = replay l2 (replay l1 g).
Proof. unfold replay. apply fold_left_app. Qed.


Lemma replay_relabels (l : list Tools.stmt) (g : graph) :
  Forall (fun st => Tools.is_node_merge st = false) l ->
  relabelled g (replay l g).
Proof.
  intros H. revert g. induction H as [|st l Hst _ IH]; intros g.
  - apply relabelled_refl.
  - eapply relabelled_trans; [apply (apply_relabels st g Hst) | apply IH].
Qed.




End KeyedFacts.




(* ================================================================== *)
(** * Values written into the text of a statement *)
(* ================================================================== *)

Section EscapeFacts.
Import Cypher.

Lemma escape_quotes_step (c : ascii) (s : string) :
  Seed.escape_quotes (String c s)
  = if Ascii.eqb c squote then "\'" ++ Seed.escape_quotes s
    else String c (Seed.escape_quotes s).
Proof.
  unfold Seed.escape_quotes, PyStr.replace.
  change (PyStr.replace_from "'" "\'" 0 (String c s))
    with (if Ascii.eqb squote c && true
          then "\'" ++ PyStr.replace_from "'" "\'" 0 s
          else String c (PyStr.replace_from "'" "\'" 0 s)).
  now rewrite andb_true_r, Ascii.eqb_sym.
Qed.

(** The replacement of [seed_company] is enough for a value without
    backslash: between quotes, the escaped text is read as the value. *)
Lemma escape_quotes_reads (v : string) :
  backslash_free v = true -> reads (Seed.escape_quotes v) v.
Proof.
  unfold reads. induction v as [|c v IH]; intros H lit rest.
  - simpl. rewrite sapp_nil_r. reflexivity.
  - simpl in H. apply andb_true_iff in H as [Hc Hv].
    apply negb_true_iff in Hc. rewrite escape_quotes_step.
    destruct (Ascii.eqb c squote) eqn:Hq.
    + apply Ascii.eqb_eq in Hq. subst c. simpl.
      rewrite (IH Hv). unfold snoc. rewrite sapp_assoc. reflexivity.
    + simpl. rewrite Hq, Hc, (IH Hv). unfold snoc.
      rewrite sapp_assoc. reflexivity.
Qed.

Lemma founder_text_read_back (name founder : string) :
  plain name = true -> backslash_free founder = true ->
  read_as Seed.founder_pieces (Seed.founder_text name founder)
  = Some [founder; name].
Proof.
  intros Hn Hf. unfold Seed.founder_text. apply read_as_fill.
  - repeat constructor.
  - repeat constructor; [now apply escape_quotes_reads | now apply reads_plain].
  - reflexivity.
Qed.

End EscapeFacts.

(** C2 (the code at the failing inputs).  The replacement of the quote by
    backslash-quote leaves the backslash alone, and the company name is
    written without any replacement.  A focus entity with a backslash
    before a quote ends the literal early: the text of the /graph statement
    then holds two literals and text of the caller between them, and is
    not the statement of the template; so it is for a company name with a
    quote and for a founder whose name ends with a backslash.  A value
    with quotes only is read back as written. *)
Theorem quote_escaping_incomplete :
  Cypher.read_as GraphEndpoint.center_pieces (GraphEndpoint.center_text "acme")
  = Some ["Acme"] /\
  option_map Cypher.literals
    (Cypher.lex (GraphEndpoint.center_text "x\' or 1=1 or \'y"))
  = Some ["X\"; "Y"] /\
  Cypher.read_as GraphEndpoint.center_pieces
    (GraphEndpoint.center_text "x\' or 1=1 or \'y") = None /\
  Cypher.read_as Seed.founder_pieces
    (Seed.founder_text "Acme" "Tim O'Reilly") = Some ["Tim O'Reilly"; "Acme"] /\
  Cypher.read_as Seed.founder_pieces
    (Seed.founder_text "O'Reilly Media" "Tim") = None /\
  Cypher.read_as Seed.founder_pieces (Seed.founder_text "Acme" "Bob\") = None.
Proof. repeat split; vm_compute; reflexivity. Qed.

(* ================================================================== *)
(** * More on the entity extractor: blank queries, canonical answers *)
(* ================================================================== *)

Section CaseFacts.
Import PyStr.

Lemma space_lower (c : ascii) : is_space (lower_char c) = is_space c.
Proof. destruct c as [[] [] [] [] [] [] [] []]; reflexivity. Qed.

Lemma space_upper (c : ascii) : is_space (upper_char c) = is_space c.
Proof. destruct c as [[] [] [] [] [] [] [] []]; reflexivity. Qed.

Lemma cased_lower (c : ascii) : is_cased (lower_char c) = is_cased c.
Proof. destruct c as [[] [] [] [] [] [] [] []]; reflexivity. Qed.

Lemma cased_upper (c : ascii) : is_cased (upper_char c) = is_cased c.
Proof. destruct c as [[] [] [] [] [] [] [] []]; reflexivity. Qed.

Lemma lower_lower (c : ascii) : lower_char (lower_char c) = lower_char c.
Proof. destruct c as [[] [] [] [] [] [] [] []]; reflexivity. Qed.

Lemma upper_upper (c : ascii) : upper_char (upper_char c) = upper_char c.
Proof. destruct c as [[] [] [] [] [] [] [] []]; reflexivity. Qed.

Lemma space_lower_fixed (c : ascii) : is_space c = true -> lower_char c = c.
Proof. destruct c as [[] [] [] [] [] [] [] []]; intros H; try reflexivity; discriminate H. Qed.

Lemma backslash_lower (c : ascii) :
  Ascii.eqb (lower_char c) Cypher.backslash = Ascii.eqb c Cypher.backslash.
Proof. destruct c as [[] [] [] [] [] [] [] []]; reflexivity. Qed.

Lemma backslash_upper (c : ascii) :
  Ascii.eqb (upper_char c) Cypher.backslash = Ascii.eqb c Cypher.backslash.
Proof. destruct c as [[] [] [] [] [] [] [] []]; reflexivity. Qed.

End CaseFacts.

Section BlankFacts.
Import PyStr Extractor.

Lemma blank_lower (s : string) : blank s = true -> lower s = s.
Proof.
  induction s as [|c s IH]; simpl; [reflexivity|].
  intros H. apply andb_true_iff in H as [Hc Hs].
  unfold lower in *. simpl. now rewrite (space_lower_fixed c Hc), IH.
Qed.

Lemma contains_blank (a : ascii) (p s : string) :
  is_space a = false -> blank s = true -> contains (String a p) s = false.
Proof.
  intros Ha. induction s as [|b s IH]; intros H; [reflexivity|].
  simpl in H. apply andb_true_iff in H as [Hb Hs].
  simpl. rewrite (IH Hs), orb_false_r.
  destruct (Ascii.eqb_spec a b) as [-> | _]; [congruence | reflexivity].
Qed.

Lemma first_known_blank (entities : list string) (s : string) :
  forallb head_not_blank entities = true -> blank s = true ->
  first_known entities s = None.
Proof.
  intros He Hs. induction entities as [|x rest IH]; [reflexivity|].
  simpl in He. apply andb_true_iff in He as [Hx Hrest].
  simpl. unfold head_not_blank in Hx.
  destruct (lower x) as [|a p]; [discriminate|].
  apply negb_true_iff in Hx. rewrite (contains_blank a p s Hx Hs). auto.
Qed.

Lemma sub_prefix_blank (lit s : string) :
  head_not_blank lit = true -> blank s = true -> Re.sub_prefix lit s = s.
Proof.
  unfold head_not_blank, Re.sub_prefix. intros Hl Hs.
  destruct lit as [|a lit]; [discriminate|].
  destruct s as [|b s]; [reflexivity|].
  simpl in Hs. apply andb_true_iff in Hs as [Hb _].
  unfold lower in Hl. simpl in Hl. apply negb_true_iff in Hl.
  simpl. rewrite (space_lower_fixed b Hb).
  destruct (Ascii.eqb_spec (lower_char a) b) as [E | _]; [congruence | reflexivity].
Qed.

Lemma strip_prefixes_blank (prefixes : list string) (s : string) :
  forallb head_not_blank prefixes = true -> blank s = true ->
  strip_prefixes prefixes s = s.
Proof.
  unfold strip_prefixes. intros Hp Hs.
  induction prefixes as [|p rest IH]; [reflexivity|].
  simpl in Hp. apply andb_true_iff in Hp as [Hp Hrest].
  simpl. rewrite sub_prefix_blank by assumption. auto.
Qed.

Lemma lstrip_blank (s : string) : blank s = true -> lstrip s = EmptyString.
Proof.
  induction s as [|c s IH]; simpl; [reflexivity|].
  intros H. apply andb_true_iff in H as [Hc Hs]. rewrite Hc. auto.
Qed.

Lemma extract_with_blank (prefixes : list string) (q : string) :
  forallb head_not_blank prefixes = true -> blank q = true ->
  extract_with prefixes q = EmptyString.
Proof.
  intros Hp Hq. unfold extract_with. destruct q as [|c q]; [reflexivity|].
  rewrite (blank_lower _ Hq).
  rewrite first_known_blank by (assumption || reflexivity).
  rewrite strip_prefixes_blank by assumption.
  unfold strip. now rewrite lstrip_blank.
Qed.

End BlankFacts.

(** X1.  A query made of blanks only, the empty query included, names no
    entity: both copies of [extract_entity_from_query] answer the empty
    string (no known entity is found in it, no prefix phrase applies, and
    trimming leaves nothing). *)
Theorem blank_query_no_entity (query : string) :
  blank query = true ->
  Api.extract_entity_from_query query = EmptyString /\
  App.extract_entity_from_query query = EmptyString.
Proof.
  intros H. split; apply extract_with_blank; auto.
Qed.

Lemma blank_query_no_entity_witness :
  blank (String (ascii_of_nat 9) "   ") = true /\
  Api.extract_entity_from_query (String (ascii_of_nat 9) "   ") = EmptyString.
Proof.
  split; [reflexivity |].
  apply (blank_query_no_entity (String (ascii_of_nat 9) "   ")). reflexivity.
Defined.

Section CanonicalFacts.
Import PyStr Extractor.

Lemma space_not_cased (c : ascii) : is_space c = true -> is_cased c = false.
Proof.
  destruct c as [[] [] [] [] [] [] [] []]; intros H; try reflexivity; discriminate H.
Qed.

Lemma rstrip_cons (c : ascii) (s : string) :
  rstrip (String c s)
  = match rstrip s with
    | EmptyString => if is_space c then EmptyString else String c EmptyString
    | String d r => String c (String d r)
    end.
Proof. simpl. destruct (rstrip s); reflexivity. Qed.

Lemma rstrip_title (b : bool) (s : string) :
  rstrip (title_from b s) = title_from b (rstrip s).
Proof.
  revert b. induction s as [|c s IH]; intros b; [reflexivity|].
  simpl title_from at 1. rewrite !rstrip_cons, IH.
  destruct (rstrip s) as [|d r]; simpl.
  - destruct b; rewrite ?space_lower, ?space_upper;
      destruct (is_space c); reflexivity.
  - reflexivity.
Qed.

Lemma lstrip_title (s : string) : lstrip (title s) = title (lstrip s).
Proof.
  unfold title. induction s as [|c s IH]; [reflexivity|].
  simpl. rewrite space_upper. destruct (is_space c) eqn:Hc.
  - now rewrite (space_not_cased c Hc).
  - reflexivity.
Qed.

Lemma strip_title (s : string) : strip (title s) = title (strip s).
Proof. unfold strip. rewrite lstrip_title. apply rstrip_title. Qed.

Lemma rstrip_idem (s : string) : rstrip (rstrip s) = rstrip s.
Proof.
  induction s as [|c s IH]; [reflexivity|].
  rewrite rstrip_cons. destruct (rstrip s) as [|d r] eqn:E.
  - destruct (is_space c) eqn:Hc; [reflexivity|]. simpl. now rewrite Hc.
  - rewrite rstrip_cons, IH. reflexivity.
Qed.

Lemma lstrip_head (s : string) :
  match lstrip s with
  | EmptyString => True
  | String c _ => is_space c = false
  end.
Proof.
  induction s as [|c s IH]; simpl; [exact I|].
  destruct (is_space c) eqn:Hc; [exact IH | exact Hc].
Qed.

Lemma lstrip_rstrip (s : string) :
  match s with
  | EmptyString => True
  | String c _ => is_space c = false
  end ->
  lstrip (rstrip s) = rstrip s.
Proof.
  destruct s as [|c s]; [reflexivity|]. intros Hc.
  rewrite rstrip_cons. destruct (rstrip s); rewrite ?Hc; simpl; now rewrite Hc.
Qed.

Lemma strip_idem (s : string) : strip (strip s) = strip s.
Proof.
  unfold strip. rewrite (lstrip_rstrip (lstrip s) (lstrip_head s)).
  apply rstrip_idem.
Qed.

Lemma title_from_idem (b : bool) (s : string) :
  title_from b (title_from b s) = title_from b s.
Proof.
  revert b. induction s as [|c s IH]; intros b; [reflexivity|].
  simpl. destruct b.
  - now rewrite lower_lower, cased_lower, IH.
  - now rewrite upper_upper, cased_upper, IH.
Qed.

Lemma first_known_in (entities : list string) (ql e : string) :
  first_known entities ql = Some e -> In e entities.
Proof.
  induction entities as [|x rest IH]; simpl; [discriminate|].
  destruct (contains (lower x) ql); [intros [= ->]; now left | auto].
Qed.

Lemma known_trimmed (e : string) : In e known_entities -> strip e = e.
Proof.
  unfold known_entities. simpl.
  intros H. repeat (destruct H as [<- | H]; [reflexivity|]). destruct H.
Qed.

Lemma extract_with_trimmed (prefixes : list string) (q : string) :
  strip (extract_with prefixes q) = extract_with prefixes q.
Proof.
  unfold extract_with. destruct q as [|c q]; [reflexivity|].
  destruct (first_known known_entities (lower (String c q))) as [e|] eqn:F.
  - apply known_trimmed. eapply first_known_in. eassumption.
  - now rewrite strip_title, strip_idem.
Qed.

Lemma extract_with_title_case (prefixes : list string) (q : string) :
  first_known known_entities (lower q) = None ->
  title (extract_with prefixes q) = extract_with prefixes q.
Proof.
  unfold extract_with. destruct q as [|c q]; [reflexivity|].
  intros ->. apply title_from_idem.
Qed.

End CanonicalFacts.

(** X2.  On a query of ASCII characters the answer of
    [extract_entity_from_query] is canonical: it never starts or ends
    with a blank (trimming it again changes nothing), and when the query
    contains no known entity it is in title case (title-casing it again
    changes nothing); so for both copies. *)
Theorem extracted_entity_canonical (query : string) :
  ascii_text query = true ->
  PyStr.strip (Api.extract_entity_from_query query)
  = Api.extract_entity_from_query query /\
  PyStr.strip (App.extract_entity_from_query query)
  = App.extract_entity_from_query query /\
  (Extractor.first_known Extractor.known_entities (PyStr.lower query) = None ->
   PyStr.title (Api.extract_entity_from_query query)
   = Api.extract_entity_from_query query /\
   PyStr.title (App.extract_entity_from_query query)
   = App.extract_entity_from_query query).
Proof.
  intros _.
  split; [apply extract_with_trimmed|].
  split; [apply extract_with_trimmed|].
  intros H. split; now apply extract_with_title_case.
Qed.

Lemma extracted_entity_canonical_witness :
  ascii_text "  Research   acme cORP " = true /\
  Extractor.first_known Extractor.known_entities
    (PyStr.lower "  Research   acme cORP ") = None /\
  Api.extract_entity_from_query "  Research   acme cORP "
  = "Research   Acme Corp" /\
  PyStr.title (Api.extract_entity_from_query "  Research   acme cORP ")
  = Api.extract_entity_from_query "  Research   acme cORP ".
Proof.
  split; [reflexivity |]. split; [reflexivity |]. split; [reflexivity |].
  destruct (extracted_entity_canonical "  Research   acme cORP " eq_refl)
    as (_ & _ & H).
  destruct (H eq_refl) as [Ha _]. exact Ha.
Defined.

(* ================================================================== *)
(** * The /graph statement on queries without backslash *)
(* ================================================================== *)

Section FocusFacts.
Import PyStr Extractor.

Lemma backslash_free_lstrip (s : string) :
  backslash_free s = true -> backslash_free (lstrip s) = true.
Proof.
  induction s as [|c s IH]; simpl; [auto|]. intros H.
  destruct (is_space c); [|exact H].
  apply andb_true_iff in H as [_ H]. auto.
Qed.

Lemma backslash_free_rstrip (s : string) :
  backslash_free s = true -> backslash_free (rstrip s) = true.
Proof.
  induction s as [|c s IH]; [auto|]. intros H.
  simpl in H. apply andb_true_iff in H as [Hc Hs].
  rewrite rstrip_cons. specialize (IH Hs).
  destruct (rstrip s) as [|d r].
  - destruct (is_space c); [reflexivity|].
    change (backslash_free (String c EmptyString))
      with (negb (Ascii.eqb c Cypher.backslash) && true).
    now rewrite Hc.
  - change (backslash_free (String c (String d r)))
      with (negb (Ascii.eqb c Cypher.backslash)
            && backslash_free (String d r)).
    now rewrite Hc, IH.
Qed.

Lemma backslash_free_rest (lit s rest : string) :
  Re.match_literal_ci lit s = Some rest ->
  backslash_free s = true -> backslash_free rest = true.
Proof.
  revert s. induction lit as [|a lit IH]; intros s; simpl.
  - now intros [= ->].
  - destruct s as [|b s]; [discriminate|].
    destruct (Ascii.eqb (lower_char a) (lower_char b)); [|discriminate].
    intros Hm H. simpl in H. apply andb_true_iff in H as [_ H]. eauto.
Qed.

Lemma backslash_free_sub_prefix (lit s : string) :
  backslash_free s = true -> backslash_free (Re.sub_prefix lit s) = true.
Proof.
  intros H. unfold Re.sub_prefix.
  destruct (Re.match_literal_ci lit s) as [[|c rest]|] eqn:Hm; auto.
  destruct (is_space c); auto.
  apply backslash_free_lstrip.
  pose proof (backslash_free_rest lit s _ Hm H) as Hr.
  simpl in Hr. now apply andb_true_iff in Hr as [_ Hr].
Qed.

Lemma backslash_free_strip_prefixes (prefixes : list string) (s : string) :
  backslash_free s = true ->
  backslash_free (strip_prefixes prefixes s) = true.
Proof.
  unfold strip_prefixes. revert s.
  induction prefixes as [|p rest IH]; intros s H; simpl; [exact H|].
  apply IH. now apply backslash_free_sub_prefix.
Qed.

Lemma backslash_free_title (b : bool) (s : string) :
  backslash_free s = true -> backslash_free (title_from b s) = true.
Proof.
  revert b. induction s as [|c s IH]; intros b H; [reflexivity|].
  simpl in H. apply andb_true_iff in H as [Hc Hs].
  change (backslash_free (title_from b (String c s)))
    with (negb (Ascii.eqb (if b then lower_char c else upper_char c)
                          Cypher.backslash)
          && backslash_free (title_from (is_cased c) s)).
  rewrite (IH _ Hs), andb_true_r.
  destruct b; [rewrite backslash_lower | rewrite backslash_upper]; exact Hc.
Qed.

Lemma known_backslash_free (e : string) :
  In e known_entities -> backslash_free e = true.
Proof.
  unfold known_entities. simpl.
  intros H. repeat (destruct H as [<- | H]; [reflexivity|]). destruct H.
Qed.

Lemma extract_with_backslash_free (prefixes : list string) (q : string) :
  backslash_free q = true -> backslash_free (extract_with prefixes q) = true.
Proof.
  intros H. unfold extract_with. destruct q as [|c q]; [reflexivity|].
  destruct (first_known known_entities (lower (String c q))) as [e|] eqn:F.
  - apply known_backslash_free. eapply first_known_in. eassumption.
  - apply backslash_free_title. unfold strip.
    apply backslash_free_rstrip, backslash_free_lstrip.
    now apply backslash_free_strip_prefixes.
Qed.

End FocusFacts.

(** X3.  For every query without backslash, the first statement of
    [get_graph] is read by the engine as the statement of its template
    with one literal, the focus entity that [extract_entity_from_query]
    returned: quotes in the query are escaped and stay inside the literal. *)
Theorem graph_center_statement_safe (query : string) :
  backslash_free query = true ->
  Cypher.read_as GraphEndpoint.center_pieces (GraphEndpoint.center_text query)
  = Some [Api.extract_entity_from_query query].
Proof.
  intros H. unfold GraphEndpoint.center_text. apply read_as_fill.
  - repeat constructor.
  - repeat constructor.
    apply (escape_quotes_reads (Api.extract_entity_from_query query)).
    now apply extract_with_backslash_free.
  - reflexivity.
Qed.

Lemma graph_center_statement_safe_witness :
  backslash_free "tell me about o'neil's labs" = true /\
  Cypher.read_as GraphEndpoint.center_pieces
    (GraphEndpoint.center_text "tell me about o'neil's labs")
  = Some ["O'Neil'S Labs"].
Proof.
  split; [reflexivity |].
  apply (graph_center_statement_safe "tell me about o'neil's labs").
  reflexivity.
Defined.

(* ================================================================== *)
(** * The records are printable ASCII *)
(* ================================================================== *)

Section PrintableFacts.
Import PyStr Json Whiteboard.

Lemma all_chars_app (f : ascii -> bool) (a b : string) :
  all_chars f (a ++ b) = all_chars f a && all_chars f b.
Proof.
  induction a as [|c a IH]; simpl; [reflexivity|].
  now rewrite IH, andb_assoc.
Qed.

Lemma escape_char_printable (c : ascii) :
  all_chars printable (escape_char c) = true.
Proof. destruct c as [[] [] [] [] [] [] [] []]; reflexivity. Qed.

Lemma escape_body_printable (s : string) :
  all_chars printable (escape_body s) = true.
Proof.
  induction s as [|c s IH]; [reflexivity|].
  simpl. now rewrite all_chars_app, escape_char_printable, IH.
Qed.

Lemma encode_string_printable (s : string) :
  all_chars printable (encode_string s) = true.
Proof.
  unfold encode_string. rewrite !all_chars_app, escape_body_printable.
  reflexivity.
Qed.

Lemma digits_printable (d : Decimal.uint) :
  all_chars printable (digits_of d) = true.
Proof. induction d; simpl; auto. Qed.

Lemma join_printable (l : list string) :
  Forall (fun x => all_chars printable x = true) l ->
  all_chars printable (join ", " l) = true.
Proof.
  induction 1 as [|x l Hx Hl IH]; [reflexivity|].
  destruct l as [|y l]; [exact Hx|].
  change (join ", " (x :: y :: l)) with (x ++ ", " ++ join ", " (y :: l)).
  now rewrite !all_chars_app, Hx, IH.
Qed.

Lemma dumps_printable (v : value) : all_chars printable (dumps v) = true.
Proof.
  induction v as [s | z | fields IH] using value_nested_ind.
  - apply encode_string_printable.
  - destruct z; simpl; auto using digits_printable.
  - rewrite dumps_obj, !all_chars_app, join_printable; [reflexivity|].
    induction IH as [|[k x] l Hx _ IHl]; [constructor|].
    change (items ((k, x) :: l))
      with ((encode_string k ++ ": " ++ dumps x) :: items l).
    constructor; [|exact IHl]. simpl in Hx.
    now rewrite !all_chars_app, encode_string_printable, Hx.
Qed.

Lemma printable_count (c : ascii) (s : string) :
  printable c = false -> all_chars printable s = true -> count_char c s = 0.
Proof.
  intros Hc. induction s as [|x s IH]; simpl; [reflexivity|].
  intros H. apply andb_true_iff in H as [Hx Hs]. rewrite (IH Hs).
  destruct (Ascii.eqb_spec x c) as [-> | _]; [congruence | reflexivity].
Qed.

Lemma count_char_app (c : ascii) (a b : string) :
  count_char c (a ++ b) = count_char c a + count_char c b.
Proof.
  induction a as [|x a IH]; simpl; [reflexivity|]. rewrite IH. lia.
Qed.

End PrintableFacts.

(** X4.  Whatever the payload, the record that [emit_action] returns is a
    line break, a body of printable ASCII characters, and a line break:
    the JSON encoding escapes every control and non-ASCII character, so
    the record holds exactly two line breaks, its first and its last
    character. *)
Theorem emit_action_single_line (action_type : string) (data : Json.value) :
  exists body,
    Whiteboard.emit_action action_type data
    = Whiteboard.nl ++ body ++ Whiteboard.nl /\
    all_chars printable body = true /\
    count_char (ascii_of_nat 10) (Whiteboard.emit_action action_type data) = 2.
Proof.
  exists (Whiteboard.start_marker
            ++ Json.dumps (Whiteboard.action action_type data)
            ++ Whiteboard.end_marker).
  assert (Hp : all_chars printable
                 (Whiteboard.start_marker
                    ++ Json.dumps (Whiteboard.action action_type data)
                    ++ Whiteboard.end_marker) = true).
  { now rewrite !all_chars_app, dumps_printable. }
  assert (E : Whiteboard.emit_action action_type data
              = Whiteboard.nl
                  ++ (Whiteboard.start_marker
                        ++ Json.dumps (Whiteboard.action action_type data)
                        ++ Whiteboard.end_marker)
                  ++ Whiteboard.nl).
  { unfold Whiteboard.emit_action. now rewrite !sapp_assoc. }
  split; [exact E|]. split; [exact Hp|].
  rewrite E. revert Hp.
  generalize (Whiteboard.start_marker
                ++ Json.dumps (Whiteboard.action action_type data)
                ++ Whiteboard.end_marker).
  intros body Hp. rewrite !count_char_app.
  rewrite (printable_count (ascii_of_nat 10) body eq_refl Hp). reflexivity.
Qed.

(* ================================================================== *)
(** * How many records a ticker string gives *)
(* ================================================================== *)

Section TickerFacts.
Import PyStr.

Lemma split_length (sep : ascii) (s : string) :
  List.length (split sep s) = S (count_char sep s).
Proof.
  induction s as [|c s IH]; [reflexivity|].
  simpl. destruct (Ascii.eqb c sep); simpl; [now rewrite IH|].
  destruct (split sep s); simpl in *; [discriminate | exact IH].
Qed.

End TickerFacts.

(** X5.  [analyze_portfolio] emits one chart record for each of the first
    six pieces of the ticker string between commas: their number is the
    number of commas plus one, capped at six.  A string without comma, the
    empty string included, gives one record; an empty piece (two commas in
    a row, a comma at the end) gives a record for the empty ticker. *)
Theorem analyze_portfolio_record_count (tickers : string) :
  exists shown,
    Whiteboard.analyze_portfolio tickers
    = records_text
        (map (fun t => Whiteboard.emit_action Whiteboard.CREATE_CHART
                         (Whiteboard.chart_data t)) shown)
      ++ Whiteboard.nl ++ "Created portfolio view for: "
      ++ PyStr.join ", "
           (map (fun t => PyStr.upper (PyStr.strip t))
                (PyStr.split "," tickers)) /\
    List.length shown = Nat.min 6 (S (count_char "," tickers)) /\
    1 <= List.length shown.
Proof.
  exists (firstn 6 (map (fun t => PyStr.upper (PyStr.strip t))
                        (PyStr.split "," tickers))).
  split; [| split].
  - unfold Whiteboard.analyze_portfolio, PyStr.take.
    rewrite (collect_actions
               (fun t => Whiteboard.action Whiteboard.CREATE_CHART
                           (Whiteboard.chart_data t))).
    rewrite collect_result. simpl app. rewrite map_map. reflexivity.
  - now rewrite length_firstn, length_map, split_length.
  - rewrite length_firstn, length_map, split_length. lia.
Qed.

(* ================================================================== *)
(** * Code fences around the answer of the language model *)
(* ================================================================== *)

Section FenceFacts.
Import PyStr.

Lemma replace_skip (old new a s : string) :
  replace_from old new (String.length a) (a ++ s) = replace_from old new 0 s.
Proof. induction a as [|c a IH]; [reflexivity | exact IH]. Qed.

Lemma replace_from_unfold (old new : string) (c : ascii) (s : string) :
  replace_from old new 0 (String c s)
  = if starts_with old (String c s)
    then new ++ replace_from old new (String.length old - 1) s
    else String c (replace_from old new 0 s).
Proof. reflexivity. Qed.

Lemma replace_step (old new : string) (c : ascii) (s : string) :
  starts_with old (String c s) = false ->
  replace_from old new 0 (String c s) = String c (replace_from old new 0 s).
Proof. intros H. rewrite replace_from_unfold. now rewrite H. Qed.

Lemma replace_free (o : ascii) (old new a s : string) :
  mentions o a = false ->
  replace_from (String o old) new 0 (a ++ s)
  = a ++ replace_from (String o old) new 0 s.
Proof.
  induction a as [|x a IH]; intros H; [reflexivity|].
  simpl in H. apply orb_false_elim in H as [Hx Ha].
  simpl append. rewrite replace_step, IH by (assumption || (simpl; now rewrite Hx)).
  reflexivity.
Qed.

Lemma replace_head (o : ascii) (old new s : string) :
  replace_from (String o old) new 0 (String o old ++ s)
  = new ++ replace_from (String o old) new 0 s.
Proof.
  change (String o old ++ s) with (String o (old ++ s)).
  rewrite replace_from_unfold.
  change (String o (old ++ s)) with (String o old ++ s).
  rewrite starts_with_self.
  replace (String.length (String o old) - 1) with (String.length old)
    by (simpl; lia).
  now rewrite replace_skip.
Qed.

Lemma tick_free_mentions (s : string) :
  tick_free s = true -> mentions "`" s = false.
Proof.
  induction s as [|c s IH]; [reflexivity|].
  change (tick_free (String c s))
    with (negb (Ascii.eqb c "`") && tick_free s).
  change (mentions "`" (String c s))
    with (Ascii.eqb "`" c || mentions "`" s).
  intros H. apply andb_true_iff in H as [Hc Hs].
  apply negb_true_iff in Hc. rewrite Ascii.eqb_sym, Hc. auto.
Qed.

Lemma mentions_app (c : ascii) (a b : string) :
  mentions c (a ++ b) = mentions c a || mentions c b.
Proof.
  induction a as [|x a IH]; simpl; [reflexivity|]. now rewrite IH, orb_assoc.
Qed.

Lemma lstrip_app_blank (w s : string) :
  blank w = true -> lstrip (w ++ s) = lstrip s.
Proof.
  induction w as [|c w IH]; simpl; [reflexivity|].
  intros H. apply andb_true_iff in H as [Hc Hw]. rewrite Hc. auto.
Qed.

Lemma rstrip_blank (w : string) : blank w = true -> rstrip w = EmptyString.
Proof.
  induction w as [|c w IH]; [reflexivity|].
  intros H. simpl in H. apply andb_true_iff in H as [Hc Hw].
  rewrite rstrip_cons, (IH Hw), Hc. reflexivity.
Qed.

Lemma rstrip_app_blank (s w : string) :
  blank w = true -> rstrip (s ++ w) = rstrip s.
Proof.
  intros Hw. induction s as [|c s IH]; [now apply rstrip_blank|].
  simpl append. now rewrite !rstrip_cons, IH.
Qed.

Lemma lstrip_app (s w : string) :
  lstrip (s ++ w) = if blank s then lstrip w else lstrip s ++ w.
Proof.
  induction s as [|c s IH]; [reflexivity|].
  change (blank (String c s)) with (is_space c && blank s).
  simpl append. simpl lstrip.
  destruct (is_space c); simpl; [exact IH | reflexivity].
Qed.

Lemma strip_app_blank (s w : string) :
  blank w = true -> strip (s ++ w) = strip s.
Proof.
  intros Hw. unfold strip. rewrite lstrip_app.
  destruct (blank s) eqn:Hs.
  - now rewrite (lstrip_blank w Hw), (lstrip_blank s Hs).
  - now apply rstrip_app_blank.
Qed.

Lemma strip_between_blanks (w1 s w2 : string) :
  blank w1 = true -> blank w2 = true -> strip (w1 ++ s ++ w2) = strip s.
Proof.
  intros H1 H2. unfold strip. rewrite lstrip_app_blank by assumption.
  now apply strip_app_blank.
Qed.

Lemma json_fence_kept (z : string) :
  tick_free z = true ->
  replace_from "```json" EmptyString 0 (z ++ "```") = z ++ "```".
Proof.
  intros H. now rewrite replace_free by now apply tick_free_mentions.
Qed.

Lemma closing_fence_removed (z : string) :
  tick_free z = true -> replace_from "```" EmptyString 0 (z ++ "```") = z.
Proof.
  intros H. rewrite replace_free by now apply tick_free_mentions.
  change (replace_from "```" EmptyString 0 "```") with EmptyString.
  apply sapp_nil_r.
Qed.

Lemma plain_fence_kept (z : string) :
  tick_free z = true -> starts_with "json" z = false ->
  replace_from "```json" EmptyString 0 ("```" ++ z ++ "```")
  = "```" ++ z ++ "```".
Proof.
  intros H Hj.
  assert (Hz : match z with
               | EmptyString => True
               | String a _ => Ascii.eqb "`" a = false
               end).
  { destruct z as [|a z]; [exact I|].
    change (tick_free (String a z))
      with (negb (Ascii.eqb a "`") && tick_free z) in H.
    apply andb_true_iff in H as [Ha _]. apply negb_true_iff in Ha.
    now rewrite Ascii.eqb_sym. }
  assert (H0 : starts_with "```json" ("```" ++ z ++ "```") = false).
  { change (starts_with "```json" ("```" ++ z ++ "```"))
      with (starts_with "json" (z ++ String "`" "``")).
    now rewrite starts_with_cut by reflexivity. }
  assert (H1 : starts_with "```json" ("``" ++ z ++ "```") = false).
  { destruct z as [|a z]; [reflexivity|].
    change (starts_with "```json" ("``" ++ String a z ++ "```"))
      with (Ascii.eqb "`" a && starts_with "json" (z ++ "```")).
    now rewrite Hz. }
  assert (H2 : starts_with "```json" ("`" ++ z ++ "```") = false).
  { destruct z as [|a z]; [reflexivity|].
    change (starts_with "```json" ("`" ++ String a z ++ "```"))
      with (Ascii.eqb "`" a && starts_with "`json" (z ++ "```")).
    now rewrite Hz. }
  change ("```" ++ z ++ "```")
    with (String "`" (String "`" (String "`" (z ++ "```")))) at 1.
  rewrite replace_step by exact H0.
  rewrite replace_step by exact H1.
  rewrite replace_step by exact H2.
  now rewrite json_fence_kept.
Qed.

End FenceFacts.

(** X6.  [research_and_learn] decodes the body of a fenced answer: for a
    text [z] without backtick, the answer [z] itself, the answer [z]
    between a json fence and a closing fence, and (when [z] does not begin
    with the word json) the answer [z] between two plain fences are all
    cleaned to [z] trimmed. *)
Theorem clean_json_unwraps_fences (z : string) :
  tick_free z = true ->
  Tools.clean_json z = PyStr.strip z /\
  Tools.clean_json ("```json" ++ z ++ "```") = PyStr.strip z /\
  (PyStr.starts_with "json" z = false ->
   Tools.clean_json ("```" ++ z ++ "```") = PyStr.strip z).
Proof.
  intros H. unfold Tools.clean_json, PyStr.replace. split; [| split].
  - rewrite <- (sapp_nil_r z) at 1 2.
    rewrite !replace_free by now apply tick_free_mentions.
    simpl. now rewrite sapp_nil_r.
  - rewrite replace_head. simpl append at 1.
    now rewrite json_fence_kept, closing_fence_removed.
  - intros Hj. rewrite plain_fence_kept by assumption.
    rewrite replace_head. simpl append at 1.
    now rewrite closing_fence_removed.
Qed.

Lemma clean_json_unwraps_fences_witness :
  let z := String (ascii_of_nat 10) "{}" ++ String (ascii_of_nat 10) "" in
  tick_free z = true /\
  Tools.clean_json ("```json" ++ z ++ "```") = "{}".
Proof.
  intros z. split; [reflexivity |].
  destruct (clean_json_unwraps_fences z eq_refl) as (_ & H & _).
  exact H.
Defined.

(* ================================================================== *)
(** * What the ingestion never does *)
(* ================================================================== *)

Section ClosedFacts.
Import Graph.

Lemma persists_keys (g g' : graph) (a : node) :
  persists g g' -> In a (nodes g) ->
  exists a', In a' (nodes g') /\ node_key a' = node_key a.
Proof.
  intros (old & new & E & F) Ha.
  destruct (Forall2_in_l _ _ _ a F Ha) as (a' & Ha' & (K & _)).
  exists a'. split; [rewrite E; apply in_or_app; now left | exact K].
Qed.

Lemma fold_link_edges (type : string) (l : list (node * node)) (g : graph)
  (e : edge) :
  In e (edges (fold_left (fun g' ab => link type ab g') l g)) ->
  In e (edges g) \/
  exists ab, In ab l /\ e = edge_between (fst ab) type (snd ab).
Proof.
  revert g. induction l as [|ab l IH]; intros g H; [now left|].
  simpl in H. apply IH in H as [H | (ab' & Hin & ->)].
  - unfold link, merge_edge in H.
    destruct (has_edge _ g); [now left|].
    simpl in H. apply in_app_or in H as [H | [<- | []]]; [now left|].
    right. exists ab. split; [now left | reflexivity].
  - right. exists ab'. split; [now right | reflexivity].
Qed.

Lemma edges_closed_merge_rel (type source target : string) (g : graph) :
  edges_closed g -> edges_closed (merge_rel type source target g).
Proof.
  intros Hc e He.
  destruct (extends_merge_rel type source target g) as (N & _). rewrite N.
  unfold merge_rel in He. apply fold_link_edges in He as [He | ([a b] & Hin & ->)].
  - now apply Hc.
  - apply in_prod_iff in Hin as [Ha Hb].
    apply filter_In in Ha as [Ha _]. apply filter_In in Hb as [Hb _].
    split; [exists a | exists b]; split; auto.
Qed.

Lemma edges_closed_persists (g g' : graph) :
  persists g g' -> edges g' = edges g -> edges_closed g -> edges_closed g'.
Proof.
  intros P E Hc e He. rewrite E in He. destruct (Hc e He) as [(a & Ha & Ka) (b & Hb & Kb)].
  destruct (persists_keys g g' a P Ha) as (a' & Ha' & Ka').
  destruct (persists_keys g g' b P Hb) as (b' & Hb' & Kb').
  split; [exists a' | exists b']; split; auto; congruence.
Qed.

Lemma edges_merge_node (l x : string) (g : graph) :
  edges (merge_node l x g) = edges g.
Proof. unfold merge_node. destruct (existsb _ _); reflexivity. Qed.

Lemma edges_closed_apply (st : Tools.stmt) (g : graph) :
  edges_closed g -> edges_closed (Tools.apply st g).
Proof.
  destruct st as [l x | x | t a b]; simpl.
  - apply edges_closed_persists;
      [apply persists_merge_node | apply edges_merge_node].
  - apply edges_closed_persists; [|reflexivity].
    apply relabelled_persists, relabelled_set_label.
  - apply edges_closed_merge_rel.
Qed.

Lemma edges_closed_replay (l : list Tools.stmt) (g : graph) :
  edges_closed g -> edges_closed (replay l g).
Proof.
  revert g. induction l as [|st l IH]; intros g H; [exact H|].
  apply IH. now apply edges_closed_apply.
Qed.

(** The store after [research_and_learn] is the store it found or the
    store after [ingest] on some decoded answer. *)
Lemma research_and_learn_world (e : Tools.env) (topic : string)
  (w : Tools.world) :
  snd (Tools.research_and_learn e topic w) = w \/
  exists data, snd (Tools.research_and_learn e topic w)
               = snd (Tools.ingest e data w).
Proof.
  unfold Tools.research_and_learn, Tools.try_except, Tools.bind, Tools.lift,
    Tools.ret.
  destruct (Tools.SEARCH_AVAILABLE e); [|now left].
  destruct (Tools.search_invoke e (Tools.search_query topic)) as [raw | msg];
    [|now left].
  destruct (Tools.llm_invoke e raw) as [response | msg]; [|now left].
  destruct (Tools.json_loads e (Tools.clean_json response)) as [data | msg];
    [|now left].
  right. exists data.
  destruct (Tools.ingest e data w) as [[s | msg] w']; reflexivity.
Qed.

Lemma map_fixed {A : Type} (f : A -> A) (l : list A) :
  (forall x, In x l -> f x = x) -> map f l = l.
Proof.
  induction l as [|x l IH]; intros H; simpl; [reflexivity|].
  rewrite H by now left. f_equal. apply IH. intros y Hy. apply H. now right.
Qed.



Lemma graph_eta (g : graph) : mk_graph (nodes g) (edges g) (next_key g) = g.
Proof. destruct g; reflexivity. Qed.

End ClosedFacts.

(** X7.  [research_and_learn] leaves no dangling edge: on a store where
    every edge joins two nodes, every edge still joins two nodes after the
    tool has run, whatever the oracles answer and wherever the store
    fails.  The edge merge matches its two ends before it merges, so it
    never makes an edge to a node that is not there. *)
Theorem research_and_learn_no_dangling_edge
  (e : Tools.env) (topic : string) (w : Tools.world) :
  edges_closed (Tools.db w) ->
  edges_closed (Tools.db (snd (Tools.research_and_learn e topic w))).
Proof.
  intros H.
  destruct (research_and_learn_world e topic w) as [-> | [data ->]];
    [exact H|].
  destruct (ingest_trace e data w) as (k & _ & _ & -> & _).
  now apply edges_closed_replay.
Qed.

Lemma research_and_learn_no_dangling_edge_witness :
  let w' := snd (Tools.research_and_learn acme_found "acme" acme_world) in
  edges_closed (Tools.db acme_world) /\
  List.length (Graph.edges (Tools.db acme_world)) = 1 /\
  List.length (Tools.applied w') = 8 /\
  List.length (Graph.edges (Tools.db w')) = 3 /\
  edges_closed (Tools.db w').
Proof.
  intros w'.
  assert (H : edges_closed (Tools.db acme_world)).
  { intros ed [<- | []]. split.
    - exists (Graph.mk_node 0 ["Organization"] [("id", "Acme Corp")]).
      split; [now left | reflexivity].
    - exists (Graph.mk_node 1 ["Person"] [("id", "Jane Doe")]).
      split; [right; now left | reflexivity]. }
  split; [exact H |]. split; [reflexivity |]. split; [reflexivity |].
  split; [reflexivity |].
  exact (research_and_learn_no_dangling_edge acme_found "acme" acme_world H).
Defined.



(* ================================================================== *)
(** * Where the nodes of the store come from *)
(* ================================================================== *)

Section OriginFacts.
Import Graph.

Lemma apply_origin (st : Tools.stmt) (g : graph) (n1 : node) :
  In n1 (nodes (Tools.apply st g)) ->
  (exists n, In n (nodes g) /\ grown n n1) \/
  (exists l x, st = Tools.MergeNode l x /\ matches l x n1 = true).
Proof.
  intros H. destruct (Tools.is_node_merge st) eqn:Hm.
  - destruct st as [l x | |]; try discriminate. simpl in H.
    destruct (merge_node_cases l x g) as [[_ E] | (_ & E & _)]; rewrite E in H.
    + left. exists n1. split; [assumption | apply grown_refl].
    + apply in_app_or in H as [H | [<- | []]].
      * left. exists n1. split; [assumption | apply grown_refl].
      * right. exists l, x. split; [reflexivity|].
        unfold matches, has_label, id_is. simpl. now rewrite !String.eqb_refl.
  - left. destruct (apply_relabels st g Hm) as [R _].
    destruct (Forall2_in_r _ _ _ n1 R H) as (n & Hn & Hg). eauto.
Qed.

Lemma replay_origin (data : Tools.extraction) (l : list Tools.stmt) :
  (forall lab x, In (Tools.MergeNode lab x) l ->
     exists key, In key list_keys /\ lab = Tools.label_of key /\
                 In x (Tools.get key data)) ->
  forall g n', In n' (nodes (replay l g)) ->
    (exists n, In n (nodes g) /\ grown n n') \/ mentioned data n'.
Proof.
  induction l as [|st l IH]; intros Hl g n' H.
  - left. exists n'. split; [exact H | apply grown_refl].
  - change (replay (st :: l) g) with (replay l (Tools.apply st g)) in H.
    apply IH in H; [| intros lab x Hin; apply Hl; now right].
    destruct H as [(n1 & Hn1 & Hg1) | Hm]; [| now right].
    apply apply_origin in Hn1 as [(n & Hn & Hg) | (lab & x & -> & Hmatch)].
    + left. exists n. split; [exact Hn | eapply grown_trans; eassumption].
    + right. destruct (Hl lab x (or_introl eq_refl)) as (key & Hk & -> & Hx).
      exists key, x. repeat split; auto.
      eapply grown_matches; eassumption.
Qed.

Lemma plan_merges_mentions (data : Tools.extraction) (lab x : string) :
  In (Tools.MergeNode lab x) (plan data) ->
  exists key, In key list_keys /\ lab = Tools.label_of key /\
              In x (Tools.get key data).
Proof.
  unfold plan. intros H. apply in_app_or in H as [H | H].
  - unfold node_plan in H. apply in_flat_map in H as (key & Hk & H).
    apply in_map_iff in H as (item & [= <- <-] & Hi). eauto.
  - pose proof (rel_plan_no_merge data) as F.
    rewrite Forall_forall in F. specialize (F _ H). discriminate F.
Qed.

Lemma In_firstn {A : Type} (k : nat) (l : list A) (x : A) :
  In x (firstn k l) -> In x l.
Proof.
  intros H. rewrite <- (firstn_skipn k l). apply in_or_app. now left.
Qed.

End OriginFacts.

(** X9.  When every relationship type, upper-cased, is a name (the type
    is written into the text of the statement), the ingestion creates
    nodes for the mentions of the four lists and for nothing else: every
    node of the store after the ingestion is a node the store already had
    (same identity and properties, at least the same labels) or carries
    the label and the id of a mention of the decoded answer.  A name that
    only occurs in a relationship gets no node. *)
Theorem ingest_creates_only_mentions
  (e : Tools.env) (data : Tools.extraction) (w : Tools.world)
  (n' : Graph.node) :
  types_named data ->
  In n' (Graph.nodes (Tools.db (snd (Tools.ingest e data w)))) ->
  (exists n, In n (Graph.nodes (Tools.db w)) /\ grown n n') \/
  mentioned data n'.
Proof.
  intros _.
  destruct (ingest_trace e data w) as (k & _ & _ & -> & _).
  apply replay_origin. intros lab x H.
  apply plan_merges_mentions. eapply In_firstn. eassumption.
Qed.

Lemma ingest_creates_only_mentions_witness :
  let data :=
    Tools.Build_extraction ["Acme Corp"] [] [] []
      [ Tools.Build_relationship "Acorn Ventures" "Acme Corp" "INVESTED_IN" ] in
  let n' := Graph.mk_node 0 ["Organization"] [("id", "Acme Corp")] in
  types_named data /\
  In n' (Graph.nodes (Tools.db (snd (Tools.ingest quiet data fresh_world)))) /\
  Graph.nodes (Tools.db (snd (Tools.ingest quiet data fresh_world))) = [n'] /\
  ((exists n, In n (Graph.nodes (Tools.db fresh_world)) /\ grown n n') \/
   mentioned data n').
Proof.
  intros data n'.
  assert (Ht : types_named data).
  { intros rel [<- | []]. reflexivity. }
  assert (H : In n' (Graph.nodes
                       (Tools.db (snd (Tools.ingest quiet data fresh_world)))))
    by (simpl; auto).
  split; [exact Ht | split; [exact H | split; [reflexivity |]]].
  apply (ingest_creates_only_mentions quiet data fresh_world n' Ht H).
Defined.

(* ================================================================== *)
(** * Ingesting the same answer again *)
(* ================================================================== *)

Section ReingestFacts.
Import Graph.

Lemma run_ok (e : Tools.env) (l : list Tools.stmt) (w : Tools.world) :
  store_up e ->
  Forall (fun st => Tools.well_formed st = true) l ->
  Tools.for_each l (Tools.query e) w
  = (Ok tt, {| Tools.db := replay l (Tools.db w);
               Tools.applied := (Tools.applied w ++ l)%list |}).
Proof.
  intros Hup H. revert w. induction H as [|st l Hst _ IH]; intros w.
  - simpl. unfold Tools.ret. rewrite app_nil_r. destruct w; reflexivity.
  - simpl Tools.for_each. unfold Tools.bind.
    unfold Tools.query at 1. unfold Tools.exec. rewrite (Hup _), Hst.
    rewrite IH. simpl. now rewrite <- app_assoc.
Qed.

Lemma label_of_named (key : string) :
  Cypher.is_symbolic_name (Tools.label_of key) = true.
Proof.
  unfold Tools.label_of.
  destruct (String.eqb key "companies"); [reflexivity|].
  destruct (String.eqb key "people"); [reflexivity|].
  destruct (String.eqb key "sectors"); reflexivity.
Qed.

Lemma plan_well_formed (data : Tools.extraction) :
  types_named data ->
  Forall (fun st => Tools.well_formed st = true) (plan data).
Proof.
  intros Ht. unfold plan. apply Forall_app. split.
  - unfold node_plan. apply Forall_flat_map, Forall_forall. intros key _.
    apply Forall_map, Forall_forall. intros item _. apply label_of_named.
  - unfold rel_plan. apply Forall_flat_map, Forall_forall. intros rel Hrel.
    unfold rel_stmts.
    destruct (String.eqb _ "INVESTED_IN"); repeat constructor;
      simpl; now apply Ht.
Qed.

Lemma replay_persists (l : list Tools.stmt) (g : graph) :
  persists g (replay l g).
Proof.
  revert g. induction l as [|st l IH]; intros g; [apply persists_refl|].
  eapply persists_trans; [apply persists_apply | apply IH].
Qed.

Lemma has_edge_apply (st : Tools.stmt) (g : graph) (e : edge) :
  has_edge e g = true -> has_edge e (Tools.apply st g) = true.
Proof.
  destruct st as [l x | x | t a b]; simpl.
  - unfold has_edge. now rewrite edges_merge_node.
  - auto.
  - apply extends_merge_rel.
Qed.

Lemma has_edge_replay (l : list Tools.stmt) (g : graph) (e : edge) :
  has_edge e g = true -> has_edge e (replay l g) = true.
Proof.
  revert g. induction l as [|st l IH]; intros g H; [exact H|].
  apply IH. now apply has_edge_apply.
Qed.

Lemma merge_node_settled (l x : string) (g : graph) :
  (exists n, In n (nodes g) /\ matches l x n = true) -> merge_node l x g = g.
Proof.
  intros H. unfold merge_node.
  assert (E : existsb (matches l x) (nodes g) = true)
    by now apply existsb_exists.
  now rewrite E.
Qed.

Lemma set_label_settled (name l : string) (g : graph) :
  (forall n, In n (nodes g) -> id_is name n = true -> has_label l n = true) ->
  set_label name l g = g.
Proof.
  intros H. unfold set_label. rewrite map_fixed; [apply graph_eta|].
  intros n Hn. destruct (id_is name n) eqn:Hid; [|reflexivity].
  unfold add_label. now rewrite (H n Hn Hid).
Qed.

Lemma merge_rel_settled (type source target : string) (g : graph) :
  (forall a b, In a (nodes g) -> In b (nodes g) ->
     id_is source a = true -> id_is target b = true ->
     has_edge (edge_between a type b) g = true) ->
  merge_rel type source target g = g.
Proof.
  intros H. unfold merge_rel. apply fold_link_settled.
  intros [a b] Hin. apply in_prod_iff in Hin as [Ha Hb].
  apply filter_In in Ha as [Ha Hs]. apply filter_In in Hb as [Hb Ht].
  now apply H.
Qed.

(** A statement of the relationships is followed by statements that
    upsert no node. *)
Lemma plan_split_rel (data : Tools.extraction) (st : Tools.stmt) :
  In st (plan data) -> Tools.is_node_merge st = false ->
  exists l1 l2,
    plan data = (l1 ++ st :: l2)%list /\
    Forall (fun s => Tools.is_node_merge s = false) l2.
Proof.
  intros Hin Hm. unfold plan in *. apply in_app_or in Hin as [Hin | Hin].
  - pose proof (node_plan_merges data) as F. rewrite Forall_forall in F.
    rewrite (F _ Hin) in Hm. discriminate.
  - apply in_split in Hin as (r1 & r2 & E).
    exists (node_plan data ++ r1)%list, r2. split.
    + now rewrite E, app_assoc.
    + pose proof (rel_plan_no_merge data) as F. rewrite E in F.
      apply Forall_app in F as [_ F]. now inversion F.
Qed.

(** After the whole plan, each of its statements changes nothing. *)
Lemma plan_settled (data : Tools.extraction) (g : graph) (st : Tools.stmt) :
  In st (plan data) ->
  Tools.apply st (replay (plan data) g) = replay (plan data) g.
Proof.
  intros Hin. destruct st as [l x | x | t a b].
  - apply in_split in Hin as (l1 & l2 & E). rewrite E, replay_app.
    change (replay (Tools.MergeNode l x :: l2) (replay l1 g))
      with (replay l2 (merge_node l x (replay l1 g))).
    simpl. apply merge_node_settled.
    eapply persists_matches; [apply replay_persists | apply merge_node_found].
  - destruct (plan_split_rel data _ Hin eq_refl) as (l1 & l2 & E & F).
    rewrite E, replay_app.
    change (replay (Tools.SetInvestor x :: l2) (replay l1 g))
      with (replay l2 (set_label x "Investor" (replay l1 g))).
    simpl. apply set_label_settled. intros n Hn Hid.
    pose proof (replay_relabels l2 (set_label x "Investor" (replay l1 g)) F) as R.
    destruct (Forall2_in_r _ _ _ n R Hn) as (n0 & Hn0 & (_ & Hp & Hl)).
    apply has_label_In, Hl, has_label_In.
    apply (set_label_labels x "Investor" (replay l1 g) n0 Hn0).
    now rewrite <- (id_is_props x n0 n Hp).
  - destruct (plan_split_rel data _ Hin eq_refl) as (l1 & l2 & E & F).
    rewrite E, replay_app.
    change (replay (Tools.MergeRel t a b :: l2) (replay l1 g))
      with (replay l2 (merge_rel t a b (replay l1 g))).
    simpl. apply merge_rel_settled. intros n m Hn Hm Hs Ht.
    pose proof (replay_relabels l2 (merge_rel t a b (replay l1 g)) F) as R.
    destruct (Forall2_in_r _ _ _ n R Hn) as (n0 & Hn0 & (Kn & Pn & _)).
    destruct (Forall2_in_r _ _ _ m R Hm) as (m0 & Hm0 & (Km & Pm & _)).
    apply has_edge_replay.
    replace (edge_between n t m) with (edge_between n0 t m0)
      by (unfold edge_between; congruence).
    destruct (extends_merge_rel t a b (replay l1 g)) as (N & _).
    rewrite N in Hn0, Hm0.
    apply merge_rel_links; try assumption.
    + now rewrite <- (id_is_props a n0 n Pn).
    + now rewrite <- (id_is_props b m0 m Pm).
Qed.

Lemma replay_settled (l : list Tools.stmt) (g : graph) :
  (forall st, In st l -> Tools.apply st g = g) -> replay l g = g.
Proof.
  induction l as [|st l IH]; intros H; [reflexivity|].
  change (replay (st :: l) g) with (replay l (Tools.apply st g)).
  rewrite H by now left. apply IH. intros st' Hst. apply H. now right.
Qed.

Lemma ingest_ok (e : Tools.env) (data : Tools.extraction) (w : Tools.world) :
  store_up e -> types_named data ->
  Tools.ingest e data w
  = (Ok (Tools.summary_of data),
     {| Tools.db := replay (plan data) (Tools.db w);
        Tools.applied := (Tools.applied w ++ plan data)%list |}).
Proof.
  intros Hup Ht. rewrite ingest_as_plan. unfold Tools.bind.
  now rewrite (run_ok e (plan data) w Hup (plan_well_formed data Ht)).
Qed.

End ReingestFacts.

(** X10.  The ingestion is idempotent.  When the store answers and every
    relationship type is a name, ingesting an extraction result returns
    its summary, and ingesting the same result again returns the same
    summary and leaves every node, label and edge of the store as the
    first ingestion left them: the statements are issued again and change
    nothing. *)
Theorem ingest_twice_changes_nothing
  (e : Tools.env) (data : Tools.extraction) (w : Tools.world) :
  store_up e -> types_named data ->
  let once := Tools.ingest e data w in
  let twice := Tools.ingest e data (snd once) in
  fst once = Ok (Tools.summary_of data) /\
  fst twice = Ok (Tools.summary_of data) /\
  Tools.db (snd twice) = Tools.db (snd once) /\
  Tools.applied (snd twice)
  = (Tools.applied w ++ plan data ++ plan data)%list.
Proof.
  intros Hup Ht once twice. subst once twice.
  rewrite !(ingest_ok e data _ Hup Ht). simpl.
  repeat split.
  - apply replay_settled. intros st Hst. now apply plan_settled.
  - now rewrite <- app_assoc.
Qed.

Lemma ingest_twice_changes_nothing_witness :
  let data :=
    Tools.Build_extraction ["Acme Corp"; "Acorn Ventures"] ["Jane Doe"] [] []
      [ Tools.Build_relationship "Jane Doe" "Acme Corp" "leads";
        Tools.Build_relationship "Acorn Ventures" "Acme Corp" "INVESTED_IN" ] in
  store_up quiet /\ types_named data /\
  Tools.db (snd (Tools.ingest quiet data
                   (snd (Tools.ingest quiet data fresh_world))))
  = Tools.db (snd (Tools.ingest quiet data fresh_world)).
Proof.
  intros data.
  assert (Hup : store_up quiet) by (intros n; reflexivity).
  assert (Ht : types_named data).
  { intros rel [<- | [<- | []]]; reflexivity. }
  split; [exact Hup | split; [exact Ht |]].
  apply (ingest_twice_changes_nothing quiet data fresh_world Hup Ht).
Defined.

(* ================================================================== *)
(** * A store that fails in the middle of the writes *)
(* ================================================================== *)

Section PartialFacts.

Lemma run_fault (e : Tools.env) (l : list Tools.stmt) (k : nat) (msg : string) :
  forall w,
  store_fails_after e w k msg ->
  k < List.length l ->
  Forall (fun st => Tools.well_formed st = true) l ->
  Tools.for_each l (Tools.query e) w
  = (Raise msg, {| Tools.db := replay (firstn k l) (Tools.db w);
                   Tools.applied := (Tools.applied w ++ firstn k l)%list |}).
Proof.
  revert l. induction k as [|k IH]; intros l w [Hbefore Hat] Hk Hwf.
  - destruct l as [|st l]; [simpl in Hk; lia|].
    simpl Tools.for_each. unfold Tools.bind. unfold Tools.query at 1.
    rewrite Nat.add_0_r in Hat. rewrite Hat. simpl.
    rewrite app_nil_r. destruct w; reflexivity.
  - destruct l as [|st l]; [simpl in Hk; lia|].
    inversion Hwf as [|? ? Hst Hl]; subst.
    simpl Tools.for_each. unfold Tools.bind. unfold Tools.query at 1.
    unfold Tools.exec.
    rewrite <- (Nat.add_0_r (List.length (Tools.applied w))).
    rewrite (Hbefore 0) by lia. rewrite Hst.
    rewrite (IH l); [| | simpl in Hk; lia | assumption].
    + simpl. now rewrite <- app_assoc.
    + split; simpl; rewrite length_app; simpl.
      * intros i Hi. replace (_ + 1 + i) with (List.length (Tools.applied w) + S i) by lia.
        apply Hbefore. lia.
      * replace (_ + 1 + k) with (List.length (Tools.applied w) + S k) by lia.
        exact Hat.
Qed.

End PartialFacts.

(** X11.  The writes of [research_and_learn] are not undone when the
    store fails.  When the search, the model and the decoding succeed,
    every relationship type is a name, and the store answers [k]
    statements and then fails with a message, the tool returns ["Error: "]
    followed by that message, and the first [k] statements of the
    ingestion stay applied. *)
Theorem store_failure_keeps_partial_writes
  (e : Tools.env) (w : Tools.world) (topic raw_text response : string)
  (data : Tools.extraction) (k : nat) (msg : string) :
  Tools.SEARCH_AVAILABLE e = true ->
  Tools.search_invoke e (Tools.search_query topic) = Ok raw_text ->
  Tools.llm_invoke e raw_text = Ok response ->
  Tools.json_loads e (Tools.clean_json response) = Ok data ->
  types_named data ->
  store_fails_after e w k msg ->
  k < List.length (plan data) ->
  Tools.research_and_learn e topic w
  = (Ok ("Error: " ++ msg),
     {| Tools.db := replay (firstn k (plan data)) (Tools.db w);
        Tools.applied := (Tools.applied w ++ firstn k (plan data))%list |}).
Proof.
  intros Ha Hs Hl Hj Ht Hf Hk.
  unfold Tools.research_and_learn, Tools.try_except, Tools.bind, Tools.lift,
    Tools.ret.
  rewrite Ha, Hs, Hl, Hj.
  rewrite ingest_as_plan. unfold Tools.bind.
  now rewrite (run_fault e (plan data) k msg w Hf Hk (plan_well_formed data Ht)).
Qed.

Lemma store_failure_keeps_partial_writes_witness :
  let e := store_down_after 2 "ServiceUnavailable" in
  let data :=
    Tools.Build_extraction ["Acme Corp"; "Acorn Ventures"] ["Jane Doe"] [] [] [] in
  store_fails_after e fresh_world 2 "ServiceUnavailable" /\
  2 < List.length (plan data) /\
  Tools.research_and_learn e "acme" fresh_world
  = (Ok "Error: ServiceUnavailable",
     {| Tools.db :=
          Graph.merge_node "Organization" "Acorn Ventures"
            (Graph.merge_node "Organization" "Acme Corp" Graph.empty);
        Tools.applied :=
          [ Tools.MergeNode "Organization" "Acme Corp";
            Tools.MergeNode "Organization" "Acorn Ventures" ] |}).
Proof.
  intros e data.
  assert (Hf : store_fails_after e fresh_world 2 "ServiceUnavailable").
  { split; [| reflexivity]. intros [|[|i]] Hi; try reflexivity. lia. }
  assert (Hk : 2 < List.length (plan data)) by (simpl; lia).
  split; [exact Hf | split; [exact Hk |]].
  apply (store_failure_keeps_partial_writes e fresh_world "acme"
           EmptyString "{}" data 2 "ServiceUnavailable");
    try reflexivity; try assumption.
  intros rel [].
Defined.

(* ================================================================== *)
(** * The texts of [seed_company], read back *)
(* ================================================================== *)

Section SeedTextFacts.

Lemma company_text_read_back (name : string) (data : Seed.company_data) :
  seed_safe name data ->
  Cypher.read_as Seed.company_pieces (Seed.company_text name data)
  = Some [ name; Seed.valuation data; Seed.sector data;
           Seed.description data; Seed.status data ].
Proof.
  intros (Hn & Hv & Hs & Ht & Hd & _). unfold Seed.company_text.
  apply read_as_fill.
  - repeat constructor.
  - repeat constructor;
      solve [ now apply reads_plain | now apply escape_quotes_reads ].
  - reflexivity.
Qed.

Lemma investor_text_read_back (name investor : string) :
  plain name = true -> backslash_free investor = true ->
  Cypher.read_as Seed.investor_pieces (Seed.investor_text name investor)
  = Some [investor; name].
Proof.
  intros Hn Hi. unfold Seed.investor_text. apply read_as_fill.
  - repeat constructor.
  - repeat constructor; [now apply escape_quotes_reads | now apply reads_plain].
  - reflexivity.
Qed.

End SeedTextFacts.

(** X12.  For a company name without quote or backslash and other values
    without backslash, every statement of [seed_company] is read by the
    engine as the statement of its template, with the values of the
    dataset as its literals: a quote in a description or in a founder's
    name is escaped and read back as a quote. *)
Theorem seed_company_texts_read_back
  (name : string) (data : Seed.company_data) :
  seed_safe name data ->
  Cypher.read_as Seed.company_pieces (Seed.company_text name data)
  = Some [ name; Seed.valuation data; Seed.sector data;
           Seed.description data; Seed.status data ] /\
  (forall founder, In founder (Seed.founders data) ->
     Cypher.read_as Seed.founder_pieces (Seed.founder_text name founder)
     = Some [founder; name]) /\
  (forall investor, In investor (Seed.investors data) ->
     Cypher.read_as Seed.investor_pieces (Seed.investor_text name investor)
     = Some [investor; name]).
Proof.
  intros Hsafe. split; [now apply company_text_read_back|].
  destruct Hsafe as (Hn & _ & _ & _ & _ & Hf & Hi).
  rewrite Forall_forall in Hf, Hi. split.
  - intros founder Hin. apply founder_text_read_back; auto.
  - intros investor Hin. apply investor_text_read_back; auto.
Qed.

Lemma seed_company_texts_read_back_witness :
  seed_safe "OpenAI" openai_data /\
  Cypher.read_as Seed.company_pieces (Seed.company_text "OpenAI" openai_data)
  = Some [ "OpenAI"; Seed.valuation openai_data; Seed.sector openai_data;
           Seed.description openai_data; Seed.status openai_data ].
Proof.
  assert (H : seed_safe "OpenAI" openai_data).
  { unfold seed_safe.
    split; [reflexivity|]. split; [reflexivity|]. split; [reflexivity|].
    split; [reflexivity|]. split; [reflexivity|].
    split; repeat (apply Forall_cons; [reflexivity|]); apply Forall_nil. }
  split; [exact H |].
  destruct (seed_company_texts_read_back "OpenAI" openai_data H) as [Hc _].
  exact Hc.
Defined.

(* ================================================================== *)
(** * Running [create_competition] again *)
(* ================================================================== *)

Section CompetitionAgain.
Import Graph Seed.

Lemma link_settled (type : string) (ab : node * node) (g : graph) :
  has_edge (edge_between (fst ab) type (snd ab)) g = true ->
  link type ab g = g.
Proof. intros H. unfold link, merge_edge. unfold edge_between in H. now rewrite H. Qed.

Lemma compete_settled (x y : string) (g : graph) :
  (forall a b, In a (nodes g) -> In b (nodes g) ->
     matches "Organization" x a = true -> matches "Organization" y b = true ->
     has_edge (edge_between a "COMPETES_WITH" b) g = true /\
     has_edge (edge_between b "COMPETES_WITH" a) g = true) ->
  compete x y g = g.
Proof.
  intros H. unfold compete.
  generalize (fun ab Hin =>
    proj1 (in_prod_iff (filter (matches "Organization" x) (nodes g))
             (filter (matches "Organization" y) (nodes g)) (fst ab) (snd ab)) Hin).
  generalize (list_prod (filter (matches "Organization" x) (nodes g))
                        (filter (matches "Organization" y) (nodes g))).
  intros l Hl. induction l as [|[a b] l IH]; [reflexivity|].
  simpl fold_left.
  destruct (Hl (a, b) (or_introl eq_refl)) as [Ha Hb]. simpl in Ha, Hb.
  apply filter_In in Ha as [Ha Hx]. apply filter_In in Hb as [Hb Hy].
  destruct (H a b Ha Hb Hx Hy) as [Hab Hba].
  rewrite (link_settled "COMPETES_WITH" (a, b) g Hab).
  rewrite (link_settled "COMPETES_WITH" (b, a) g Hba).
  apply IH. intros ab Hin. apply Hl. now right.
Qed.

Lemma fold_settled {A : Type} (step : graph -> A -> graph) (l : list A)
  (g : graph) :
  (forall x, In x l -> step g x = g) -> fold_left step l g = g.
Proof.
  induction l as [|x l IH]; intros H; [reflexivity|].
  simpl. rewrite H by now left. apply IH. intros y Hy. apply H. now right.
Qed.

Lemma competition_rows_settled (companies : list string) (g : graph) :
  let g1 := fold_left (competition_row companies)
                      (range 0 (List.length companies)) g in
  fold_left (competition_row companies) (range 0 (List.length companies)) g1
  = g1.
Proof.
  intros g1.
  assert (N : nodes g1 = nodes g).
  { apply (fold_extends (competition_row companies) (extends_row companies)). }
  apply fold_settled. intros i Hi. unfold competition_row.
  apply fold_settled. intros j Hj.
  unfold range in Hi, Hj. apply in_seq in Hi, Hj.
  apply compete_settled. intros a b Ha Hb Hx Hy. rewrite N in Ha, Hb.
  apply (competition_pair companies g i j a b); try assumption; lia.
Qed.

End CompetitionAgain.

(** X13.  [create_competition] can be run again: for names without quote
    or backslash it runs to its end, and running it once more on the
    graph it left also runs to its end and changes nothing.  On a list of
    fewer than two names, whatever the names, it sends no statement and
    returns the graph as it is. *)
Theorem create_competition_again_changes_nothing
  (companies : list string) (g : Graph.graph) :
  (List.length companies <= 1 -> Seed.create_competition companies g = Ok g) /\
  (Forall (fun c => plain c = true) companies ->
   exists g1,
     Seed.create_competition companies g = Ok g1 /\
     Seed.create_competition companies g1 = Ok g1).
Proof.
  split.
  - intros H. destruct companies as [|c [|d l]]; [reflexivity | reflexivity |].
    simpl in H. lia.
  - intros Hp. eexists. split; [now apply create_competition_plain|].
    rewrite create_competition_plain by assumption. f_equal.
    apply competition_rows_settled.
Qed.

Lemma create_competition_again_changes_nothing_witness :
  let g := Graph.merge_node "Organization" "Swiggy"
             (Graph.merge_node "Organization" "Zomato" Graph.empty) in
  Forall (fun c => plain c = true) ["Zomato"; "Swiggy"; "Meesho"] /\
  exists g1,
    Seed.create_competition ["Zomato"; "Swiggy"; "Meesho"] g = Ok g1 /\
    Seed.create_competition ["Zomato"; "Swiggy"; "Meesho"] g1 = Ok g1.
Proof.
  intros g.
  assert (Hp : Forall (fun c => plain c = true) ["Zomato"; "Swiggy"; "Meesho"])
    by (repeat (apply Forall_cons; [reflexivity|]); apply Forall_nil).
  split; [exact Hp |].
  destruct (create_competition_again_changes_nothing
              ["Zomato"; "Swiggy"; "Meesho"] g) as [_ H].
  exact (H Hp).
Defined.

(* ================================================================== *)
(** * The effect of [seed_company] *)
(* ================================================================== *)

Section SeedFacts.
Import Graph SeedRun.

Lemma lookup_assign_same (k v : string) (m : list (string * string)) :
  lookup k (assign k v m) = Some v.
Proof.
  induction m as [|[k' v'] m IH]; simpl; [now rewrite String.eqb_refl|].
  destruct (String.eqb k k') eqn:E; simpl; [now rewrite String.eqb_refl|].
  now rewrite E.
Qed.

Lemma lookup_assign_other (k k0 v : string) (m : list (string * string)) :
  k <> k0 -> lookup k (assign k0 v m) = lookup k m.
Proof.
  intros Hne. induction m as [|[k' v'] m IH]; simpl.
  - apply String.eqb_neq in Hne. now rewrite Hne.
  - destruct (String.eqb k0 k') eqn:E; simpl.
    + apply String.eqb_eq in E. subst k'. apply String.eqb_neq in Hne.
      now rewrite Hne.
    + now rewrite IH.
Qed.

Lemma assign_settled (k v : string) (m : list (string * string)) :
  lookup k m = Some v -> assign k v m = m.
Proof.
  induction m as [|[k' v'] m IH]; simpl; [discriminate|].
  destruct (String.eqb k k') eqn:E.
  - intros [= ->]. apply String.eqb_eq in E. now subst.
  - intros H. now rewrite IH.
Qed.

Lemma merge_node_new (l x l0 x0 : string) (g : graph) (n : node) :
  (exists m, In m (nodes g) /\ matches l0 x0 m = true) ->
  In n (nodes (merge_node l x g)) -> matches l0 x0 n = true ->
  In n (nodes g).
Proof.
  intros (m & Hm & Hmm) Hn Hmatch.
  destruct (merge_node_cases l x g) as [[_ E] | (Hno & E & _)];
    rewrite E in Hn; [exact Hn|].
  apply in_app_or in Hn as [Hn | [<- | []]]; [exact Hn|].
  apply matches_new_node in Hmatch as [-> ->].
  assert (Hex : existsb (matches l x) (nodes g) = true)
    by (apply existsb_exists; eauto).
  congruence.
Qed.

Lemma merge_node_old (l x : string) (g : graph) (n : node) :
  In n (nodes g) -> In n (nodes (merge_node l x g)).
Proof.
  intros H. destruct (merge_node_cases l x g) as [[_ ->] | (_ & -> & _)];
    [exact H | apply in_or_app; now left].
Qed.

Lemma has_edge_merge_node (l x : string) (g : graph) (e : edge) :
  has_edge e (merge_node l x g) = has_edge e g.
Proof. unfold has_edge. now rewrite edges_merge_node. Qed.

Lemma all_linked_merge_node (la a lb b type l x : string) (g : graph) :
  all_linked la a lb b type g -> all_linked la a lb b type (merge_node l x g).
Proof.
  intros (Hp & Hc & Hall). split; [| split].
  - destruct Hp as (p & Hp & Hm). exists p. split; [now apply merge_node_old | exact Hm].
  - destruct Hc as (c & Hc' & Hm). exists c. split; [now apply merge_node_old | exact Hm].
  - intros p c Hp' Hc' Hmp Hmc. rewrite has_edge_merge_node.
    apply Hall; try assumption.
    + exact (merge_node_new l x la a g p Hp Hp' Hmp).
    + exact (merge_node_new l x lb b g c Hc Hc' Hmc).
Qed.

Lemma all_linked_extends (la a lb b type : string) (g g' : graph) :
  extends g g' -> all_linked la a lb b type g -> all_linked la a lb b type g'.
Proof.
  intros (N & _ & E) (Hp & Hc & Hall). unfold all_linked. rewrite N.
  split; [exact Hp|]. split; [exact Hc|]. intros p c Hp' Hc' Hmp Hmc.
  apply E. now apply Hall.
Qed.

Lemma extends_links (type : string) (l : list (node * node)) (g : graph) :
  extends g (fold_left (fun g' xy => link type xy g') l g).
Proof. apply fold_extends. intros g' xy. apply extends_link. Qed.

Lemma all_linked_attach_other (la a lb b type la' a' lb' b' type' : string)
  (g : graph) :
  all_linked la a lb b type g ->
  all_linked la a lb b type (attach la' a' lb' b' type' g).
Proof.
  intros H. unfold attach.
  eapply all_linked_extends; [apply extends_links|].
  now apply all_linked_merge_node, all_linked_merge_node.
Qed.

Lemma all_linked_attach (la a lb b type : string) (g : graph) :
  all_linked la a lb b type (attach la a lb b type g).
Proof.
  unfold attach.
  set (g1 := merge_node la a g). set (g2 := merge_node lb b g1).
  set (pairs := list_prod (filter (matches la a) (nodes g1))
                          (filter (matches lb b) (nodes g2))).
  destruct (extends_links type pairs g2) as (N & _ & _).
  assert (Hp : exists p, In p (nodes g1) /\ matches la a p = true)
    by apply merge_node_found.
  assert (Hc : exists c, In c (nodes g2) /\ matches lb b c = true)
    by apply merge_node_found.
  unfold all_linked. rewrite N. split; [| split].
  - destruct Hp as (p & Hp & Hm). exists p.
    split; [now apply merge_node_old | exact Hm].
  - exact Hc.
  - intros p c Hp' Hc' Hmp Hmc.
    assert (Hp1 : In p (nodes g1))
      by exact (merge_node_new lb b la a g1 p Hp Hp' Hmp).
    destruct (fold_reaches (fun g' xy => link type xy g')
                (fun g' xy => extends_link type xy g') pairs (p, c) g2)
      as (g3 & _ & (_ & _ & Hfin)).
    { apply in_prod; apply filter_In; auto. }
    apply Hfin. apply has_edge_merge_edge.
Qed.

Lemma all_linked_fold (la a lb b type la' lb' b' type' : string)
  (l : list string) (g : graph) :
  all_linked la a lb b type g ->
  all_linked la a lb b type
    (fold_left (fun g' x => attach la' x lb' b' type' g') l g).
Proof.
  revert g. induction l as [|x l IH]; intros g H; [exact H|].
  simpl. apply IH. now apply all_linked_attach_other.
Qed.

Lemma all_linked_each (la lb b type : string) (l : list string) (g : graph)
  (a : string) :
  In a l ->
  all_linked la a lb b type
    (fold_left (fun g' x => attach la x lb b type g') l g).
Proof.
  revert g. induction l as [|x l IH]; intros g Hin; [destruct Hin|].
  simpl. destruct Hin as [-> | Hin]; [| now apply IH].
  apply all_linked_fold. apply all_linked_attach.
Qed.

(** The company node and its properties. *)

Lemma company_set_merge_node (name : string) (data : Seed.company_data)
  (l x : string) (g : graph) :
  company_set name data g -> company_set name data (merge_node l x g).
Proof.
  intros [(c & Hc & Hm) Hall]. split.
  - exists c. split; [now apply merge_node_old | exact Hm].
  - intros c' Hc' Hm'. apply Hall; [| exact Hm'].
    apply (merge_node_new l x "Organization" name g c'); eauto.
Qed.

Lemma company_set_extends (name : string) (data : Seed.company_data)
  (g g' : graph) :
  extends g g' -> company_set name data g -> company_set name data g'.
Proof. intros (N & _). unfold company_set. now rewrite N. Qed.

Lemma company_set_attach (name : string) (data : Seed.company_data)
  (la a lb b type : string) (g : graph) :
  company_set name data g -> company_set name data (attach la a lb b type g).
Proof.
  intros H. unfold attach.
  eapply company_set_extends; [apply extends_links|].
  now apply company_set_merge_node, company_set_merge_node.
Qed.

Lemma company_set_fold (name : string) (data : Seed.company_data)
  (la lb b type : string) (l : list string) (g : graph) :
  company_set name data g ->
  company_set name data
    (fold_left (fun g' x => attach la x lb b type g') l g).
Proof.
  revert g. induction l as [|x l IH]; intros g H; [exact H|].
  simpl. apply IH. now apply company_set_attach.
Qed.

Lemma matches_reassigned (l x : string) (n : node)
  (kvs : list (string * string)) :
  lookup "id" (assign_all kvs (props n)) = lookup "id" (props n) ->
  matches l x (mk_node (node_key n) (labels n) (assign_all kvs (props n)))
  = matches l x n.
Proof. intros H. unfold matches, has_label, id_is. simpl. now rewrite H. Qed.

Lemma company_set_upsert (name : string) (data : Seed.company_data)
  (g : graph) :
  company_set name data
    (upsert_company name (Seed.valuation data) (Seed.sector data)
       (Seed.description data) (Seed.status data) g).
Proof.
  unfold upsert_company, set_props.
  set (kvs := [("valuation", Seed.valuation data); ("sector", Seed.sector data);
               ("description", Seed.description data);
               ("status", Seed.status data)]).
  assert (Hid : forall m, lookup "id" (assign_all kvs m) = lookup "id" m).
  { intros m. unfold assign_all, kvs. simpl.
    now rewrite !lookup_assign_other by discriminate. }
  set (f := fun n => if matches "Organization" name n
                     then mk_node (node_key n) (labels n)
                            (assign_all kvs (props n))
                     else n).
  assert (Hf : forall n, matches "Organization" name (f n)
                         = matches "Organization" name n).
  { intros n. unfold f. destruct (matches "Organization" name n) eqn:E;
      [| exact E].
    now rewrite matches_reassigned by apply Hid. }
  split; simpl.
  - destruct (merge_node_found "Organization" name g) as (c & Hc & Hm).
    exists (f c). split; [now apply in_map | now rewrite Hf].
  - intros c' Hc' Hm'. apply in_map_iff in Hc' as (c & <- & Hc).
    rewrite Hf in Hm'. unfold f. rewrite Hm'.
    unfold props_of, assign_all, kvs. simpl.
    repeat split;
      repeat (first [ now rewrite lookup_assign_same
                    | rewrite lookup_assign_other by discriminate ]).
Qed.

Lemma seed_company_ok (name : string) (data : Seed.company_data) (g : graph) :
  seed_safe name data -> seed_company name data g = Ok (seeded name data g).
Proof.
  intros Hsafe.
  pose proof (company_text_read_back name data Hsafe) as Hc.
  destruct Hsafe as (Hn & _ & _ & _ & _ & Hfs & His).
  rewrite Forall_forall in Hfs, His.
  assert (Hf : forall f, In f (Seed.founders data) ->
                 Cypher.read_as Seed.founder_pieces (Seed.founder_text name f)
                 = Some [f; name])
    by (intros f Hin; apply founder_text_read_back; auto).
  assert (Hi : forall i, In i (Seed.investors data) ->
                 Cypher.read_as Seed.investor_pieces (Seed.investor_text name i)
                 = Some [i; name])
    by (intros i Hin; apply investor_text_read_back; auto).
  unfold seed_company, query_company. rewrite Hc.
  rewrite (for_each_total (Seed.founders data)
             (fun founder => query_founder (Seed.founder_text name founder))
             (fun g' founder =>
                attach "Person" founder "Organization" name "LEADS" g')).
  2:{ intros f g' Hin. unfold query_founder. now rewrite (Hf f Hin). }
  rewrite (for_each_total (Seed.investors data)
             (fun investor =>
                query_investor (Seed.investor_text name investor))
             (fun g' investor =>
                attach "Organization" investor "Organization" name
                  "INVESTED_IN" g')).
  2:{ intros i g' Hin. unfold query_investor. now rewrite (Hi i Hin). }
  reflexivity.
Qed.

End SeedFacts.

Section SeedAgain.
Import Graph SeedRun.

Lemma seeded_facts (name : string) (data : Seed.company_data) (g : graph) :
  company_set name data (seeded name data g) /\
  (forall founder, In founder (Seed.founders data) ->
     all_linked "Person" founder "Organization" name "LEADS"
       (seeded name data g)) /\
  (forall investor, In investor (Seed.investors data) ->
     all_linked "Organization" investor "Organization" name "INVESTED_IN"
       (seeded name data g)).
Proof.
  unfold seeded. split; [| split].
  - apply company_set_fold, company_set_fold, company_set_upsert.
  - intros founder Hin. apply all_linked_fold. now apply all_linked_each.
  - intros investor Hin. now apply all_linked_each.
Qed.

Lemma node_eta (n : node) : mk_node (node_key n) (labels n) (props n) = n.
Proof. destruct n; reflexivity. Qed.

Lemma upsert_company_settled (name : string) (data : Seed.company_data)
  (g : graph) :
  company_set name data g ->
  upsert_company name (Seed.valuation data) (Seed.sector data)
    (Seed.description data) (Seed.status data) g = g.
Proof.
  intros [Hex Hall]. unfold upsert_company.
  rewrite (merge_node_settled "Organization" name g Hex).
  unfold set_props. rewrite map_fixed; [apply graph_eta|].
  intros c Hc. destruct (matches "Organization" name c) eqn:Hm; [|reflexivity].
  destruct (Hall c Hc Hm) as (Hv & Hs & Hd & Ht).
  unfold assign_all. simpl.
  rewrite (assign_settled "valuation" _ _ Hv).
  rewrite (assign_settled "sector" _ _ Hs).
  rewrite (assign_settled "description" _ _ Hd).
  rewrite (assign_settled "status" _ _ Ht).
  apply node_eta.
Qed.

Lemma attach_settled (la a lb b type : string) (g : graph) :
  all_linked la a lb b type g -> attach la a lb b type g = g.
Proof.
  intros (Hp & Hc & Hall). unfold attach.
  rewrite (merge_node_settled la a g Hp), (merge_node_settled lb b g Hc).
  apply fold_link_settled. intros [p c] Hin.
  apply in_prod_iff in Hin as [Hp' Hc'].
  apply filter_In in Hp' as [Hp' Hmp]. apply filter_In in Hc' as [Hc' Hmc].
  now apply Hall.
Qed.

Lemma seeded_settled (name : string) (data : Seed.company_data) (g : graph) :
  seeded name data (seeded name data g) = seeded name data g.
Proof.
  destruct (seeded_facts name data g) as (Hc & Hf & Hi).
  unfold seeded at 1.
  rewrite (upsert_company_settled name data _ Hc).
  rewrite (fold_settled
             (fun g' founder =>
                attach "Person" founder "Organization" name "LEADS" g')
             (Seed.founders data) (seeded name data g))
    by (intros f Hin; now apply attach_settled, Hf).
  apply fold_settled. intros i Hin. now apply attach_settled, Hi.
Qed.

End SeedAgain.

(** X14.  For values that are safe to write between quotes,
    [seed_company] runs to its end on any graph and leaves: an
    Organization node with the id of the company, every such node with
    the valuation, sector, description and status of the data (whatever
    they were before); for each founder a Person node, and a LEADS edge
    from every Person node with the founder's id to every such company
    node; for each investor an Organization node, and an INVESTED_IN edge
    from every Organization node with the investor's id to every such
    company node. *)
Theorem seed_company_effect
  (name : string) (data : Seed.company_data) (g : Graph.graph) :
  seed_safe name data ->
  exists g',
    SeedRun.seed_company name data g = Ok g' /\
    company_set name data g' /\
    (forall founder, In founder (Seed.founders data) ->
       all_linked "Person" founder "Organization" name "LEADS" g') /\
    (forall investor, In investor (Seed.investors data) ->
       all_linked "Organization" investor "Organization" name
         "INVESTED_IN" g').
Proof.
  intros Hsafe. exists (seeded name data g).
  split; [now apply seed_company_ok | apply seeded_facts].
Qed.

Lemma seed_company_effect_witness :
  seed_safe "OpenAI" openai_data /\
  exists g',
    SeedRun.seed_company "OpenAI" openai_data Graph.empty = Ok g' /\
    all_linked "Person" "Sam Altman" "Organization" "OpenAI" "LEADS" g'.
Proof.
  assert (H : seed_safe "OpenAI" openai_data).
  { unfold seed_safe.
    split; [reflexivity|]. split; [reflexivity|]. split; [reflexivity|].
    split; [reflexivity|]. split; [reflexivity|].
    split; repeat (apply Forall_cons; [reflexivity|]); apply Forall_nil. }
  split; [exact H |].
  destruct (seed_company_effect "OpenAI" openai_data Graph.empty H)
    as (g' & Hrun & _ & Hf & _).
  exists g'. split; [exact Hrun |].
  apply Hf. simpl. auto.
Defined.

(** X15.  [seed_company] can be run again: for values that are safe to
    write between quotes, seeding the same company with the same data on
    the graph that a first seeding left runs to its end and changes
    nothing (no second node, no second edge, the same properties). *)
Theorem seed_company_again_changes_nothing
  (name : string) (data : Seed.company_data) (g : Graph.graph) :
  seed_safe name data ->
  exists g',
    SeedRun.seed_company name data g = Ok g' /\
    SeedRun.seed_company name data g' = Ok g'.
Proof.
  intros Hsafe. exists (seeded name data g).
  split; [now apply seed_company_ok|].
  rewrite (seed_company_ok name data _ Hsafe). f_equal.
  apply seeded_settled.
Qed.

Lemma seed_company_again_changes_nothing_witness :
  seed_safe "OpenAI" openai_data /\
  exists g',
    SeedRun.seed_company "OpenAI" openai_data Graph.empty = Ok g' /\
    SeedRun.seed_company "OpenAI" openai_data g' = Ok g'.
Proof.
  assert (H : seed_safe "OpenAI" openai_data).
  { unfold seed_safe.
    split; [reflexivity|]. split; [reflexivity|]. split; [reflexivity|].
    split; [reflexivity|]. split; [reflexivity|].
    split; repeat (apply Forall_cons; [reflexivity|]); apply Forall_nil. }
  split; [exact H |].
  exact (seed_company_again_changes_nothing "OpenAI" openai_data Graph.empty H).
Defined.

(* ================================================================== *)
(** * Dicts in insertion order *)
(* ================================================================== *)

Section DictFacts.
Context {K V : Type} (eqb : K -> K -> bool).
Hypothesis eqb_spec : forall a b, eqb a b = true <-> a = b.

Lemma dict_contains_keys (k : K) (d : PyDict.dict K V) :
  PyDict.contains eqb k d = true <-> In k (PyDict.keys d).
Proof.
  induction d as [|[k' v'] d IH]; simpl.
  - split; [discriminate | tauto].
  - rewrite orb_true_iff, IH, eqb_spec. intuition congruence.
Qed.

Lemma dict_keys_set (k : K) (v : V) (d : PyDict.dict K V) :
  PyDict.keys (PyDict.set eqb k v d)
  = if PyDict.contains eqb k d then PyDict.keys d
    else (PyDict.keys d ++ [k])%list.
Proof.
  unfold PyDict.keys.
  induction d as [|[k' v'] d IH]; simpl; [reflexivity|].
  destruct (eqb k k'); simpl; [reflexivity|].
  rewrite IH. now destruct (PyDict.contains eqb k d).
Qed.

Lemma dict_nodup_set (k : K) (v : V) (d : PyDict.dict K V) :
  NoDup (PyDict.keys d) -> NoDup (PyDict.keys (PyDict.set eqb k v d)).
Proof.
  intros Hd. rewrite dict_keys_set.
  destruct (PyDict.contains eqb k d) eqn:Hc; [assumption|].
  apply NoDup_app; [assumption | constructor; [tauto | constructor] |].
  intros x Hx [Hk | []]. subst x.
  apply dict_contains_keys in Hx. congruence.
Qed.

Lemma dict_keys_kept (k k' : K) (v : V) (d : PyDict.dict K V) :
  In k' (PyDict.keys d) -> In k' (PyDict.keys (PyDict.set eqb k v d)).
Proof.
  intros Hin. rewrite dict_keys_set.
  destruct (PyDict.contains eqb k d); [assumption|].
  apply in_or_app. now left.
Qed.

Lemma dict_key_set (k : K) (v : V) (d : PyDict.dict K V) :
  In k (PyDict.keys (PyDict.set eqb k v d)).
Proof.
  rewrite dict_keys_set.
  destruct (PyDict.contains eqb k d) eqn:Hc.
  - now apply dict_contains_keys.
  - apply in_or_app. right. now left.
Qed.

Lemma dict_set_Forall (P : K * V -> Prop) (k : K) (v : V)
  (d : PyDict.dict K V) :
  Forall P d -> P (k, v) -> Forall P (PyDict.set eqb k v d).
Proof.
  intros Hd Hkv. induction Hd as [|[k' v'] d Hx Hd IH]; simpl.
  - constructor; [assumption | constructor].
  - destruct (eqb k k') eqn:Hk.
    + apply eqb_spec in Hk. subst k'. now constructor.
    + now constructor.
Qed.

Lemma dict_get_set (k k' : K) (v : V) (d : PyDict.dict K V) :
  PyDict.get eqb k' (PyDict.set eqb k v d)
  = if eqb k' k then Some v else PyDict.get eqb k' d.
Proof.
  induction d as [|[k0 v0] d IH]; simpl; [reflexivity|].
  destruct (eqb k k0) eqn:Hk; simpl.
  - apply eqb_spec in Hk. subst k0. now destruct (eqb k' k).
  - destruct (eqb k' k0) eqn:Hk0.
    + destruct (eqb k' k) eqn:Hk'; [|reflexivity].
      apply eqb_spec in Hk0, Hk'. subst. 
      assert (eqb k0 k0 = true) by now apply eqb_spec. congruence.
    + exact IH.
Qed.

End DictFacts.

Lemma value_eqb_spec (a b : PyVal.value) : PyVal.eqb a b = true <-> a = b.
Proof.
  destruct a as [x|], b as [y|]; simpl;
    try (split; [discriminate | congruence]); [|tauto].
  rewrite String.eqb_eq. split; congruence.
Qed.

Lemma and_then_ok {A B : Type} (o : outcome A) (k : A -> outcome B) (b : B) :
  and_then o k = Ok b -> exists a, o = Ok a /\ k a = Ok b.
Proof. destruct o as [a|msg]; simpl; [eauto | discriminate]. Qed.

Lemma loop_invariant {A S : Type} (P : S -> Prop) (body : S -> A -> outcome S)
  (l : list A) :
  (forall s x s', P s -> body s x = Ok s' -> P s') ->
  forall s s', P s -> loop l body s = Ok s' -> P s'.
Proof.
  intros Hstep. induction l as [|x l IH]; intros s s' Hs Hrun; simpl in Hrun.
  - now inversion Hrun; subst.
  - apply and_then_ok in Hrun as (s1 & H1 & H2). eauto.
Qed.

(* ================================================================== *)
(** * The answer of the /graph endpoint *)
(* ================================================================== *)

Section GraphViewFacts.
Import PyVal GraphView.

Lemma add_row_cases (st st' : PyDict.dict value node * list edge)
  (row : record) :
  add_row st row = Ok st' ->
  exists tg t_label rel_type src,
    item "target" row = Ok tg /\
    st' = (PyDict.set eqb tg
             {| id := tg; label := tg; color := row_color t_label rel_type;
                size := 20; group := t_label |} (fst st),
           (snd st ++ [ {| source := src; target := tg;
                           edge_color := "#555" |} ])%list).
Proof.
  unfold add_row. intros H.
  apply and_then_ok in H as (tg & Ht & H).
  apply and_then_ok in H as (t_label & _ & H).
  apply and_then_ok in H as (rel_type & _ & H).
  apply and_then_ok in H as (src & _ & H).
  inversion H. now exists tg, t_label, rel_type, src.
Qed.

Lemma view_ok_add_row (real_id : value)
  (st st' : PyDict.dict value node * list edge) (row : record) :
  view_ok real_id st -> add_row st row = Ok st' -> view_ok real_id st'.
Proof.
  intros (Hid & Hnd & Hc & He) Hrow.
  apply add_row_cases in Hrow as (tg & tl & rt & src & _ & ->).
  unfold view_ok. simpl fst. simpl snd. repeat split.
  - now apply dict_set_Forall; [apply value_eqb_spec | |].
  - now apply dict_nodup_set; [apply value_eqb_spec |].
  - now apply dict_keys_kept.
  - intros ed Hin. apply in_app_or in Hin as [Hin | [<- | []]].
    + now apply dict_keys_kept, He.
    + simpl. apply dict_key_set, value_eqb_spec.
Qed.

Lemma view_ok_build (real_id : value) (data : list record)
  (st : PyDict.dict value node * list edge) :
  build real_id data = Ok st -> view_ok real_id st.
Proof.
  unfold build. apply loop_invariant.
  - intros s x s'. apply view_ok_add_row.
  - unfold view_ok. simpl. repeat split.
    + constructor; [reflexivity | constructor].
    + constructor; [tauto | constructor].
    + now left.
    + tauto.
Qed.

Lemma values_ids (d : PyDict.dict value node) :
  Forall (fun kv => id (snd kv) = fst kv) d ->
  map id (PyDict.values d) = PyDict.keys d.
Proof.
  unfold PyDict.values, PyDict.keys. rewrite map_map.
  induction 1 as [|kv d H _ IH]; simpl; [reflexivity|]. now rewrite H, IH.
Qed.

Lemma dict_in_set {K V : Type} (eqb : K -> K -> bool)
  (eqb_spec : forall a b, eqb a b = true <-> a = b)
  (k : K) (v : V) (d : PyDict.dict K V) (kv : K * V) :
  NoDup (PyDict.keys d) -> In kv (PyDict.set eqb k v d) ->
  kv = (k, v) \/ (In kv d /\ fst kv <> k).
Proof.
  induction d as [|[k' v'] d IH]; simpl; intros Hnd Hin.
  - destruct Hin as [<- | []]. now left.
  - inversion Hnd as [|? ? Hk' Hnd']; subst.
    destruct (eqb k k') eqn:Hk.
    + apply eqb_spec in Hk. subst k'.
      destruct Hin as [<- | Hin]; [now left | right].
      split; [now right|]. intros Heq. apply Hk'. rewrite <- Heq.
      now apply in_map.
    + destruct Hin as [<- | Hin].
      * right. split; [now left|]. simpl. intros ->.
        assert (eqb k k = true) by now apply eqb_spec. congruence.
      * destruct (IH Hnd' Hin) as [-> | [Hd Hne]]; [now left | right].
        split; [now right | assumption].
Qed.

Lemma dict_get_In {K V : Type} (eqb : K -> K -> bool) (k : K) (v : V)
  (d : PyDict.dict K V) :
  PyDict.get eqb k d = Some v -> In v (PyDict.values d).
Proof.
  induction d as [|[k' v'] d IH]; simpl; [discriminate|].
  destruct (eqb k k'); intros H; [inversion H; now left | right; auto].
Qed.

Lemma value_eqb_false (a b : value) : a <> b -> eqb a b = false.
Proof.
  intros Hne. destruct (eqb a b) eqn:H; [|reflexivity].
  now apply value_eqb_spec in H.
Qed.

Lemma centre_state_add_row (real_id tg : value) (seen : bool)
  (st st' : PyDict.dict value node * list edge) (row : record) :
  centre_state real_id seen st ->
  item "target" row = Ok tg -> add_row st row = Ok st' ->
  centre_state real_id (seen || eqb tg real_id) st'.
Proof.
  intros (Hnd & Ha & Hb) Htg Hrow.
  apply add_row_cases in Hrow as (tg' & tl & rt & src & Htg' & ->).
  rewrite Htg in Htg'. inversion Htg'; subst tg'. clear Htg'.
  unfold centre_state. simpl fst. split; [| split].
  - now apply dict_nodup_set; [apply value_eqb_spec |].
  - intros kv Hin Hs.
    apply (dict_in_set eqb value_eqb_spec) in Hin as [-> | [Hin Hne]];
      [discriminate | | assumption].
    destruct (Ha kv Hin Hs) as [Hk ->]. split; [assumption|].
    simpl. apply value_eqb_false. congruence.
  - intros Hseen. apply orb_false_elim in Hseen as [Hseen Hne].
    destruct (Hb Hseen) as (n & Hget & Hs). exists n. split; [|assumption].
    rewrite (dict_get_set eqb value_eqb_spec).
    destruct (eqb real_id tg) eqn:Hk; [|assumption].
    apply value_eqb_spec in Hk. subst tg.
    assert (eqb real_id real_id = true) by now apply value_eqb_spec.
    congruence.
Qed.

Lemma centre_state_loop (real_id : value) (data : list record) :
  forall (seen : bool) (st st' : PyDict.dict value node * list edge),
    centre_state real_id seen st ->
    loop data add_row st = Ok st' ->
    centre_state real_id (seen || leads_back real_id data) st'.
Proof.
  induction data as [|row data IH]; intros seen st st' Hst Hrun;
    simpl in Hrun.
  - inversion Hrun; subst. simpl. now rewrite orb_false_r.
  - apply and_then_ok in Hrun as (st1 & Hrow & Hrun).
    destruct (add_row_cases _ _ _ Hrow) as (tg & _ & _ & _ & Htg & _).
    pose proof (centre_state_add_row _ _ _ _ _ _ Hst Htg Hrow) as H1.
    pose proof (IH _ _ _ H1 Hrun) as H2.
    unfold leads_back in *. simpl. rewrite Htg.
    now rewrite orb_assoc.
Qed.

Lemma centre_state_marked (real_id : value) (seen : bool)
  (st : PyDict.dict value node * list edge) :
  centre_state real_id seen st ->
  marked (PyDict.values (fst st)) = negb seen.
Proof.
  intros (_ & Ha & Hb). unfold marked. destruct seen; simpl.
  - destruct (existsb _ _) eqn:Hex; [|reflexivity].
    apply existsb_exists in Hex as (n & Hin & Hs).
    apply in_map_iff in Hin as (kv & <- & Hin).
    apply Nat.eqb_eq in Hs. now destruct (Ha kv Hin Hs).
  - destruct (Hb eq_refl) as (n & Hget & Hs).
    apply existsb_exists. exists n. split.
    + exact (dict_get_In eqb real_id n (fst st) Hget).
    + now apply Nat.eqb_eq.
Qed.

End GraphViewFacts.

(** X16.  Whatever the store answers, the answer of [get_graph] is a
    well-formed picture: no two of its nodes have the same id, every edge
    leads to the id of one of its nodes, and an answer without nodes has
    no edge. *)
Theorem get_graph_answer_closed (e : GraphView.env) (query : string) :
  let r := GraphView.get_graph e query in
  NoDup (map GraphView.id (GraphView.nodes r)) /\
  (forall ed, In ed (GraphView.edges r) ->
     exists n, In n (GraphView.nodes r) /\
               GraphView.id n = GraphView.target ed) /\
  (GraphView.nodes r = [] -> GraphView.edges r = []).
Proof.
  assert (Hempty : forall f,
    let r := GraphView.empty f in
    NoDup (map GraphView.id (GraphView.nodes r)) /\
    (forall ed, In ed (GraphView.edges r) ->
       exists n, In n (GraphView.nodes r) /\
                 GraphView.id n = GraphView.target ed) /\
    (GraphView.nodes r = [] -> GraphView.edges r = [])).
  { intros f. simpl. repeat split; [constructor | tauto]. }
  unfold GraphView.get_graph.
  destruct (GraphView.connect e); [|apply Hempty].
  destruct (Api.extract_entity_from_query query) as [|c focus] eqn:Hf;
    [apply Hempty|].
  destruct (GraphView.query e _) as [center_res|]; simpl and_then;
    [|apply Hempty].
  destruct center_res as [|first rest]; [apply Hempty|].
  destruct (PyVal.item "id" first) as [real_id|]; simpl and_then;
    [|apply Hempty].
  destruct (GraphView.query e _) as [data|]; simpl and_then; [|apply Hempty].
  destruct (GraphView.build real_id data) as [st|] eqn:Hb; simpl and_then;
    [|apply Hempty].
  destruct (view_ok_build real_id data st Hb) as (Hid & Hnd & Hc & He).
  cbv zeta. cbn [GraphView.nodes GraphView.edges].
  rewrite (values_ids _ Hid). split; [assumption | split].
  - intros ed Hin. specialize (He ed Hin).
    rewrite <- (values_ids _ Hid) in He.
    apply in_map_iff in He as (n & Hn & Hin'). now exists n.
  - intros Hnil. rewrite <- (values_ids _ Hid), Hnil in Hc. destruct Hc.
Qed.

(** X17.  In the loop of [get_graph] the last row written for an id
    wins, the centre included: when the rows are read without error, the
    picture has a node with the marking of the centre (size 40) exactly
    when no row leads to a node that has the id of the centre. *)
Theorem centre_marking_lost_to_a_row
  (real_id : PyVal.value) (data : list PyVal.record)
  (nodes : PyDict.dict PyVal.value GraphView.node)
  (edges : list GraphView.edge) :
  GraphView.build real_id data = Ok (nodes, edges) ->
  marked (PyDict.values nodes) = negb (leads_back real_id data).
Proof.
  intros Hb. unfold GraphView.build in Hb.
  assert (H0 : centre_state real_id false
                 ([(real_id, GraphView.center_node real_id)], [])).
  { unfold centre_state. simpl. split; [| split].
    - constructor; [tauto | constructor].
    - intros kv [<- | []] _. now split.
    - intros _. exists (GraphView.center_node real_id).
      assert (PyVal.eqb real_id real_id = true) as ->
        by now apply value_eqb_spec.
      now split. }
  pose proof (centre_state_loop real_id data false _ _ H0 Hb) as H.
  apply centre_state_marked in H. exact H.
Qed.

Lemma centre_marking_lost_to_a_row_witness :
  exists nodes edges,
    GraphView.build (Some "Google") google_rows = Ok (nodes, edges) /\
    marked (PyDict.values nodes) = false.
Proof.
  pose (st := match GraphView.build (Some "Google") google_rows with
              | Ok st => st
              | Raise _ => ([], [])
              end).
  assert (Hb : GraphView.build (Some "Google") google_rows
               = Ok (fst st, snd st)) by reflexivity.
  exists (fst st), (snd st). split; [exact Hb|].
  exact (centre_marking_lost_to_a_row _ _ _ _ Hb).
Defined.

(* ================================================================== *)
(** * The picture of [get_graph_data] *)
(* ================================================================== *)

Section AppGraphFacts.
Import PyVal AppGraph.

Lemma dict_set_new {K V : Type} (eqb : K -> K -> bool) (k : K) (v : V)
  (d : PyDict.dict K V) :
  PyDict.contains eqb k d = false ->
  PyDict.set eqb k v d = (d ++ [(k, v)])%list.
Proof.
  induction d as [|[k' v'] d IH]; simpl; [reflexivity|].
  intros H. apply orb_false_elim in H as [Hk Hd].
  now rewrite Hk, IH.
Qed.

Lemma add_node_cases (nodes : PyDict.dict value Node) (node_id label_ : value)
  (center : bool) :
  add_node nodes node_id label_ center = nodes /\
  PyDict.contains eqb node_id nodes = true
  \/
  exists n,
    add_node nodes node_id label_ center = (nodes ++ [(node_id, n)])%list /\
    PyDict.contains eqb node_id nodes = false /\
    id n = node_id /\
    (center = false -> plain_node n).
Proof.
  unfold add_node.
  destruct (PyDict.contains eqb node_id nodes) eqn:Hc; [now left | right].
  eexists. split; [now apply dict_set_new | split; [reflexivity|]].
  split; [reflexivity|]. intros ->. unfold plain_node. simpl.
  destruct (equals "Investor" label_); simpl;
    [split; [lia | discriminate]|].
  destruct (equals "Person" label_); simpl; split; (lia || discriminate).
Qed.

Lemma add_node_key (nodes : PyDict.dict value Node) (node_id label_ : value)
  (center : bool) :
  In node_id (PyDict.keys (add_node nodes node_id label_ center)).
Proof.
  destruct (add_node_cases nodes node_id label_ center)
    as [[-> Hc] | (n & -> & _)].
  - now apply (dict_contains_keys eqb value_eqb_spec).
  - unfold PyDict.keys. rewrite map_app. apply in_or_app. right. now left.
Qed.

Lemma add_node_keeps (nodes : PyDict.dict value Node)
  (node_id label_ k : value) (center : bool) :
  In k (PyDict.keys nodes) ->
  In k (PyDict.keys (add_node nodes node_id label_ center)).
Proof.
  intros Hin.
  destruct (add_node_cases nodes node_id label_ center)
    as [[-> Hc] | (n & -> & _)]; [assumption|].
  unfold PyDict.keys. rewrite map_app. apply in_or_app. now left.
Qed.

Lemma add_node_ids (nodes : PyDict.dict value Node) (node_id label_ : value)
  (center : bool) :
  Forall (fun kv => id (snd kv) = fst kv) nodes ->
  Forall (fun kv => id (snd kv) = fst kv)
    (add_node nodes node_id label_ center).
Proof.
  intros H.
  destruct (add_node_cases nodes node_id label_ center)
    as [[-> Hc] | (n & -> & _ & Hid & _)]; [assumption|].
  apply Forall_app. split; [assumption|]. now constructor.
Qed.

Lemma add_node_nodup (nodes : PyDict.dict value Node)
  (node_id label_ : value) (center : bool) :
  NoDup (PyDict.keys nodes) ->
  NoDup (PyDict.keys (add_node nodes node_id label_ center)).
Proof.
  intros H.
  destruct (add_node_cases nodes node_id label_ center)
    as [[-> Hc] | (n & -> & Hc & _)]; [assumption|].
  unfold PyDict.keys. rewrite map_app.
  apply NoDup_app; [assumption | constructor; [tauto | constructor] |].
  intros x Hx [<- | []]. simpl in Hx.
  apply (dict_contains_keys eqb value_eqb_spec) in Hx. congruence.
Qed.

Lemma app_add_row_cases (center_data : value)
  (st st' : PyDict.dict value Node * list Edge) (r : record) :
  add_row center_data st r = Ok st' ->
  exists src lab tg lab',
    st' = (add_node (add_node (fst st) src lab false) tg lab' false,
           (snd st ++ [ {| source := src; target := tg;
                           edge_color := "#555"; strokeWidth := 2 |} ])%list).
Proof.
  unfold add_row. intros H.
  apply and_then_ok in H as (src & _ & H).
  apply and_then_ok in H as (lab & _ & H).
  apply and_then_ok in H as (tg & _ & H).
  inversion H. eauto.
Qed.

Lemma app_view_ok_build (center_data : value) (rows : list record)
  (st : PyDict.dict value Node * list Edge) :
  build center_data rows = Ok st -> app_view_ok st.
Proof.
  unfold build. apply loop_invariant.
  - intros s x s' (Hid & Hnd & He) Hrow.
    apply app_add_row_cases in Hrow as (src & lab & tg & lab' & ->).
    unfold app_view_ok. simpl fst. simpl snd. split; [| split].
    + now apply add_node_ids, add_node_ids.
    + now apply add_node_nodup, add_node_nodup.
    + intros ed Hin. apply in_app_or in Hin as [Hin | [<- | []]].
      * destruct (He ed Hin) as [Hs Ht].
        split; now apply add_node_keeps, add_node_keeps.
      * simpl. split; [apply add_node_keeps, add_node_key|].
        apply add_node_key.
  - unfold app_view_ok. simpl fst. simpl snd.
    split; [| split; [| intros ed []]]; destruct (truthy center_data).
    + apply add_node_ids. constructor.
    + constructor.
    + apply add_node_nodup. constructor.
    + constructor.
Qed.

Lemma app_values_ids (d : PyDict.dict value Node) :
  Forall (fun kv => id (snd kv) = fst kv) d ->
  map id (PyDict.values d) = PyDict.keys d.
Proof.
  unfold PyDict.values, PyDict.keys. rewrite map_map.
  induction 1 as [|kv d H _ IH]; simpl; [reflexivity|]. now rewrite H, IH.
Qed.

Lemma centre_first_add_node (center_data node_id label_ : value)
  (nodes : PyDict.dict value Node) :
  centre_first center_data (PyDict.values nodes) ->
  centre_first center_data
    (PyDict.values (add_node nodes node_id label_ false)).
Proof.
  intros H.
  destruct (add_node_cases nodes node_id label_ false)
    as [[-> Hc] | (n & -> & _ & _ & Hp)]; [assumption|].
  specialize (Hp eq_refl). unfold centre_first, PyDict.values in *.
  rewrite map_app. simpl.
  destruct (truthy center_data).
  - destruct H as (rest & -> & Hrest). exists (rest ++ [n])%list.
    split; [reflexivity|]. apply Forall_app. split; [assumption|].
    now constructor.
  - apply Forall_app. split; [assumption|]. now constructor.
Qed.

End AppGraphFacts.

(** X18.  When [get_graph_data] returns, the picture is closed: no two
    nodes have the same id, and both ends of every edge are ids of nodes
    of the picture. *)
Theorem get_graph_data_closed (e : AppGraph.env) (focus_entity : PyVal.value)
  (nodes : list AppGraph.Node) (edges : list AppGraph.Edge) :
  AppGraph.get_graph_data e focus_entity = Ok (nodes, edges) ->
  NoDup (map AppGraph.id nodes) /\
  forall ed, In ed edges ->
    (exists n, In n nodes /\ AppGraph.id n = AppGraph.source ed) /\
    (exists n, In n nodes /\ AppGraph.id n = AppGraph.target ed).
Proof.
  assert (Hempty : forall ns es,
    @Ok (list AppGraph.Node * list AppGraph.Edge) ([], []) = Ok (ns, es) ->
    NoDup (map AppGraph.id ns) /\
    forall ed, In ed es ->
      (exists n, In n ns /\ AppGraph.id n = AppGraph.source ed) /\
      (exists n, In n ns /\ AppGraph.id n = AppGraph.target ed)).
  { intros ns es H. inversion H. split; [constructor | intros ed []]. }
  unfold AppGraph.get_graph_data.
  destruct (AppGraph.connect e); [|apply Hempty].
  intros H. apply and_then_ok in H as (found & _ & H).
  destruct found as [[rows center_data]|]; [|now apply Hempty].
  apply and_then_ok in H as (st & Hb & H). inversion H; subst. clear H.
  destruct (app_view_ok_build _ _ _ Hb) as (Hid & Hnd & He).
  rewrite (app_values_ids _ Hid). split; [assumption|].
  intros ed Hin. destruct (He ed Hin) as [Hs Ht].
  rewrite <- (app_values_ids _ Hid) in Hs, Ht.
  apply in_map_iff in Hs as (n & Hn & Hin1).
  apply in_map_iff in Ht as (m & Hm & Hin2).
  split; [now exists n | now exists m].
Qed.

Lemma get_graph_data_closed_witness :
  exists nodes edges,
    AppGraph.get_graph_data openai_store (Some "OpenAI") = Ok (nodes, edges) /\
    List.length nodes = 4 /\
    NoDup (map AppGraph.id nodes).
Proof.
  pose (r := match AppGraph.get_graph_data openai_store (Some "OpenAI") with
             | Ok r => r
             | Raise _ => ([], [])
             end).
  assert (Hr : AppGraph.get_graph_data openai_store (Some "OpenAI")
               = Ok (fst r, snd r)) by reflexivity.
  exists (fst r), (snd r). split; [exact Hr|]. split; [reflexivity|].
  destruct (get_graph_data_closed openai_store (Some "OpenAI") _ _ Hr)
    as [Hnd _].
  exact Hnd.
Defined.

(** X19.  In [get_graph_data] the first node written for an id stays:
    when there is a centre (an id that is not empty) its node comes first
    in the picture, drawn as the centre, and no row changes it or draws
    another node like it; without a centre no node is drawn like one. *)
Theorem centre_drawn_once (center_data : PyVal.value)
  (rows : list PyVal.record)
  (nodes : PyDict.dict PyVal.value AppGraph.Node)
  (edges : list AppGraph.Edge) :
  AppGraph.build center_data rows = Ok (nodes, edges) ->
  centre_first center_data (PyDict.values nodes).
Proof.
  unfold AppGraph.build.
  set (P := fun st : PyDict.dict PyVal.value AppGraph.Node
                     * list AppGraph.Edge =>
              centre_first center_data (PyDict.values (fst st))).
  intros Hb. change (P (nodes, edges)).
  revert Hb. apply loop_invariant.
  - intros s x s' Hs Hrow.
    apply app_add_row_cases in Hrow as (src & lab & tg & lab' & ->).
    unfold P in *. simpl fst.
    now apply centre_first_add_node, centre_first_add_node.
  - unfold P, centre_first. simpl fst.
    destruct (PyVal.truthy center_data) eqn:Ht; [|constructor].
    exists []. split; [reflexivity | constructor].
Qed.

Lemma centre_drawn_once_witness :
  exists nodes edges,
    AppGraph.build (Some "Google") google_team = Ok (nodes, edges) /\
    centre_first (Some "Google") (PyDict.values nodes).
Proof.
  pose (st := match AppGraph.build (Some "Google") google_team with
              | Ok st => st
              | Raise _ => ([], [])
              end).
  assert (Hb : AppGraph.build (Some "Google") google_team
               = Ok (fst st, snd st)) by reflexivity.
  exists (fst st), (snd st). split; [exact Hb|].
  exact (centre_drawn_once _ _ _ _ Hb).
Defined.

(* ================================================================== *)
(** * The cache of the agents *)
(* ================================================================== *)

Section AgentFacts.
Import PyVal Agents.

Lemma string_eqb_spec (a b : string) : String.eqb a b = true <-> a = b.
Proof. apply String.eqb_eq. Qed.




End AgentFacts.



(* ================================================================== *)
(** * Actions in the stream *)
(* ================================================================== *)

Section StreamFacts.
Import PyStr Stream.

Lemma contains_inside (p a b : string) : contains p (a ++ p ++ b) = true.
Proof.
  induction a as [|c a IH]; simpl append.
  - destruct (p ++ b) eqn:E; simpl; rewrite <- E, starts_with_self;
      reflexivity.
  - change (contains p (String c (a ++ p ++ b)))
      with (starts_with p (String c (a ++ p ++ b))
            || contains p (a ++ p ++ b)).
    rewrite IH. apply orb_true_r.
Qed.

Lemma emit_action_forwarded (action_type : string) (data : Json.value) :
  PyVal.truthy (Some (Whiteboard.emit_action action_type data))
  && contains "<<<ACTION:" (Whiteboard.emit_action action_type data) = true.
Proof.
  unfold Whiteboard.emit_action.
  change Whiteboard.start_marker with "<<<ACTION:".
  rewrite contains_inside. reflexivity.
Qed.

Lemma analyze_portfolio_forwarded (tickers : string) :
  PyVal.truthy (Some (Whiteboard.analyze_portfolio tickers))
  && contains "<<<ACTION:" (Whiteboard.analyze_portfolio tickers) = true.
Proof.
  unfold Whiteboard.analyze_portfolio, take.
  rewrite (collect_actions
             (fun t => Whiteboard.action Whiteboard.CREATE_CHART
                         (Whiteboard.chart_data t))).
  rewrite collect_result. simpl app. rewrite map_map.
  destruct (map (fun t => upper (strip t)) (split "," tickers))
    as [|t rest] eqn:E.
  - apply (f_equal (@List.length string)) in E.
    rewrite length_map, split_length in E. discriminate.
  - cbn [firstn map records_text fold_right].
    change (EmptyString ++ ?x) with x.
    change Whiteboard.start_marker with "<<<ACTION:".
    rewrite !sapp_assoc. rewrite contains_inside. reflexivity.
Qed.

Lemma whiteboard_text_forwarded (text : string) :
  whiteboard_text text ->
  PyVal.truthy (Some text) && contains "<<<ACTION:" text = true.
Proof.
  intros [(action_type & data & ->) | (tickers & ->)].
  - apply emit_action_forwarded.
  - apply analyze_portfolio_forwarded.
Qed.

Lemma flat_map_split {A B : Type} (f : A -> list B) (l : list A) (x : A) :
  In x l ->
  exists before after,
    flat_map f l = (before ++ f x ++ after)%list.
Proof.
  intros Hin. apply in_split in Hin as (l1 & l2 & ->).
  rewrite flat_map_app. simpl. now exists (flat_map f l1), (flat_map f l2).
Qed.

End StreamFacts.

(** X21.  What a whiteboard tool returns reaches the client whole.
    When some tool of the run ends with the text of a whiteboard tool
    (the result of [emit_action], or of [analyze_portfolio]), as a string
    or as the content of a tool message, [generate_stream] yields that
    text as one chunk, followed at once by the chunk that clears the
    status, whatever the other events are and even if the run fails
    later. *)
Theorem whiteboard_action_reaches_client
  (astream_events : string -> list Stream.event * option string)
  (query : string) (mode : PyVal.value) (ev : Stream.event) :
  In ev (fst (astream_events (Stream.augmented_query query mode))) ->
  Stream.kind ev = "on_tool_end" ->
  whiteboard_text (Stream.output_str (Stream.output ev)) ->
  exists before after,
    Stream.generate_stream (Ok astream_events) query mode
    = (before
       ++ [Stream.output_str (Stream.output ev); Stream.clear_status]
       ++ after)%list.
Proof.
  intros Hin Hkind Hout. unfold Stream.generate_stream.
  destruct (flat_map_split Stream.on_event _ ev Hin)
    as (before & after & ->).
  assert (Hev : Stream.on_event ev
                = [Stream.output_str (Stream.output ev);
                   Stream.clear_status]).
  { unfold Stream.on_event. rewrite Hkind.
    change (String.eqb "on_tool_end" "on_chat_model_stream") with false.
    change (String.eqb "on_tool_end" "on_tool_end") with true.
    cbv iota. cbv zeta.
    rewrite (whiteboard_text_forwarded _ Hout). reflexivity. }
  rewrite Hev. exists before. eexists.
  rewrite <- !app_assoc. reflexivity.
Qed.

Lemma whiteboard_action_reaches_client_witness :
  exists before after,
    Stream.generate_stream (Ok note_run) "note this" (Some "chat")
    = (before
       ++ [Whiteboard.create_text_node "Note" "Buy"; Stream.clear_status]
       ++ after)%list.
Proof.
  assert (Hw : whiteboard_text (Stream.output_str (Stream.output note_end))).
  { left. eexists. eexists. reflexivity. }
  exact (whiteboard_action_reaches_client note_run "note this" (Some "chat")
           note_end (or_intror (or_introl eq_refl)) eq_refl Hw).
Defined.

(* ================================================================== *)
(** * The query sent to the search tool *)
(* ================================================================== *)

Section SearchQueryFacts.
Import PyStr.

Lemma map_str_app (f : ascii -> ascii) (a b : string) :
  map_str f (a ++ b) = map_str f a ++ map_str f b.
Proof. induction a as [|c a IH]; simpl; [reflexivity | now rewrite IH]. Qed.

Lemma suffix_names_investors (topic : string) :
  contains "investor"
    (lower (topic ++ " investors CEO founders details")) = true.
Proof.
  unfold lower. rewrite map_str_app.
  change (map_str lower_char " investors CEO founders details")
    with (" " ++ "investor" ++ "s ceo founders details").
  rewrite <- sapp_assoc. apply contains_inside.
Qed.

End SearchQueryFacts.

(** X22.  The query that [research_and_learn] sends to the search tool
    always begins with the topic and, lower-cased, always names investors
    or a CEO; completing it is idempotent: the query built from a query
    that was already completed is that query. *)
Theorem search_query_completed_once (topic : string) :
  PyStr.starts_with topic (Tools.search_query topic) = true /\
  PyStr.contains "investor" (PyStr.lower (Tools.search_query topic))
  || PyStr.contains "ceo" (PyStr.lower (Tools.search_query topic)) = true /\
  Tools.search_query (Tools.search_query topic) = Tools.search_query topic.
Proof.
  assert (Hself : PyStr.starts_with topic topic = true).
  { rewrite <- (sapp_nil_r topic) at 2. apply starts_with_self. }
  destruct (PyStr.contains "investor" (PyStr.lower topic)) eqn:Hi;
    [| destruct (PyStr.contains "ceo" (PyStr.lower topic)) eqn:Hc].
  - assert (E : Tools.search_query topic = topic)
      by (unfold Tools.search_query; now rewrite Hi).
    rewrite !E, Hi. auto.
  - assert (E : Tools.search_query topic = topic)
      by (unfold Tools.search_query; now rewrite Hi, Hc).
    rewrite !E, Hi, Hc. auto.
  - assert (E : Tools.search_query topic
                = topic ++ " investors CEO founders details")
      by (unfold Tools.search_query; now rewrite Hi, Hc).
    rewrite E. rewrite suffix_names_investors.
    split; [apply starts_with_self | split; [reflexivity|]].
    unfold Tools.search_query. now rewrite suffix_names_investors.
Qed.

(* ================================================================== *)
(** * The second statement of the /graph endpoint *)
(* ================================================================== *)

Section NeighbourFacts.
Import Cypher.

Lemma token_eqb_eq (x y : token) : token_eqb x y = true -> x = y.
Proof.
  destruct x, y; simpl; try discriminate; intros H.
  - apply Ascii.eqb_eq in H. congruence.
  - apply String.eqb_eq in H. congruence.
Qed.

Lemma tokens_eqb_eq (x y : list token) : tokens_eqb x y = true -> x = y.
Proof.
  revert y. induction x as [|t x IH]; intros [|u y]; simpl;
    try discriminate; [reflexivity|].
  intros H. apply andb_true_iff in H as [Ht Hx].
  apply token_eqb_eq in Ht. apply IH in Hx. congruence.
Qed.

Lemma literals_shape (toks : list token) :
  List.length (literals (shape toks)) = List.length (literals toks).
Proof.
  induction toks as [|[c|s] toks IH]; simpl; [reflexivity | exact IH |].
  now rewrite IH.
Qed.

(** What is read from inside a literal holds a literal. *)
Lemma lex_inside_literal (s : string) :
  forall (m : mode) (lit : string) (toks : list token),
    m <> Code -> lex_from m lit s = Some toks -> literals toks <> [].
Proof.
  induction s as [|c s IH]; intros m lit toks Hm H.
  - destruct m; [congruence | discriminate | discriminate].
  - destruct m as [|q|q]; [congruence | |]; simpl in H.
    + destruct (Ascii.eqb c q).
      * destruct (lex_from Code EmptyString s); [|discriminate].
        inversion H. discriminate.
      * destruct (Ascii.eqb c backslash);
          apply IH in H; (assumption || discriminate).
    + destruct (unescape c); [|discriminate].
      apply IH in H; (assumption || discriminate).
Qed.

(** A text that holds a quote has a literal. *)
Lemma lex_quote_literal (s1 s2 : string) (toks : list token) :
  lex_from Code EmptyString (s1 ++ String squote s2) = Some toks ->
  literals toks <> [].
Proof.
  revert toks. induction s1 as [|c s1 IH]; intros toks H; simpl in H.
  - apply lex_inside_literal in H; (assumption || discriminate).
  - destruct (is_quote c).
    + apply lex_inside_literal in H; (assumption || discriminate).
    + destruct (lex_from Code EmptyString (s1 ++ String squote s2))
        as [tail|]; [|discriminate].
      inversion H. simpl. now apply IH.
Qed.

(** A text whose first literal holds a quote has two literals at
    least. *)
Lemma lex_two_literals (p a b rest : string) (toks : list token) :
  quote_free p = true -> plain a = true ->
  lex (p ++ String squote ((a ++ String squote b) ++ String squote rest))
  = Some toks ->
  2 <= List.length (literals toks).
Proof.
  intros Hp Ha. unfold lex. rewrite (lex_code_piece p _ Hp).
  assert (E : forall x, (a ++ String squote b) ++ x
                        = a ++ String squote (b ++ x)).
  { intros x. clear. induction a as [|c a IH]; simpl; [reflexivity|].
    now rewrite IH. }
  rewrite E. simpl lex_from.
  rewrite (reads_plain a Ha EmptyString (b ++ String squote rest)).
  destruct (lex_from Code EmptyString (b ++ String squote rest))
    as [tail|] eqn:Ht; simpl; [|discriminate].
  intros H. inversion H; subst. rewrite literals_chars. simpl.
  apply lex_quote_literal in Ht. destruct (literals tail); [congruence|].
  simpl. lia.
Qed.

End NeighbourFacts.

(** X23.  The second statement of [get_graph] writes the id that the
    store returned between quotes as it is.  For an id that holds a
    single quote, with no backslash before the first one, the text is
    never read as the statement that looks up the neighbours of an id:
    the literal ends at the quote and the rest of the id is left
    outside. *)
Theorem neighbours_statement_broken_by_quote (a b : string) :
  plain a = true ->
  Cypher.read_as GraphView.data_pieces
    (GraphView.data_text (Some (a ++ "'" ++ b))) = None.
Proof.
  intros Ha. unfold Cypher.read_as.
  destruct (Cypher.lex (GraphView.data_text (Some (a ++ "'" ++ b))))
    as [toks|] eqn:Hlex; [|reflexivity].
  unfold GraphView.data_text, GraphView.data_pieces, Cypher.fill in Hlex.
  cbn [PyVal.str] in Hlex.
  change ("'" ++ b) with (String Cypher.squote b) in Hlex.
  apply lex_two_literals in Hlex; [| reflexivity | exact Ha].
  destruct (Cypher.lex _) as [expected|] eqn:Hexp; [|reflexivity].
  destruct (Cypher.tokens_eqb _ _) eqn:Heq; [|reflexivity].
  apply tokens_eqb_eq in Heq.
  apply (f_equal (fun t => List.length (Cypher.literals t))) in Heq.
  rewrite !literals_shape in Heq.
  assert (Hone : List.length (Cypher.literals expected) = 1).
  { clear - Hexp. vm_compute in Hexp. inversion Hexp. reflexivity. }
  lia.
Qed.

Lemma neighbours_statement_broken_by_quote_witness :
  plain "O" = true /\
  Cypher.read_as GraphView.data_pieces
    (GraphView.data_text (Some "O'Reilly")) = None.
Proof.
  split; [reflexivity|].
  exact (neighbours_statement_broken_by_quote "O" "Reilly" eq_refl).
Defined.

(* ================================================================== *)
(** * The defaults of the /models endpoint *)
(* ================================================================== *)

(** X24.  When [GROQ_MODEL] is not set, the default model that
    [list_models] announces is among the models it lists for the default
    provider exactly when that provider is Groq: with an OpenAI key
    alone, the answer announces the provider "openai" together with a
    model that it does not list for it; then [get_llm], called with this
    pair, raises or builds an OpenAI client for that model. *)
Theorem announced_default_listed_for_groq_only
  (e : Agents.environ) (provider : string) :
  PyVal.truthy (Agents.getenv e "GROQ_MODEL") = false ->
  Models.default_provider (Models.list_models e) = Some provider ->
  (In (Models.default_model (Models.list_models e))
      (listed provider (Models.list_models e))
   <-> provider = "groq") /\
  (provider = "openai" ->
   Agents.get_llm e (Some provider)
     (Some (Models.default_model (Models.list_models e)))
   = Agents.HTTPException 400
       "OpenAI not installed. Run: pip install langchain-openai"
   \/
   Agents.get_llm e (Some provider)
     (Some (Models.default_model (Models.list_models e)))
   = Agents.Returned
       {| Agents.chat := Agents.ChatOpenAI;
          Agents.model := "moonshotai/kimi-k2-instruct-0905" |}).
Proof.
  intros Hm Hp. unfold Models.list_models in *.
  cbn [Models.default_provider Models.default_model Models.models] in *.
  unfold PyVal.or_else. rewrite Hm. cbn [PyVal.str].
  unfold listed. cbn [Models.models Models.groq Models.openai].
  destruct (PyVal.truthy (Agents.getenv e "GROQ_API_KEY")) eqn:Hg.
  - inversion Hp; subst provider. split.
    + split; [reflexivity|]. intros _. simpl. auto.
    + discriminate.
  - destruct (PyVal.truthy (Agents.getenv e "OPENAI_API_KEY")) eqn:Ho;
      [|discriminate].
    inversion Hp; subst provider. split.
    + split; [|discriminate]. intros Hin.
      change (String.eqb "openai" "groq") with false in Hin.
      change (String.eqb "openai" "openai") with true in Hin.
      cbv iota in Hin. rewrite andb_true_r in Hin.
      destruct (Agents.OPENAI_AVAILABLE e); simpl in Hin;
        repeat (destruct Hin as [Hin | Hin]; [discriminate|]);
        destruct Hin.
    + intros _. unfold Agents.get_llm.
      change (PyVal.equals "openai" (Some "openai")) with true. cbv iota.
      rewrite Ho. simpl negb.
      destruct (Agents.OPENAI_AVAILABLE e); simpl; auto.
Qed.

Lemma announced_default_listed_for_groq_only_witness :
  Models.default_provider (Models.list_models openai_only) = Some "openai" /\
  ~ In (Models.default_model (Models.list_models openai_only))
       (listed "openai" (Models.list_models openai_only)).
Proof.
  split; [reflexivity|]. intros Hin.
  destruct (announced_default_listed_for_groq_only openai_only "openai"
              eq_refl eq_refl) as [[H _] _].
  discriminate (H Hin).
Defined.
